(** * Envelope codec, resilient request client, persistent cell and quota
      monitor of the QuickBooks browser-extension client.

    A shallow embedding of
      - [cloudEvent.ts]      (generateEventId, encodeCloudEvent, decodeCloudEvent),
      - [network.ts]         (postCloudEvent and its helpers),
      - [persistentStore.ts] (persistentStore),
      - [storageMonitor.ts]  (checkStorageQuota, cleanupOldData),
    followed by the properties the specification states about them.

    Conventions.
      - An untyped JavaScript value ([unknown]) is a [value]; an object is the
        list of its own enumerable properties in [Object.keys] order.
      - JavaScript numbers are exact: integers are [Z], fractions are [Q]
        (canonical [Qc] inside [value], so that [===] on numbers is Leibniz
        equality).  Rounding of IEEE doubles is not modelled.
      - Globals the code reads ([crypto], [Math.random], [Date], [chrome],
        [fetch], [JSON.parse]) are explicit inputs.
      - Logger calls and error [message] strings are observational and are
        left out, except for the two messages of [decodeCloudEvent]. *)

From Stdlib Require Import ZArith QArith Qcanon Qround Bool List Ascii String Lia Lqa.
From Stdlib Require Import DecimalString HexadecimalString Sorted.
From stdpp Require Import gmap strings.
Import ListNotations.

#[local] Set Warnings "-register-all".

Local Open Scope string_scope.
Local Open Scope list_scope.
Local Open Scope Z_scope.

(* ===================================================================== *)
(** ** JavaScript values *)
(* ===================================================================== *)

Module JS.

Inductive value : Type :=
| VUndefined
| VNull
| VBool (b : bool)
| VNum (q : Qc)
| VStr (s : string)
| VArr (items : list value)
| VObj (props : list (string * value)).

(** [typeof v] *)
Definition typeof (v : value) : string :=
  match v with
  | VUndefined => "undefined"
  | VNull => "object"
  | VBool _ => "boolean"
  | VNum _ => "number"
  | VStr _ => "string"
  | VArr _ => "object"
  | VObj _ => "object"
  end.

(** ToBoolean: [undefined], [null], [false], [0] and [""] are falsy. *)
Definition truthy (v : value) : bool :=
  match v with
  | VUndefined | VNull => false
  | VBool b => b
  | VNum q => negb (Qc_eq_bool q (Q2Qc 0))
  | VStr s => negb (String.eqb s "")
  | VArr _ | VObj _ => true
  end.

(** [!v || typeof v !== 'object'], the guard the codec puts in front of
    every property read. *)
Definition notAnObject (v : value) : bool :=
  negb (truthy v) || negb (String.eqb (typeof v) "object").

(** [Array.isArray v] *)
Definition isArray (v : value) : bool :=
  match v with VArr _ => true | _ => false end.

(** [v === undefined] *)
Definition isUndefined (v : value) : bool :=
  match v with VUndefined => true | _ => false end.

(** The decimal spelling of an array index. *)
Definition indexKey (i : nat) : string :=
  DecimalString.NilZero.string_of_uint (Nat.to_uint i).

(** Own enumerable properties, in [Object.keys] order.  An array has its
    indices as keys. *)
Definition entries (v : value) : list (string * value) :=
  match v with
  | VObj props => props
  | VArr items => combine (map indexKey (seq 0 (List.length items))) items
  | _ => []
  end.

(** [Object.keys v] *)
Definition keys (v : value) : list string := map fst (entries v).

(** [v[k]] for an own property; a missing property reads [undefined].
    On primitives this is the result of [v?.k] for the keys the codec
    uses (none of them is an index or [length]). *)
Definition get (v : value) (k : string) : value :=
  match List.find (fun p => String.eqb (fst p) k) (entries v) with
  | Some p => snd p
  | None => VUndefined
  end.

(** [a || b] *)
Definition or (a b : value) : value := if truthy a then a else b.

(** [s.startsWith(p)] *)
Definition startsWith (s p : string) : bool := String.prefix p s.

(** [s.endsWith(p)] *)
Definition endsWith (s p : string) : bool :=
  let n := String.length s in
  let m := String.length p in
  (m <=? n)%nat && String.eqb (String.substring (n - m) m s) p.

(** [s.includes(p)] *)
Fixpoint includes (s p : string) : bool :=
  String.prefix p s ||
  match s with
  | EmptyString => false
  | String _ rest => includes rest p
  end.

(** [a !== b] on primitives; two objects are never identical here, the
    model has no references. *)
Definition strictNotEqual (a b : value) : bool :=
  match a, b with
  | VUndefined, VUndefined => false
  | VNull, VNull => false
  | VBool x, VBool y => negb (Bool.eqb x y)
  | VNum x, VNum y => negb (Qc_eq_bool x y)
  | VStr x, VStr y => negb (String.eqb x y)
  | _, _ => true
  end.

End JS.

Import JS.

(* ===================================================================== *)
(** ** Envelope codec (cloudEvent.ts) *)
(* ===================================================================== *)

Module CloudEvent.

(** [interface CloudEventMeta].  After [decodeCloudEvent] the five
    required fields hold whatever the wire carried ([as string] is only a
    cast), hence [value]. *)
Record CloudEventMeta := {
  specversion : value;
  id : value;
  source : value;
  type : value;
  time : value;
  datacontenttype : option value;
  dataschema : option value
}.

(** [interface QbxmlResponseAttributes] *)
Record QbxmlResponseAttributes := {
  requestID : value;
  statusCode : value;
  statusMessage : value;
  statusSeverity : value
}.

(** The two reference sub-objects of [TransactionDetails]. *)
Record Ref := { FullName : value; ListID : value }.

(** [interface TransactionDetails] *)
Record TransactionDetails := {
  IsPaid : value;
  OpenAmount : value;
  RefNumber : value;
  TimeCreated : value;
  TimeModified : value;
  TxnDate : value;
  TxnID : value;
  TxnNumber : value;
  TermsRef : Ref;
  VendorRef : Ref
}.

(** [interface DecodedCloudEvent] *)
Record DecodedCloudEvent := {
  meta : CloudEventMeta;
  responseAttributes : option QbxmlResponseAttributes;
  transactionDetails : option TransactionDetails
}.

(** The globals [encodeCloudEvent] reads. [randomUUID] is [Some u] when
    [crypto.randomUUID] exists and its call returns [u]; [Math_random n]
    is the result of the [n]-th call of [Math.random()]; [toISOString] is
    [new Date().toISOString()]. *)
Record Globals := {
  randomUUID : option string;
  Math_random : nat -> Q;
  toISOString : string
}.

(** *** UUID generation *)

(** ToInt32, the conversion behind [x | 0]. *)
Definition toInt32 (x : Q) : Z :=
  let t := Z.quot (Qnum x) (Zpos (Qden x)) in
  (t + 2 ^ 31) mod 2 ^ 32 - 2 ^ 31.

(** [v.toString(16)] on an integer. *)
Definition toString16 (v : Z) : string :=
  HexadecimalString.NilZero.string_of_int (Z.to_hex_int v).

(** The callback of [replace]: [c] is the matched character, [rnd] the
    value [Math.random()] returns in this call. *)
Definition replaceChar (c : ascii) (rnd : Q) : string :=
  let r := toInt32 (rnd * 16) in
  let v := if Ascii.eqb c "x" then r else Z.lor (Z.land r 3) 8 in
  toString16 v.

(** [template.replace(/[xy]/g, callback)]: [n] counts the calls of
    [Math.random] made so far. *)
Fixpoint replaceXY (random : nat -> Q) (n : nat) (template : string) : string :=
  match template with
  | EmptyString => EmptyString
  | String c rest =>
      if Ascii.eqb c "x" || Ascii.eqb c "y"
      then String.append (replaceChar c (random n)) (replaceXY random (S n) rest)
      else String c (replaceXY random n rest)
  end.

Definition uuidTemplate : string := "xxxxxxxx-xxxx-4xxx-yxxx-xxxxxxxxxxxx".

Definition generateEventId (g : Globals) : string :=
  match randomUUID g with
  | Some u => u
  | None => replaceXY (Math_random g) 0 uuidTemplate
  end.

(** *** Encoding *)

(** [interface CloudEvent]; [ce_data] is the payload. *)
Record CloudEvent := {
  ce_specversion : string;
  ce_id : string;
  ce_source : string;
  ce_type : string;
  ce_time : string;
  ce_datacontenttype : string;
  ce_data : value
}.

Definition encodeCloudEvent (g : Globals) (type source : string) (data : value)
  : CloudEvent :=
  {| ce_specversion := "1.0";
     ce_id := generateEventId g;
     ce_source := source;
     ce_type := type;
     ce_time := toISOString g;
     ce_datacontenttype := "application/json";
     ce_data := data |}.

(** The object literal [encodeCloudEvent] returns, seen as [unknown]. *)
Definition asUnknown (e : CloudEvent) : value :=
  VObj [ ("specversion", VStr (ce_specversion e));
         ("id", VStr (ce_id e));
         ("source", VStr (ce_source e));
         ("type", VStr (ce_type e));
         ("time", VStr (ce_time e));
         ("datacontenttype", VStr (ce_datacontenttype e));
         ("data", ce_data e) ].

(** *** Decoding *)

(** [throw new Error(message)] *)
Inductive Error := MkError (message : string).

Definition requiredFields : list string :=
  ["specversion"; "id"; "source"; "type"; "time"].

(** [payload.k !== undefined ? payload.k : (field left unset)] *)
Definition optionalField (payload : value) (k : string) : option value :=
  if isUndefined (get payload k) then None else Some (get payload k).

(** Lines 263-287: the walk [data.QBXML.QBXMLMsgsRs[responseKey]].  The
    result is the pair [(qbxmlMsgsRs, specificResponse)]. *)
Definition findSpecificResponse (data : value) : option (value * value) :=
  if notAnObject data then None else
  let qbxml := get data "QBXML" in
  if notAnObject qbxml then None else
  let qbxmlMsgsRs := get qbxml "QBXMLMsgsRs" in
  if notAnObject qbxmlMsgsRs then None else
  match List.find (fun key => negb (startsWith key "@")) (keys qbxmlMsgsRs) with
  | None => None
  | Some responseKey =>
      if negb (truthy (VStr responseKey)) then None else
      let specificResponse := get qbxmlMsgsRs responseKey in
      if notAnObject specificResponse then None else
      Some (qbxmlMsgsRs, specificResponse)
  end.

(** Lines 262-296; the record of lines 290-295 is built from the pair
    found above. *)
Definition extractResponseAttributes (data : value)
  : option QbxmlResponseAttributes :=
  match findSpecificResponse data with
  | None => None
  | Some (qbxmlMsgsRs, specificResponse) =>
      Some {| requestID :=
                JS.or (get specificResponse "@requestID")
                      (JS.or (get qbxmlMsgsRs "@requestID") (VStr "N/A"));
              statusCode := JS.or (get specificResponse "@statusCode") (VStr "N/A");
              statusMessage := JS.or (get specificResponse "@statusMessage") (VStr "N/A");
              statusSeverity := JS.or (get specificResponse "@statusSeverity") (VStr "N/A") |}
  end.

(** [(txnDetails.k as Record)?.FullName || ''] and the same for [ListID]. *)
Definition extractRef (txnDetails : value) (k : string) : Ref :=
  {| FullName := JS.or (get (get txnDetails k) "FullName") (VStr "");
     ListID := JS.or (get (get txnDetails k) "ListID") (VStr "") |}.

Definition extractTransactionDetails (data : value) : option TransactionDetails :=
  if notAnObject data then None else
  let qbxml := get data "QBXML" in
  if notAnObject qbxml then None else
  let qbxmlMsgsRs := get qbxml "QBXMLMsgsRs" in
  if notAnObject qbxmlMsgsRs then None else
  match List.find
          (fun key => negb (startsWith key "@")
                      && String.eqb (typeof (get qbxmlMsgsRs key)) "object")
          (keys qbxmlMsgsRs) with
  | None => None
  | Some txnResponseKey =>
      if negb (truthy (VStr txnResponseKey)) then None else
      let txnResponse := get qbxmlMsgsRs txnResponseKey in
      if notAnObject txnResponse then None else
      match List.find
              (fun key => negb (startsWith key "@") && endsWith key "Ret")
              (keys txnResponse) with
      | None => None
      | Some retKey =>
          let txnDetails0 := get txnResponse retKey in
          let txnDetails :=
            match txnDetails0 with
            | VArr (first :: _) => first
            | _ => txnDetails0
            end in
          if notAnObject txnDetails || isArray txnDetails then None else
          Some {| IsPaid := JS.or (get txnDetails "IsPaid") (VStr "false");
                  OpenAmount := JS.or (get txnDetails "OpenAmount") (VStr "0.00");
                  RefNumber := JS.or (get txnDetails "RefNumber") (VStr "");
                  TimeCreated := JS.or (get txnDetails "TimeCreated") (VStr "");
                  TimeModified := JS.or (get txnDetails "TimeModified") (VStr "");
                  TxnDate := JS.or (get txnDetails "TxnDate") (VStr "");
                  TxnID := JS.or (get txnDetails "TxnID") (VStr "");
                  TxnNumber := JS.or (get txnDetails "TxnNumber") (VStr "");
                  TermsRef := extractRef txnDetails "TermsRef";
                  VendorRef := extractRef txnDetails "VendorRef" |}
      end
  end.

Definition decodeCloudEvent (rawPayload : value) : Error + DecodedCloudEvent :=
  if notAnObject rawPayload
  then inl (MkError "Invalid CloudEvent: payload must be an object")
  else
    let payload := rawPayload in
    match List.find (fun field => isUndefined (get payload field)) requiredFields with
    | Some field =>
        inl (MkError (String.append "Invalid CloudEvent: missing required field '"
                                    (String.append field "'")))
    | None =>
        inr {| meta :=
                 {| specversion := get payload "specversion";
                    id := get payload "id";
                    source := get payload "source";
                    type := get payload "type";
                    time := get payload "time";
                    datacontenttype := optionalField payload "datacontenttype";
                    dataschema := optionalField payload "dataschema" |};
               responseAttributes := extractResponseAttributes (get payload "data");
               transactionDetails := extractTransactionDetails (get payload "data") |}
    end.

End CloudEvent.

(* ===================================================================== *)
(** ** The identifier pattern of the test-suite *)
(* ===================================================================== *)

Module Uuid.

(** One position of
    [/^[0-9a-f]{8}-[0-9a-f]{4}-4[0-9a-f]{3}-[89ab][0-9a-f]{3}-[0-9a-f]{12}$/i]. *)
Inductive charClass :=
| Hex                (* [0-9a-f], case-insensitive *)
| Variant            (* [89ab], case-insensitive *)
| Lit (c : ascii).   (* the character itself *)

Definition inRange (lo hi c : ascii) : bool :=
  (nat_of_ascii lo <=? nat_of_ascii c)%nat && (nat_of_ascii c <=? nat_of_ascii hi)%nat.

Definition isHexDigit (c : ascii) : bool :=
  inRange "0" "9" c || inRange "a" "f" c || inRange "A" "F" c.

Definition isVariantDigit (c : ascii) : bool :=
  inRange "8" "9" c || inRange "a" "b" c || inRange "A" "B" c.

Definition classMatches (cl : charClass) (c : ascii) : bool :=
  match cl with
  | Hex => isHexDigit c
  | Variant => isVariantDigit c
  | Lit l => Ascii.eqb l c
  end.

(** An anchored match: one character per class, nothing left over. *)
Fixpoint matchesPattern (p : list charClass) (s : string) : bool :=
  match p, s with
  | [], EmptyString => true
  | cl :: p', String c s' => classMatches cl c && matchesPattern p' s'
  | _, _ => false
  end.

Definition uuidV4Regex : list charClass :=
  repeat Hex 8 ++ [Lit "-"] ++ repeat Hex 4 ++ [Lit "-"; Lit "4"] ++ repeat Hex 3
  ++ [Lit "-"; Variant] ++ repeat Hex 3 ++ [Lit "-"] ++ repeat Hex 12.

Definition isUuidV4 (s : string) : bool := matchesPattern uuidV4Regex s.

End Uuid.

(* ===================================================================== *)
(** ** Resilient request client (network.ts) *)
(* ===================================================================== *)

Module Network.

Import CloudEvent.

(** Everything the client throws or catches.  The five classes of
    network.ts keep their fields; [NativeError] stands for the errors of
    the platform ([TypeError], [SyntaxError], the [AbortError] of an aborted
    [fetch], the [Error] of [decodeCloudEvent]), identified by [name]. *)
Inductive JsError :=
| NetworkError (cause : option JsError)
| TimeoutError (timeoutMs : Z)
| HTTPError (status : Z) (statusText : string) (responseBody : string)
| QBError (statusCode : value) (severity : value)
| ParseError (cause : JsError)
| NativeError (name : string) (message : string).

(** The part of a [Response] the client reads; [text] is what
    [await response.text()] gives. *)
Record Response := {
  status : Z;
  statusText : string;
  text : JsError + string
}.

(** [response.ok]: the status is in the range 200-299. *)
Definition ok (response : Response) : bool :=
  (200 <=? status response) && (status response <=? 299).

(** [interface RequestOptions]; [headers] only travel to [fetch] and
    [logger] only observes, neither is modelled. *)
Record RequestOptions := {
  timeout : option Z;
  retries : option Z
}.

(** [interface RetryState] *)
Record RetryState := {
  attempt : Z;
  maxRetries : Z;
  lastError : option JsError
}.

(** What the call does to the outside world, in order. *)
Inductive Effect :=
| Fetch (attempt : Z)      (* the [fetch] of that attempt *)
| Sleep (ms : Z).          (* [await sleep(ms)] *)

Definition calculateBackoff (attempt : Z) : Z :=
  2 ^ (attempt - 1) * 1000.

Definition isRetryableError (error : JsError) : bool :=
  match error with
  | NetworkError _ => true
  | TimeoutError _ => true
  | NativeError name message => String.eqb name "TypeError" && includes message "fetch"
  | _ => false
  end.

(** The [Error] of the codec as the client catches it. *)
Definition ofDecodeError (e : Error) : JsError :=
  match e with MkError message => NativeError "Error" message end.

Section Client.

(** [JSON.parse]: the parsed value, or the [SyntaxError] it throws. *)
Variable JSON_parse : string -> JsError + value.

(** The transport: what [await fetch(url, { body: cloudEvent, ... })]
    gives at the given attempt, a rejection or a response. *)
Variable fetch : string -> CloudEvent -> Z -> JsError + Response.

(** Lines 1085-1156, the inner [try] block after [fetch] has settled. *)
Definition tryBlock (settled : JsError + Response) : JsError + DecodedCloudEvent :=
  match settled with
  | inl error => inl error
  | inr response =>
      if negb (ok response) then
        match text response with
        | inl error => inl error
        | inr responseBody =>
            inl (HTTPError (status response) (statusText response) responseBody)
        end
      else
        match text response with
        | inl error => inl error
        | inr responseText =>
            match JSON_parse responseText with
            | inl parseError => inl (ParseError parseError)
            | inr rawPayload =>
                match decodeCloudEvent rawPayload with
                | inl decodeError => inl (ParseError (ofDecodeError decodeError))
                | inr decoded =>
                    match responseAttributes decoded with
                    | Some attrs =>
                        if strictNotEqual (statusCode attrs) (VStr "0")
                        then inl (QBError (statusCode attrs) (statusSeverity attrs))
                        else inr decoded
                    | None => inr decoded
                    end
                end
            end
        end
  end.

(** [error instanceof Error && error.name === 'AbortError'] *)
Definition isAbortError (error : JsError) : bool :=
  match error with
  | NativeError name _ => String.eqb name "AbortError"
  | _ => false
  end.

(** Lines 1157-1183, the inner [catch]. *)
Definition catchBlock (timeout : Z) (error : JsError) : JsError :=
  if isAbortError error then TimeoutError timeout
  else
    match error with
    | HTTPError _ _ _ | QBError _ _ | ParseError _ | TimeoutError _ => error
    | _ => NetworkError (Some error)
    end.

(** One pass through the inner [try]/[catch]. *)
Definition attemptRequest (timeout : Z) (settled : JsError + Response)
  : JsError + DecodedCloudEvent :=
  match tryBlock settled with
  | inl error => inl (catchBlock timeout error)
  | inr decoded => inr decoded
  end.

(** Lines 1077-1211, the retry loop and the final [throw].  [fuel] bounds
    the iterations; [None] is returned only if it runs out while the loop
    condition still holds. *)
Fixpoint retryLoop (fuel : nat) (url : string) (cloudEvent : CloudEvent)
    (timeout : Z) (retryState : RetryState) (effects : list Effect)
  : option ((JsError + DecodedCloudEvent) * list Effect) :=
  if attempt retryState <? maxRetries retryState then
    match fuel with
    | O => None
    | S fuel' =>
        let attempt' := attempt retryState + 1 in
        let effects := effects ++ [Fetch attempt'] in
        match attemptRequest timeout (fetch url cloudEvent attempt') with
        | inr decoded => Some (inr decoded, effects)
        | inl error =>
            let retryState :=
              {| attempt := attempt';
                 maxRetries := maxRetries retryState;
                 lastError := Some error |} in
            if negb (isRetryableError error) then Some (inl error, effects)
            else if maxRetries retryState <=? attempt retryState
                 then Some (inl error, effects)
                 else
                   let delay := calculateBackoff (attempt retryState) in
                   retryLoop fuel' url cloudEvent timeout retryState
                             (effects ++ [Sleep delay])
        end
    end
  else
    Some (inl (match lastError retryState with
               | Some error => error
               | None => NetworkError None
               end), effects).

Definition postCloudEvent (url : string) (cloudEvent : CloudEvent)
    (options : RequestOptions)
  : option ((JsError + DecodedCloudEvent) * list Effect) :=
  let timeout := default 5000 (timeout options) in
  let retries := default 3 (retries options) in
  retryLoop (Z.to_nat retries) url cloudEvent timeout
            {| attempt := 0; maxRetries := retries; lastError := None |} [].

Definition sendCloudEventToBackend (g : Globals) (url type source : string)
    (data : value) (options : RequestOptions)
  : option ((JsError + DecodedCloudEvent) * list Effect) :=
  let cloudEvent := encodeCloudEvent g type source data in
  postCloudEvent url cloudEvent options.

End Client.

(** The effects of [n] attempts, starting with attempt [k], that each end
    in a retry: [Fetch k; Sleep (backoff k); Fetch (k+1); ...]. *)
Fixpoint retried (k : Z) (n : nat) : list Effect :=
  match n with
  | O => []
  | S n' => Fetch k :: Sleep (2 ^ (k - 1) * 1000) :: retried (k + 1) n'
  end.

(** The effects of a run that gives up after [n] attempts:
    [Fetch 1; Sleep 1000; Fetch 2; Sleep 2000; ...; Fetch n]. *)
Definition exhausted (n : nat) : list Effect :=
  match n with
  | O => []
  | S n' => retried 1 n' ++ [Fetch (Z.of_nat n)]
  end.

(** The number of transport attempts in a run. *)
Definition fetchCount (effects : list Effect) : nat :=
  List.length (List.filter (fun e => match e with Fetch _ => true | _ => false end) effects).

(** The suspensions of a run, in order. *)
Definition sleeps (effects : list Effect) : list Z :=
  flat_map (fun e => match e with Sleep ms => [ms] | _ => [] end) effects.

End Network.

(* ===================================================================== *)
(** ** Persistent reactive store (persistentStore.ts) *)
(* ===================================================================== *)

Module PersistentStore.

(** [type StorageType = 'local' | 'sync'] *)
Inductive StorageType := local | sync.

Definition StorageType_eqb (a b : StorageType) : bool :=
  match a, b with
  | local, local | sync, sync => true
  | _, _ => false
  end.

(** [chrome.storage]: the records of the two areas. *)
Record ChromeStorage := {
  localArea : gmap string value;
  syncArea : gmap string value
}.

Definition area (t : StorageType) (chrome : ChromeStorage) : gmap string value :=
  match t with
  | local => localArea chrome
  | sync => syncArea chrome
  end.

(** The effect of [chrome.storage[t].set({ [k]: v })] on the records. *)
Definition areaSet (t : StorageType) (k : string) (v : value)
    (chrome : ChromeStorage) : ChromeStorage :=
  match t with
  | local => {| localArea := <[k := v]> (localArea chrome); syncArea := syncArea chrome |}
  | sync => {| localArea := localArea chrome; syncArea := <[k := v]> (syncArea chrome) |}
  end.

(** One entry of the [changes] object of [chrome.storage.onChanged]; a
    missing [newValue] (the record was removed) reads [undefined]. *)
Record StorageChange := {
  oldValue : option value;
  newValue : option value
}.

(** A cell created by [persistentStore(key, initialValue, storageType)]
    together with the storage it talks to.
      - [current] is the value held by the svelte [writable];
      - [isInitializing] is the closure variable of that name;
      - [pendingGet] is [Some r] while [storage.get([key])] has not
        resolved, [r] being the record it read ([result[key]]);
      - [setCalls] lists the [storage.set] calls issued so far. *)
Record Cell := {
  current : value;
  isInitializing : bool;
  pendingGet : option (option value);
  chrome : ChromeStorage;
  setCalls : list (StorageType * string * value)
}.

(** svelte's [safe_not_equal]: a primitive differs from a different
    primitive, an object differs from everything, itself included. *)
Definition safe_not_equal (a b : value) : bool :=
  match a with
  | VArr _ | VObj _ => true
  | _ => strictNotEqual a b
  end.

Section Store.

Variable key : string.
Variable storageType : StorageType.

(** [storage.set({ [key]: value })] *)
Definition storageSet (v : value) (c : Cell) : Cell :=
  {| current := current c;
     isInitializing := isInitializing c;
     pendingGet := pendingGet c;
     chrome := areaSet storageType key v (chrome c);
     setCalls := setCalls c ++ [(storageType, key, v)] |}.

(** Lines 447-455, the subscriber that mirrors the value outward. *)
Definition subscriber (v : value) (c : Cell) : Cell :=
  if isInitializing c then c else storageSet v c.

(** [store.set(new_value)] of the svelte [writable]: when the value
    changes it is stored and the subscribers run before [set] returns. *)
Definition set (new_value : value) (c : Cell) : Cell :=
  if safe_not_equal (current c) new_value then
    subscriber new_value
      {| current := new_value;
         isInitializing := isInitializing c;
         pendingGet := pendingGet c;
         chrome := chrome c;
         setCalls := setCalls c |}
  else c.

(** [store.update(fn)] *)
Definition update (fn : value -> value) (c : Cell) : Cell :=
  set (fn (current c)) c.

(** Lines 425-455 with [chrome.storage] present: the writable is created,
    the read is issued, and [store.subscribe] runs the subscriber once with
    the initial value. *)
Definition persistentStore (initialValue : value) (storage : ChromeStorage) : Cell :=
  subscriber initialValue
    {| current := initialValue;
       isInitializing := true;
       pendingGet := Some (area storageType storage !! key);
       chrome := storage;
       setCalls := [] |}.

(** Lines 439-444, the continuation of [storage.get([key])]. *)
Definition getResolved (c : Cell) : Cell :=
  match pendingGet c with
  | None => c
  | Some result =>
      let c' := match result with
                | Some stored => set stored c
                | None => c
                end in
      {| current := current c';
         isInitializing := false;
         pendingGet := None;
         chrome := chrome c';
         setCalls := setCalls c' |}
  end.

(** Lines 459-472, the [chrome.storage.onChanged] listener. *)
Definition onChanged (changes : gmap string StorageChange) (areaName : StorageType)
    (c : Cell) : Cell :=
  if negb (StorageType_eqb areaName storageType) then c
  else
    match changes !! key with
    | None => c
    | Some change =>
        let new_value := default VUndefined (newValue change) in
        let c1 := {| current := current c;
                     isInitializing := true;
                     pendingGet := pendingGet c;
                     chrome := chrome c;
                     setCalls := setCalls c |} in
        let c2 := set new_value c1 in
        {| current := current c2;
           isInitializing := false;
           pendingGet := pendingGet c2;
           chrome := chrome c2;
           setCalls := setCalls c2 |}
    end.

End Store.

End PersistentStore.

(* ===================================================================== *)
(** ** Quota monitor (storageMonitor.ts) *)
(* ===================================================================== *)

Module StorageMonitor.

(** [interface Bill] of stores/types.ts *)
Record Bill := {
  id : string;
  vendorId : string;
  vendorName : string;
  amount : Q;
  dueDate : string;
  billStatus : string;
  account : string;
  description : string;
  createdAt : Z;
  updatedAt : Z
}.

Inductive Status := ok | warning | critical.

(** [interface StorageQuota] of stores/types.ts *)
Record StorageQuota := {
  bytesInUse : Z;
  quota : Z;
  percentUsed : Q;
  status : Status
}.

Definition QUOTA_LIMITS_local : Z := 5242880.
Definition QUOTA_LIMITS_sync : Z := 102400.

Definition THRESHOLDS_ok : Q := 80.
Definition THRESHOLDS_warning : Q := 90.
Definition THRESHOLDS_critical : Q := 95.

(** What [checkStorageQuota] finds: no [chrome.storage] at all, a byte
    count from [getBytesInUse()], or a rejection of that call. *)
Inductive Host :=
| NoChrome
| BytesInUse (n : Z)
| GetBytesInUseRejects.

(** [checkStorageQuota()]; [None] is the rethrown rejection.  The returned
    snapshot is also what the [storageQuota] store is set to.
    [percentUsed] is the exact quotient, where the code holds the binary64
    result of [(bytesInUse / quota) * 100], which can differ from it in
    the last place. *)
Definition checkStorageQuota (host : Host) : option StorageQuota :=
  match host with
  | NoChrome =>
      Some {| bytesInUse := 0; quota := QUOTA_LIMITS_local; percentUsed := 0; status := ok |}
  | GetBytesInUseRejects => None
  | BytesInUse bytesInUse =>
      let quota := QUOTA_LIMITS_local in
      let percentUsed := (inject_Z bytesInUse / inject_Z quota * 100)%Q in
      let status :=
        if Qle_bool THRESHOLDS_critical percentUsed then critical
        else if Qle_bool THRESHOLDS_warning percentUsed then warning
        else ok in
      Some {| bytesInUse := bytesInUse; quota := quota;
              percentUsed := percentUsed; status := status |}
  end.

(** [[...bills].sort((a, b) => a.createdAt - b.createdAt)]: the stable
    ascending sort by [createdAt]. *)
Fixpoint insertByCreatedAt (b : Bill) (sorted : list Bill) : list Bill :=
  match sorted with
  | [] => [b]
  | b' :: rest =>
      if createdAt b <=? createdAt b' then b :: b' :: rest
      else b' :: insertByCreatedAt b rest
  end.

Definition sortByCreatedAt (bills : list Bill) : list Bill :=
  fold_right insertByCreatedAt [] bills.

(** A result of [Math.ceil]: an integer or an infinity. *)
Inductive Ceiled := Finite (n : Z) | Infinite.

(** [Math.ceil(bytesInUse / length) || 500].  A division by zero gives
    [NaN] (falsy) for [0 / 0] and an infinity (truthy) otherwise. *)
Definition avgBytesPerBill (bytesInUse : Z) (length : nat) : Ceiled :=
  match length with
  | O => if bytesInUse =? 0 then Finite 500 else Infinite
  | S _ =>
      let c := Qceiling (inject_Z bytesInUse / inject_Z (Z.of_nat length)) in
      if c =? 0 then Finite 500 else Finite c
  end.

(** [Math.ceil(bytesToFree / avgBytesPerBill)]; a finite number over an
    infinity is zero. *)
Definition ceilDiv (bytesToFree : Q) (avg : Ceiled) : Z :=
  match avg with
  | Finite n => Qceiling (bytesToFree / inject_Z n)
  | Infinite => 0
  end.

(** [billCache] is a svelte [writable] (it is what [persistentStore]
    returns).  The part of its contract that [cleanupOldData] meets:
      - [subscribe(run)] adds [run] to the subscribers and then calls
        [run(value)]; [run] stays subscribed until the function that
        [subscribe] returns is called;
      - [set(v)] stores [v] and queues one notification per subscriber; if
        no delivery is under way it then delivers the queue, calling each
        subscriber with the value queued for it, until the queue is empty.
        A [set] made by a subscriber during a delivery only adds to the
        queue.
    [persistentStore] relies on the same contract: its [isInitializing]
    flag guards the subscriber that [store.set] runs before it returns.
    The other subscribers of [billCache] (the one that mirrors it to
    [chrome.storage], derived stores, components) never call
    [billCache.set] from a notification and are left out.

    [Cleanup] holds the store and the variables [cleanupOldData] shares
    with the subscriber it hands to [billCache.subscribe]:
      - [bills] is the value of [billCache];
      - [subscriber_queue] holds the notifications queued for that
        subscriber and not yet delivered;
      - [billsToRemove] is the local variable of that name;
      - [resolved] is the value the returned promise is settled with
        (only the first [resolve] counts).
    [estimatedBytesFreed] is only logged and is left out. *)
Record Cleanup := {
  bills : list Bill;
  subscriber_queue : list (list Bill);
  billsToRemove : Z;
  resolved : option Z
}.

(** [resolve(n)] *)
Definition resolve (n : Z) (s : Cleanup) : Cleanup :=
  {| bills := bills s;
     subscriber_queue := subscriber_queue s;
     billsToRemove := billsToRemove s;
     resolved := match resolved s with Some r => Some r | None => Some n end |}.

Section Subscriber.

Variable quota : StorageQuota.
Variable bytesToFree : Q.

(** Lines 1352-1379, the callback given to [billCache.subscribe], run on
    the notified value [notified].  [set] is [billCache.set] as it behaves
    at the moment of the call. *)
Definition subscriber (set : list Bill -> Cleanup -> option Cleanup)
    (notified : list Bill) (s : Cleanup) : option Cleanup :=
  let sortedBills := sortByCreatedAt notified in
  let minBillsToKeep := 10 in
  let maxBillsToRemove := Z.max 0 (Z.of_nat (List.length sortedBills) - minBillsToKeep) in
  let avg := avgBytesPerBill (bytesInUse quota) (List.length sortedBills) in
  let n := Z.min maxBillsToRemove (ceilDiv bytesToFree avg) in
  let s := {| bills := bills s; subscriber_queue := subscriber_queue s;
              billsToRemove := n; resolved := resolved s |} in
  if 0 <? n then
    let billsToKeep := skipn (Z.to_nat n) sortedBills in
    match set billsToKeep s with
    | None => None
    | Some s => Some (resolve (billsToRemove s) s)
    end
  else Some (resolve (billsToRemove s) s).

(** [billCache.set(v)] called while svelte is already delivering
    notifications: the value is stored and the notification is queued. *)
Definition setQueued (v : list Bill) (s : Cleanup) : option Cleanup :=
  Some {| bills := v;
          subscriber_queue := subscriber_queue s ++ [v];
          billsToRemove := billsToRemove s;
          resolved := resolved s |}.

(** svelte's delivery loop over the queued notifications.  [fuel] bounds
    the number of deliveries; [None] is returned only if it runs out. *)
Fixpoint deliver (fuel : nat) (s : Cleanup) : option Cleanup :=
  match subscriber_queue s with
  | [] => Some s
  | v :: queue =>
      match fuel with
      | O => None
      | S fuel' =>
          match subscriber setQueued v
                  {| bills := bills s; subscriber_queue := queue;
                     billsToRemove := billsToRemove s; resolved := resolved s |} with
          | None => None
          | Some s' => deliver fuel' s'
          end
      end
  end.

(** [billCache.set(v)] called while no delivery is running: the value is
    stored, the notification is queued, and the queue is delivered before
    [set] returns.  Every delivery queues a shorter list or nothing, so
    [length v + 1] deliveries are enough. *)
Definition setAndDeliver (v : list Bill) (s : Cleanup) : option Cleanup :=
  deliver (S (List.length v))
          {| bills := v;
             subscriber_queue := [v];
             billsToRemove := billsToRemove s;
             resolved := resolved s |}.

End Subscriber.

(** How an [async] call ends. *)
Inductive Outcome (A : Type) :=
| Rejected
| Resolved (a : A).

Arguments Rejected {A}.
Arguments Resolved {A} a.

(** [cleanupOldData(targetPercentage)] on a [billCache] holding
    [billCache]: the value the promise resolves with and the value of
    [billCache] afterwards.  [billCache.subscribe(callback)] registers the
    callback and calls it with the current value; it stays registered
    until the unsubscribe function is called, after [subscribe] returns.
    [None] is returned only if the delivery loop runs out of fuel. *)
Definition cleanupOldData (host : Host) (targetPercentage : option Q)
    (billCache : list Bill) : option (Outcome Z * list Bill) :=
  let targetPercentage := default (70 : Q) targetPercentage in
  match checkStorageQuota host with
  | None => Some (Rejected, billCache)
  | Some quota =>
      if Qle_bool (percentUsed quota) targetPercentage then Some (Resolved 0, billCache)
      else
        let targetBytes := (targetPercentage / 100 * inject_Z (StorageMonitor.quota quota))%Q in
        let bytesToFree := (inject_Z (bytesInUse quota) - targetBytes)%Q in
        match subscriber quota bytesToFree (setAndDeliver quota bytesToFree) billCache
                {| bills := billCache; subscriber_queue := [];
                   billsToRemove := 0; resolved := None |} with
        | None => None
        | Some s =>
            match resolved s with
            | Some n => Some (Resolved n, bills s)
            | None => None
            end
        end
  end.

(** The number of entries the first run of the subscriber decides to
    remove: [min(max(size - 10, 0), ceil(bytesToFree / average cost))]. *)
Definition firstPassCount (bytesInUse : Z) (targetPercentage : Q) (size : nat) : Z :=
  let bytesToFree := (inject_Z bytesInUse - targetPercentage / 100 * inject_Z QUOTA_LIMITS_local)%Q in
  Z.min (Z.max (Z.of_nat size - 10) 0)
        (ceilDiv bytesToFree (avgBytesPerBill bytesInUse size)).

End StorageMonitor.

(* ===================================================================== *)
(** ** Vocabulary of the specification *)
(* ===================================================================== *)

Module Spec.

Import CloudEvent.

(** [Math.random()] returns a number in [[0, 1)]. *)
Definition unitInterval (random : nat -> Q) : Prop :=
  forall n, (0 <= random n)%Q /\ (random n < 1)%Q.

(** A keyed structure: an object with named properties. *)
Definition keyedStructure (v : value) : Prop :=
  match v with
  | VObj _ => True
  | _ => False
  end.

(** The payload lacks the nested protocol structures: there is no object
    under [data.QBXML.QBXMLMsgsRs]. *)
Definition lacksProtocolStructures (data : value) : Prop :=
  notAnObject (get (get data "QBXML") "QBXMLMsgsRs") = true.

(** The classifications that are never retried: Transport-Status, Parse
    and Protocol. *)
Definition neverRetried (error : Network.JsError) : Prop :=
  match error with
  | Network.HTTPError _ _ _ | Network.ParseError _ | Network.QBError _ _ => True
  | _ => False
  end.

(** Oldest first. *)
Definition olderOrEqual (a b : StorageMonitor.Bill) : Prop :=
  StorageMonitor.createdAt a <= StorageMonitor.createdAt b.

(** The classifications a run can give up with: Network and Timeout. *)
Definition networkOrTimeout (error : Network.JsError) : Prop :=
  match error with
  | Network.NetworkError _ | Network.TimeoutError _ => True
  | _ => False
  end.

End Spec.

(* ===================================================================== *)
(** ** Scenarios used by the examples below *)
(* ===================================================================== *)

Module Scenario.

Import CloudEvent.

(** A host without [crypto]: identifiers come from [Math.random], which
    here always returns one half. *)
Definition noCrypto : Globals :=
  {| randomUUID := None;
     Math_random := fun _ => (1 # 2)%Q;
     toISOString := "2025-11-08T10:30:00.000Z" |}.

(** A request payload, as in the encoding tests. *)
Definition billAddRq : value :=
  VObj [("QBXML",
         VObj [("QBXMLMsgsRq",
                VObj [("BillAddRq",
                       VObj [("VendorRef", VObj [("FullName", VStr "Test Vendor")]);
                             ("TxnDate", VStr "2025-11-08");
                             ("AmountDue", VStr "1500.00")])])])].

(** The [QBXMLMsgsRs] object of the decoding tests, with a [BillAddRs]
    container holding the attributes [attrs] and no return object. *)
Definition msgsRs (attrs : list (string * value)) : value :=
  VObj [("@requestID", VStr "1"); ("BillAddRs", VObj attrs)].

Definition billAddRs (attrs : list (string * value)) : value :=
  VObj [("QBXML", VObj [("QBXMLMsgsRs", msgsRs attrs)])].

(** A wire envelope around [data]. *)
Definition envelope (data : value) : value :=
  VObj [("specversion", VStr "1.0");
        ("id", VStr "550e8400-e29b-41d4-a716-446655440000");
        ("source", VStr "qb-backend");
        ("type", VStr "com.quickbooks.bill.add.response");
        ("time", VStr "2025-11-08T10:30:00.000Z");
        ("datacontenttype", VStr "application/json");
        ("data", data)].

(** The metadata [decodeCloudEvent] reads from [envelope data]. *)
Definition envelopeMeta : CloudEventMeta :=
  {| specversion := VStr "1.0";
     id := VStr "550e8400-e29b-41d4-a716-446655440000";
     source := VStr "qb-backend";
     type := VStr "com.quickbooks.bill.add.response";
     time := VStr "2025-11-08T10:30:00.000Z";
     datacontenttype := Some (VStr "application/json");
     dataschema := None |}.

(** A backend answer carrying QuickBooks status 3100, and what it decodes
    to. *)
Definition vendorErrorAttributes : list (string * value) :=
  [("@requestID", VStr "1");
   ("@statusCode", VStr "3100");
   ("@statusMessage", VStr "There was an error when modifying a vendor.");
   ("@statusSeverity", VStr "Error")].

Definition vendorError : value := envelope (billAddRs vendorErrorAttributes).

Definition vendorErrorStatus : QbxmlResponseAttributes :=
  {| requestID := VStr "1";
     statusCode := VStr "3100";
     statusMessage := VStr "There was an error when modifying a vendor.";
     statusSeverity := VStr "Error" |}.

Definition vendorErrorDecoded : DecodedCloudEvent :=
  {| meta := envelopeMeta;
     responseAttributes := Some vendorErrorStatus;
     transactionDetails := None |}.

(** A backend answer whose response container has no ['@statusCode'], and
    what it decodes to. *)
Definition noStatusCodeAttributes : list (string * value) :=
  [("@requestID", VStr "1");
   ("@statusMessage", VStr "Success");
   ("@statusSeverity", VStr "Info")].

Definition noStatusCode : value := envelope (billAddRs noStatusCodeAttributes).

Definition noStatusCodeDecoded : DecodedCloudEvent :=
  {| meta := envelopeMeta;
     responseAttributes :=
       Some {| requestID := VStr "1";
               statusCode := VStr "N/A";
               statusMessage := VStr "Success";
               statusSeverity := VStr "Info" |};
     transactionDetails := None |}.

(** The options of a call that sets nothing, and of one that allows five
    attempts. *)
Definition defaults : Network.RequestOptions :=
  {| Network.timeout := None; Network.retries := None |}.

Definition fiveAttempts : Network.RequestOptions :=
  {| Network.timeout := None; Network.retries := Some 5 |}.

Definition url : string := "http://localhost:3000/api/qb".

Definition request : CloudEvent :=
  encodeCloudEvent noCrypto "com.quickbooks.bill.add" "qb-chrome-extension" billAddRq.

(** A transport that cannot connect. *)
Definition refused : string -> CloudEvent -> Z -> Network.JsError + Network.Response :=
  fun _ _ _ => inl (Network.NativeError "TypeError" "Failed to fetch").

(** A transport that answers every request with the same response. *)
Definition answers (status : Z) (statusText body : string)
  : string -> CloudEvent -> Z -> Network.JsError + Network.Response :=
  fun _ _ _ => inr {| Network.status := status;
                      Network.statusText := statusText;
                      Network.text := inr body |}.

(** A [JSON.parse] for bodies known to spell [v]. *)
Definition parsesTo (v : value) : string -> Network.JsError + value :=
  fun _ => inr v.

(** A bill created at time [t]. *)
Definition bill (t : Z) : StorageMonitor.Bill :=
  {| StorageMonitor.id := "bill";
     StorageMonitor.vendorId := "vendor";
     StorageMonitor.vendorName := "Test Vendor";
     StorageMonitor.amount := 1500;
     StorageMonitor.dueDate := "2025-12-01";
     StorageMonitor.billStatus := "pending";
     StorageMonitor.account := "GL-1000";
     StorageMonitor.description := "";
     StorageMonitor.createdAt := t;
     StorageMonitor.updatedAt := t |}.

(** Twelve bills, oldest first. *)
Definition twelveBills : list StorageMonitor.Bill :=
  map bill [1; 2; 3; 4; 5; 6; 7; 8; 9; 10; 11; 12].

(** Twenty bills, oldest first. *)
Definition twentyBills : list StorageMonitor.Bill :=
  map bill [1; 2; 3; 4; 5; 6; 7; 8; 9; 10; 11; 12; 13; 14; 15; 16; 17; 18; 19; 20].

(** A [chrome.storage] whose local area holds a backend URL. *)
Definition storedUrl : PersistentStore.ChromeStorage :=
  {| PersistentStore.localArea := {[ "backend-url" := VStr "http://stored:3000" ]};
     PersistentStore.syncArea := ∅ |}.

(** A change notification: the backend URL was rewritten elsewhere. *)
Definition urlChanged : gmap string PersistentStore.StorageChange :=
  {[ "backend-url" :=
       {| PersistentStore.oldValue := Some (VStr "http://stored:3000");
          PersistentStore.newValue := Some (VStr "http://other:3000") |} ]}.

End Scenario.

Module Uuid_template.

Import Uuid.

(** The class a template character is replaced into: [x] becomes a hex
    digit, [y] one of [89ab], anything else stays. *)
Definition classOfTemplateChar (c : ascii) : charClass :=
  if Ascii.eqb c "x" then Hex
  else if Ascii.eqb c "y" then Variant
  else Lit c.

Fixpoint classesOfTemplate (template : string) : list charClass :=
  match template with
  | EmptyString => []
  | String c rest => classOfTemplateChar c :: classesOfTemplate rest
  end.

End Uuid_template.

(* ===================================================================== *)
(** ** Further vocabulary *)
(* ===================================================================== *)

Module Spec_more.

(** One of the five error classes of network.ts, as opposed to an error of
    the platform. *)
Definition classified (error : Network.JsError) : Prop :=
  match error with
  | Network.NativeError _ _ => False
  | _ => True
  end.

(** A key that names an attribute: it starts with "@". *)
Definition attributeKeys (props : list (string * value)) : Prop :=
  Forall (fun p => startsWith (fst p) "@" = true) props.

(** A payload of the shape the backend sends: attributes on the envelope
    level, then one response container holding its own attributes and then
    one return object. *)
Definition qbResponse (envelopeAttrs : list (string * value)) (responseKey : string)
    (responseAttrs : list (string * value)) (retKey : string) (ret : value) : value :=
  VObj [("QBXML",
         VObj [("QBXMLMsgsRs",
                VObj (envelopeAttrs
                      ++ [(responseKey, VObj (responseAttrs ++ [(retKey, ret)]))]))])].

(** The sum of a list of delays. *)
Definition total (delays : list Z) : Z := fold_right Z.add 0 delays.

End Spec_more.

(* ===================================================================== *)
(** ** Further scenarios *)
(* ===================================================================== *)

Module Scenario_more.

Import CloudEvent.

(** A backend answer reporting success, with a return object. *)
Definition billAddedAttributes : list (string * value) :=
  [("@requestID", VStr "1");
   ("@statusCode", VStr "0");
   ("@statusMessage", VStr "Success");
   ("@statusSeverity", VStr "Info");
   ("BillRet", VObj [("TxnID", VStr "ABC-123"); ("IsPaid", VStr "false")])].

Definition billAdded : value :=
  Scenario.envelope (Scenario.billAddRs billAddedAttributes).

Definition billAddedDecoded : DecodedCloudEvent :=
  {| meta := Scenario.envelopeMeta;
     responseAttributes :=
       Some {| requestID := VStr "1";
               statusCode := VStr "0";
               statusMessage := VStr "Success";
               statusSeverity := VStr "Info" |};
     transactionDetails :=
       Some {| IsPaid := VStr "false";
               OpenAmount := VStr "0.00";
               RefNumber := VStr "";
               TimeCreated := VStr "";
               TimeModified := VStr "";
               TxnDate := VStr "";
               TxnID := VStr "ABC-123";
               TxnNumber := VStr "";
               TermsRef := {| FullName := VStr ""; ListID := VStr "" |};
               VendorRef := {| FullName := VStr ""; ListID := VStr "" |} |} |}.

(** A transport that cannot connect at the first attempt and answers
    200 from the second on. *)
Definition failsOnce : string -> CloudEvent -> Z -> Network.JsError + Network.Response :=
  fun _ _ k =>
    if k <? 2 then inl (Network.NativeError "TypeError" "Failed to fetch")
    else inr {| Network.status := 200; Network.statusText := "OK";
                Network.text := inr "{}" |}.

(** A transport whose every request is aborted by the timeout. *)
Definition aborted : string -> CloudEvent -> Z -> Network.JsError + Network.Response :=
  fun _ _ _ => inl (Network.NativeError "AbortError" "The operation was aborted.").

(** A transport that answers 502 with a body that cannot be read. *)
Definition unreadable : string -> CloudEvent -> Z -> Network.JsError + Network.Response :=
  fun _ _ _ => inr {| Network.status := 502; Network.statusText := "Bad Gateway";
                      Network.text := inl (Network.NativeError "TypeError" "body stream error") |}.

(** A transport that answers 404 with a body that cannot be read. *)
Definition notFoundUnreadable
  : string -> CloudEvent -> Z -> Network.JsError + Network.Response :=
  fun _ _ _ => inr {| Network.status := 404; Network.statusText := "Not Found";
                      Network.text := inl (Network.NativeError "TypeError" "body stream error") |}.

(** A transport that answers 502 with an unreadable body at the first
    attempt and 500 with a readable one from the second on. *)
Definition unreadableThenError
  : string -> CloudEvent -> Z -> Network.JsError + Network.Response :=
  fun _ _ k =>
    if k <? 2 then unreadable "" Scenario.request k
    else inr {| Network.status := 500; Network.statusText := "Internal Server Error";
                Network.text := inr "boom" |}.

(** A [JSON.parse] that rejects every body. *)
Definition unparsable : string -> Network.JsError + value :=
  fun _ => inl (Network.NativeError "SyntaxError" "Unexpected token").

Definition noAttempts : Network.RequestOptions :=
  {| Network.timeout := None; Network.retries := Some 0 |}.

End Scenario_more.

(* ===================================================================== *)
(** ** The life of a persistent cell *)
(* ===================================================================== *)

Module PersistentStore_events.

Import PersistentStore.

(** What can happen to a cell after [persistentStore] has returned. *)
Inductive Event :=
| LocalSet (v : value)                          (* an owner calls [store.set(v)] *)
| LocalUpdate (fn : value -> value)             (* an owner calls [store.update(fn)] *)
| GetResolved                                   (* [storage.get([key])] resolves *)
| Changed (changes : gmap string StorageChange) (* [chrome.storage.onChanged] fires *)
          (areaName : StorageType).

Section Cell.

Variable key : string.
Variable storageType : StorageType.

Definition step (c : Cell) (e : Event) : Cell :=
  match e with
  | LocalSet v => set key storageType v c
  | LocalUpdate fn => update key storageType fn c
  | GetResolved => getResolved key storageType c
  | Changed changes areaName => onChanged key storageType changes areaName c
  end.

Definition run (events : list Event) (c : Cell) : Cell :=
  fold_left step events c.

End Cell.

End PersistentStore_events.

(* ===================================================================== *)
(** ** Quota monitor, continued (storageMonitor.ts) *)
(* ===================================================================== *)

Module StorageMonitor_more.

Import StorageMonitor.

(** [monitorAndCleanup()] on a [billCache] holding [billCache].  The host is
    asked for the bytes in use up to three times: by the first check, by
    the check inside [cleanupOldData], and by the re-check; [first],
    [second] and [third] are what it answers.  The result is how the call
    ends and the value of [billCache] afterwards; [None] only if
    [cleanupOldData] runs out of fuel. *)
Definition monitorAndCleanup (first second third : Host) (billCache : list Bill)
  : option (Outcome unit * list Bill) :=
  match checkStorageQuota first with
  | None => Some (Rejected, billCache)
  | Some quota =>
      match status quota with
      | critical =>
          match cleanupOldData second (Some (70 : Q)) billCache with
          | None => None
          | Some (Rejected, bills) => Some (Rejected, bills)
          | Some (Resolved _, bills) =>
              match checkStorageQuota third with
              | None => Some (Rejected, bills)
              | Some _ => Some (Resolved tt, bills)
              end
          end
      | warning => Some (Resolved tt, billCache)
      | ok => Some (Resolved tt, billCache)
      end
  end.

End StorageMonitor_more.

(* ===================================================================== *)
(** ** Bill cache store (stores/bills.ts) *)
(* ===================================================================== *)

(** The helpers of bills.ts hand [billCache.update] a function from the
    cached list to the new list; each definition below is that function.
    [crypto.randomUUID()] and [Date.now()] are inputs. *)
Module Bills.

Import StorageMonitor.

(** [Omit<Bill, 'id' | 'createdAt' | 'updatedAt'>] *)
Record BillInput := {
  in_vendorId : string;
  in_vendorName : string;
  in_amount : Q;
  in_dueDate : string;
  in_status : string;
  in_account : string;
  in_description : string
}.

(** [Partial<Omit<Bill, 'id'>>]: [None] is a property left out. *)
Record BillUpdates := {
  up_vendorId : option string;
  up_vendorName : option string;
  up_amount : option Q;
  up_dueDate : option string;
  up_status : option string;
  up_account : option string;
  up_description : option string;
  up_createdAt : option Z;
  up_updatedAt : option Z
}.

(** [{ ...bill, id: crypto.randomUUID(), createdAt: now, updatedAt: now }] *)
Definition newBill (randomUUID : string) (now : Z) (bill : BillInput) : Bill :=
  {| id := randomUUID;
     vendorId := in_vendorId bill;
     vendorName := in_vendorName bill;
     amount := in_amount bill;
     dueDate := in_dueDate bill;
     billStatus := in_status bill;
     account := in_account bill;
     description := in_description bill;
     createdAt := now;
     updatedAt := now |}.

Definition addBill (randomUUID : string) (now : Z) (bill : BillInput)
    (bills : list Bill) : list Bill :=
  bills ++ [newBill randomUUID now bill].

(** [{ ...b, ...updates, updatedAt: Date.now() }] *)
Definition merge (b : Bill) (updates : BillUpdates) (now : Z) : Bill :=
  {| id := id b;
     vendorId := default (vendorId b) (up_vendorId updates);
     vendorName := default (vendorName b) (up_vendorName updates);
     amount := default (amount b) (up_amount updates);
     dueDate := default (dueDate b) (up_dueDate updates);
     billStatus := default (billStatus b) (up_status updates);
     account := default (account b) (up_account updates);
     description := default (description b) (up_description updates);
     createdAt := default (createdAt b) (up_createdAt updates);
     updatedAt := now |}.

(** [now] is the value of [Date.now()] at each call: the model takes one
    value for the whole [map]. *)
Definition updateBill (billId : string) (updates : BillUpdates) (now : Z)
    (bills : list Bill) : list Bill :=
  map (fun b => if String.eqb (id b) billId then merge b updates now else b) bills.

Definition deleteBill (billId : string) (bills : list Bill) : list Bill :=
  List.filter (fun b => negb (String.eqb (id b) billId)) bills.

(** [{ status: 'paid' }] *)
Definition paid : BillUpdates :=
  {| up_vendorId := None; up_vendorName := None; up_amount := None;
     up_dueDate := None; up_status := Some "paid"; up_account := None;
     up_description := None; up_createdAt := None; up_updatedAt := None |}.

Definition markBillPaid (billId : string) (now : Z) (bills : list Bill) : list Bill :=
  updateBill billId paid now bills.

Section Derived.

(** [new Date(s).getTime()]: [None] is [NaN], the time of an invalid
    date. *)
Variable getTime : string -> option Z.

(** [filteredBillsByStatus(status)]; [None] is a call without argument. *)
Definition filteredBillsByStatus (status : option string) (bills : list Bill)
  : list Bill :=
  match status with
  | None => bills
  | Some s =>
      if negb (truthy (VStr s)) then bills
      else List.filter (fun bill => String.eqb (billStatus bill) s) bills
  end.

(** [upcomingReminders]; a comparison with [NaN] is false. *)
Definition upcomingReminders (now reminderLeadDays : Z) (bills : list Bill)
  : list Bill :=
  let leadTimeMs := reminderLeadDays * 24 * 60 * 60 * 1000 in
  List.filter
    (fun bill =>
       if negb (String.eqb (billStatus bill) "pending") then false
       else
         match getTime (dueDate bill) with
         | None => false
         | Some dueDate =>
             let timeUntilDue := dueDate - now in
             (0 <? timeUntilDue) && (timeUntilDue <=? leadTimeMs)
         end)
    bills.

(** [overdueBills] *)
Definition overdueBills (now : Z) (bills : list Bill) : list Bill :=
  List.filter
    (fun bill =>
       if negb (String.eqb (billStatus bill) "pending") then false
       else
         match getTime (dueDate bill) with
         | None => false
         | Some dueDate => dueDate <? now
         end)
    bills.

End Derived.

End Bills.

(* ===================================================================== *)
(** ** Vendor store (stores/vendors.ts) *)
(* ===================================================================== *)

Module Vendors.

(** [interface Vendor] of stores/types.ts *)
Record Vendor := {
  id : string;
  name : string;
  defaultAccount : option string;
  active : bool;
  createdAt : Z
}.

(** [Partial<Omit<Vendor, 'id'>>]: [None] is a property left out. *)
Record VendorUpdates := {
  up_name : option string;
  up_defaultAccount : option (option string);
  up_active : option bool;
  up_createdAt : option Z
}.

Definition activeVendors (vendors : list Vendor) : list Vendor :=
  List.filter (fun v => active v) vendors.

Definition addVendor (randomUUID : string) (now : Z) (name : string)
    (defaultAccount : option string) (vendors : list Vendor) : list Vendor :=
  vendors ++ [ {| id := randomUUID; name := name; defaultAccount := defaultAccount;
                  active := true; createdAt := now |} ].

Definition updateVendor (vendorId : string) (updates : VendorUpdates)
    (vendors : list Vendor) : list Vendor :=
  map (fun v =>
         if String.eqb (id v) vendorId then
           {| id := id v;
              name := default (name v) (up_name updates);
              defaultAccount := default (defaultAccount v) (up_defaultAccount updates);
              active := default (active v) (up_active updates);
              createdAt := default (createdAt v) (up_createdAt updates) |}
         else v)
      vendors.

Definition deleteVendor (vendorId : string) (vendors : list Vendor) : list Vendor :=
  map (fun v =>
         if String.eqb (id v) vendorId then
           {| id := id v; name := name v; defaultAccount := defaultAccount v;
              active := false; createdAt := createdAt v |}
         else v)
      vendors.

End Vendors.

Module Scenario_stores.

Definition electricity : Bills.BillInput :=
  {| Bills.in_vendorId := "vendor";
     Bills.in_vendorName := "Test Vendor";
     Bills.in_amount := 1500;
     Bills.in_dueDate := "2025-12-01";
     Bills.in_status := "pending";
     Bills.in_account := "GL-1000";
     Bills.in_description := "" |}.

(** Twelve bills with distinct ids, oldest first. *)
Definition numbered (t : Z) (billId : string) : StorageMonitor.Bill :=
  {| StorageMonitor.id := billId;
     StorageMonitor.vendorId := "vendor";
     StorageMonitor.vendorName := "Test Vendor";
     StorageMonitor.amount := 1500;
     StorageMonitor.dueDate := "2025-12-01";
     StorageMonitor.billStatus := "pending";
     StorageMonitor.account := "GL-1000";
     StorageMonitor.description := "";
     StorageMonitor.createdAt := t;
     StorageMonitor.updatedAt := t |}.

Definition ledger : list StorageMonitor.Bill :=
  [numbered 1 "a"; numbered 2 "b"; numbered 3 "c"; numbered 4 "d"; numbered 5 "e";
   numbered 6 "f"; numbered 7 "g"; numbered 8 "h"; numbered 9 "i"; numbered 10 "j";
   numbered 11 "k"; numbered 12 "l"].

(** A clock for the scenario: every due date is at time 100. *)
Definition dueAt100 : string -> option Z := fun _ => Some 100.

Definition acme : Vendors.Vendor :=
  {| Vendors.id := "v1"; Vendors.name := "Acme Corp";
     Vendors.defaultAccount := Some "GL-1000"; Vendors.active := true;
     Vendors.createdAt := 1 |}.

Definition globex : Vendors.Vendor :=
  {| Vendors.id := "v2"; Vendors.name := "Globex";
     Vendors.defaultAccount := None; Vendors.active := true;
     Vendors.createdAt := 2 |}.

End Scenario_stores.

(* ===================================================================== *)
(** ** UI state store (stores/ui.ts) *)
(* ===================================================================== *)

Module UI.

(** The values of the [connectionStatus] store. *)
Inductive ConnectionStatus := connected | disconnected | error.

(** The stores [setBackendURL] touches and the requests it sends:
      - [backendURL] is the persistent cell under the key 'backend-url' of
        the local area;
      - [connectionStatus] is the value of the plain writable of that name;
      - [requests] lists the URLs fetched, in order. *)
Record State := {
  backendURL : PersistentStore.Cell;
  connectionStatus : ConnectionStatus;
  requests : list string
}.

Section Connection.

(** What [await fetch(url, { method: 'GET', ... })] gives. *)
Variable fetch : string -> Network.JsError + Network.Response.

(** [testConnection(url)]: the value returned and the state afterwards. *)
Definition testConnection (url : string) (s : State) : bool * State :=
  let health := String.append url "/health" in
  match fetch health with
  | inr response =>
      let isConnected := Network.ok response in
      (isConnected,
       {| backendURL := backendURL s;
          connectionStatus := if isConnected then connected else error;
          requests := requests s ++ [health] |})
  | inl _ =>
      (false,
       {| backendURL := backendURL s;
          connectionStatus := error;
          requests := requests s ++ [health] |})
  end.

(** [setBackendURL(url)] *)
Definition setBackendURL (url : string) (s : State) : bool * State :=
  let s := {| backendURL :=
                PersistentStore.set "backend-url" PersistentStore.local (VStr url)
                                    (backendURL s);
              connectionStatus := connectionStatus s;
              requests := requests s |} in
  if negb (truthy (VStr url)) then
    (false,
     {| backendURL := backendURL s;
        connectionStatus := disconnected;
        requests := requests s |})
  else testConnection url s.

End Connection.

End UI.

(* ===================================================================== *)
(** ** Properties of the envelope codec *)
(* ===================================================================== *)

Module CloudEvent_properties.

Import CloudEvent Uuid Uuid_template Spec.

Lemma toInt32_nibble (q : Q) :
  (0 <= q)%Q -> (q < 1)%Q -> 0 <= toInt32 (q * 16) <= 15.
Proof.
  intros H0 H1. unfold toInt32.
  destruct q as [num den]. unfold Qle, Qlt in *. cbn in *.
  assert (Hn : 0 <= num) by lia.
  assert (Hd : num < Z.pos den) by lia.
  replace (Z.pos (den * 1)) with (Z.pos den) by lia.
  set (t := Z.quot (num * 16) (Z.pos den)).
  assert (Ht : 0 <= t <= 15).
  { subst t. rewrite Z.quot_div_nonneg by lia. split.
    - apply Z.div_pos; lia.
    - apply Z.lt_succ_r. apply Z.div_lt_upper_bound; lia. }
  rewrite Z.mod_small by lia. lia.
Qed.

Lemma nibble_cases (r : Z) :
  0 <= r <= 15 ->
  In r [0; 1; 2; 3; 4; 5; 6; 7; 8; 9; 10; 11; 12; 13; 14; 15].
Proof.
  intros H. cbn.
  assert (r = 0 \/ r = 1 \/ r = 2 \/ r = 3 \/ r = 4 \/ r = 5 \/ r = 6 \/ r = 7 \/
          r = 8 \/ r = 9 \/ r = 10 \/ r = 11 \/ r = 12 \/ r = 13 \/ r = 14 \/ r = 15)
    as Hc by lia.
  intuition auto.
Qed.

Lemma toString16_hex (r : Z) :
  0 <= r <= 15 ->
  exists c, toString16 r = String c EmptyString /\ isHexDigit c = true.
Proof.
  intros H. apply nibble_cases in H. cbn in H.
  repeat (destruct H as [<- | H]; [eexists; split; reflexivity |]).
  contradiction.
Qed.

Lemma toString16_variant (r : Z) :
  0 <= r <= 15 ->
  exists c, toString16 (Z.lor (Z.land r 3) 8) = String c EmptyString
            /\ isVariantDigit c = true.
Proof.
  intros H. apply nibble_cases in H. cbn in H.
  repeat (destruct H as [<- | H]; [eexists; split; reflexivity |]).
  contradiction.
Qed.

Lemma replaceChar_class (c : ascii) (q : Q) :
  (0 <= q)%Q -> (q < 1)%Q ->
  Ascii.eqb c "x" || Ascii.eqb c "y" = true ->
  exists d, replaceChar c q = String d EmptyString
            /\ classMatches (classOfTemplateChar c) d = true.
Proof.
  intros H0 H1 Hxy. pose proof (toInt32_nibble q H0 H1) as Hr.
  unfold replaceChar, classOfTemplateChar.
  destruct (Ascii.eqb c "x") eqn:Hx.
  - apply toString16_hex, Hr.
  - cbn in Hxy. rewrite Hxy. apply toString16_variant, Hr.
Qed.

(** Whatever [Math.random] returns, the replaced template matches the
    classes of its characters. *)
Lemma replaceXY_matches (random : nat -> Q) (template : string) :
  unitInterval random ->
  forall n, matchesPattern (classesOfTemplate template)
                           (replaceXY random n template) = true.
Proof.
  intros Hr. induction template as [| c rest IH]; intros n; [reflexivity |].
  cbn [replaceXY classesOfTemplate].
  destruct (Ascii.eqb c "x" || Ascii.eqb c "y") eqn:Hxy.
  - destruct (replaceChar_class c (random n) (proj1 (Hr n)) (proj2 (Hr n)) Hxy)
      as (d & -> & Hd).
    change (String d EmptyString +:+ replaceXY random (S n) rest)
      with (String d (replaceXY random (S n) rest)).
    cbn [matchesPattern]. rewrite Hd. apply IH.
  - cbn [matchesPattern]. rewrite IH.
    apply orb_false_elim in Hxy as [Hx Hy].
    unfold classOfTemplateChar. rewrite Hx, Hy. cbn.
    rewrite Ascii.eqb_refl. reflexivity.
Qed.

(** The identifier is well-formed when [crypto.randomUUID], where it
    exists, returns one that is. *)
Lemma generateEventId_isUuidV4 (g : Globals) :
  (forall u, randomUUID g = Some u -> isUuidV4 u = true) ->
  unitInterval (Math_random g) ->
  isUuidV4 (generateEventId g) = true.
Proof.
  intros Hc Hr. unfold generateEventId.
  destruct (randomUUID g) as [u |] eqn:Hu.
  - apply Hc. reflexivity.
  - apply (replaceXY_matches (Math_random g) uuidTemplate Hr 0%nat).
Qed.

(** Decoding what [encodeCloudEvent] built never fails: the five required
    fields are strings. *)
Lemma decode_encode (g : Globals) (type source : string) (data : value) :
  decodeCloudEvent (asUnknown (encodeCloudEvent g type source data)) =
  inr {| meta := {| specversion := VStr "1.0";
                    id := VStr (generateEventId g);
                    CloudEvent.source := VStr source;
                    CloudEvent.type := VStr type;
                    time := VStr (toISOString g);
                    datacontenttype := Some (VStr "application/json");
                    dataschema := None |};
         responseAttributes := extractResponseAttributes data;
         transactionDetails := extractTransactionDetails data |}.
Proof. reflexivity. Qed.

(** C1, as amended. For every event type, source string and payload,
    decoding the envelope produced by [encodeCloudEvent] succeeds; the
    metadata type and source of the result equal the inputs, its identifier
    matches the 36-character UUID pattern, and its response attributes and
    transaction details are the ones extracted from the payload.  The
    payload itself is not part of the decoded response. *)
Theorem decode_encode_roundtrip (g : Globals) (type source : string) (data : value) :
  (forall u, randomUUID g = Some u -> isUuidV4 u = true) ->
  unitInterval (Math_random g) ->
  exists decoded,
    decodeCloudEvent (asUnknown (encodeCloudEvent g type source data)) = inr decoded
    /\ CloudEvent.type (meta decoded) = VStr type
    /\ CloudEvent.source (meta decoded) = VStr source
    /\ (exists i, id (meta decoded) = VStr i /\ isUuidV4 i = true)
    /\ responseAttributes decoded = extractResponseAttributes data
    /\ transactionDetails decoded = extractTransactionDetails data.
Proof.
  intros Hc Hr. eexists. split; [apply decode_encode |].
  cbn. repeat split.
  exists (generateEventId g). split; [reflexivity |].
  apply generateEventId_isUuidV4; assumption.
Qed.

Lemma noCrypto_unitInterval : unitInterval (Math_random Scenario.noCrypto).
Proof. intros n. cbn. split; [unfold Qle | unfold Qlt]; cbn; lia. Qed.

Lemma decode_encode_roundtrip_witness :
  exists decoded,
    decodeCloudEvent
      (asUnknown (encodeCloudEvent Scenario.noCrypto "com.quickbooks.bill.add"
                                   "qb-chrome-extension" Scenario.billAddRq))
    = inr decoded
    /\ CloudEvent.type (meta decoded) = VStr "com.quickbooks.bill.add"
    /\ CloudEvent.source (meta decoded) = VStr "qb-chrome-extension"
    /\ (exists i, id (meta decoded) = VStr i /\ isUuidV4 i = true)
    /\ responseAttributes decoded = extractResponseAttributes Scenario.billAddRq
    /\ transactionDetails decoded = extractTransactionDetails Scenario.billAddRq.
Proof.
  apply (decode_encode_roundtrip Scenario.noCrypto).
  - intros u Hu. cbn in Hu. discriminate Hu.
  - apply noCrypto_unitInterval.
Defined.

(** C1, as stated, fails: the decoded response does not determine the
    payload.  No function recovers the payload from what [decodeCloudEvent]
    returns for an encoded event. *)
Lemma decode_encode_loses_payload :
  ~ exists recover : DecodedCloudEvent -> value,
      forall data,
        exists decoded,
          decodeCloudEvent
            (asUnknown (encodeCloudEvent Scenario.noCrypto "com.quickbooks.bill.add"
                                         "qb-chrome-extension" data))
          = inr decoded
          /\ recover decoded = data.
Proof.
  intros [recover H].
  destruct (H Scenario.billAddRq) as (d1 & E1 & R1).
  destruct (H VNull) as (d2 & E2 & R2).
  rewrite decode_encode in E1, E2.
  assert (d1 = d2) as Heq.
  { apply (f_equal (fun x => match x with inr d => Some d | inl _ => None end)) in E1, E2.
    cbn in E1, E2. congruence. }
  subst d2. rewrite R1 in R2. discriminate R2.
Qed.

End CloudEvent_properties.

Module JS_properties.

(** [!==] only fails on equal primitives. *)
Lemma strictNotEqual_false (a b : value) : strictNotEqual a b = false -> a = b.
Proof.
  destruct a, b; cbn; try discriminate; try reflexivity; intros H;
    apply negb_false_iff in H.
  - apply Bool.eqb_prop in H. congruence.
  - apply Qc_eq_bool_correct in H. congruence.
  - apply String.eqb_eq in H. congruence.
Qed.

Lemma strictNotEqual_of_neq (a b : value) : a <> b -> strictNotEqual a b = true.
Proof.
  intros H. destruct (strictNotEqual a b) eqn:E; [reflexivity |].
  destruct (H (strictNotEqual_false a b E)).
Qed.

End JS_properties.

(** Where [find] has nothing to return, no element passes the test. *)
Lemma find_Some_of_In {A : Type} (f : A -> bool) (l : list A) (x : A) :
  In x l -> f x = true -> exists y, List.find f l = Some y.
Proof.
  intros Hin Hfx. destruct (List.find f l) as [y |] eqn:E; [eauto |].
  pose proof (List.find_none f l E x Hin) as Hn. congruence.
Qed.

Module Decode_properties.

Import CloudEvent Spec.

Lemma isUndefined_true (v : value) : isUndefined v = true <-> v = VUndefined.
Proof. destruct v; cbn; split; congruence. Qed.

Lemma extractResponseAttributes_lacks (data : value) :
  lacksProtocolStructures data -> extractResponseAttributes data = None.
Proof.
  unfold lacksProtocolStructures, extractResponseAttributes, findSpecificResponse.
  intros H.
  destruct (notAnObject data); [reflexivity |].
  destruct (notAnObject (get data "QBXML")); [reflexivity |].
  rewrite H. reflexivity.
Qed.

Lemma extractTransactionDetails_lacks (data : value) :
  lacksProtocolStructures data -> extractTransactionDetails data = None.
Proof.
  unfold lacksProtocolStructures, extractTransactionDetails.
  intros H.
  destruct (notAnObject data); [reflexivity |].
  destruct (notAnObject (get data "QBXML")); [reflexivity |].
  rewrite H. reflexivity.
Qed.

(** A value that is not an object is refused. *)
Lemma decodeCloudEvent_notAnObject (rawPayload : value) :
  notAnObject rawPayload = true ->
  decodeCloudEvent rawPayload
  = inl (MkError "Invalid CloudEvent: payload must be an object").
Proof. intros H. unfold decodeCloudEvent. rewrite H. reflexivity. Qed.

(** An object without one of the required fields is refused. *)
Lemma decodeCloudEvent_missing (rawPayload : value) (field : string) :
  In field requiredFields ->
  get rawPayload field = VUndefined ->
  exists error, decodeCloudEvent rawPayload = inl error.
Proof.
  intros Hin Hget. unfold decodeCloudEvent.
  destruct (notAnObject rawPayload); [eauto |].
  destruct (find_Some_of_In (fun f => isUndefined (get rawPayload f))
                            requiredFields field Hin) as [f' ->].
  - apply isUndefined_true, Hget.
  - eauto.
Qed.

(** An object with the five required fields is accepted. *)
Lemma decodeCloudEvent_present (rawPayload : value) :
  notAnObject rawPayload = false ->
  (forall field, In field requiredFields -> get rawPayload field <> VUndefined) ->
  exists m,
    decodeCloudEvent rawPayload
    = inr {| meta := m;
             responseAttributes := extractResponseAttributes (get rawPayload "data");
             transactionDetails := extractTransactionDetails (get rawPayload "data") |}.
Proof.
  intros Hobj Hall. unfold decodeCloudEvent. rewrite Hobj.
  destruct (List.find _ requiredFields) as [f |] eqn:E.
  - apply List.find_some in E as [Hin Hu].
    apply isUndefined_true in Hu. destruct (Hall f Hin Hu).
  - eauto.
Qed.

(** An array index never spells a metadata field. *)
Lemma indexKey_not_specversion (i : nat) :
  String.eqb (indexKey i) "specversion" = false.
Proof. unfold indexKey. destruct (Nat.to_uint i); reflexivity. Qed.

Lemma find_combine_none {A : Type} (f : string -> bool) (ks : list string) (vs : list A) :
  (forall k, In k ks -> f k = false) ->
  List.find (fun p => f (fst p)) (combine ks vs) = None.
Proof.
  revert vs. induction ks as [| k ks IH]; intros vs Hall; [reflexivity |].
  destruct vs as [| v vs]; [reflexivity |]. cbn [combine List.find fst].
  rewrite (Hall k) by (left; reflexivity).
  apply IH. intros k' Hin. apply Hall. right. exact Hin.
Qed.

(** An array is refused: it has no [specversion]. *)
Lemma decodeCloudEvent_array (items : list value) :
  exists error, decodeCloudEvent (VArr items) = inl error.
Proof.
  apply (decodeCloudEvent_missing (VArr items) "specversion"); [left; reflexivity |].
  unfold get. cbn [entries].
  rewrite (find_combine_none (fun k => String.eqb k "specversion")); [reflexivity |].
  intros k Hin. apply List.in_map_iff in Hin as (i & <- & _).
  apply indexKey_not_specversion.
Qed.

(** Whatever is not a keyed structure is refused. *)
Lemma decodeCloudEvent_not_keyed (rawPayload : value) :
  ~ keyedStructure rawPayload ->
  exists error, decodeCloudEvent rawPayload = inl error.
Proof.
  intros Hnot.
  assert (forall v, negb (String.eqb (typeof v) "object") = true ->
                    exists error, decodeCloudEvent v = inl error) as Hprim.
  { intros v Hv. rewrite decodeCloudEvent_notAnObject; [eauto |].
    unfold notAnObject. rewrite Hv. apply orb_true_r. }
  destruct rawPayload as [| | b | q | str | items | props].
  - apply Hprim. reflexivity.
  - rewrite decodeCloudEvent_notAnObject; [eauto | reflexivity].
  - apply Hprim. reflexivity.
  - apply Hprim. reflexivity.
  - apply Hprim. reflexivity.
  - apply decodeCloudEvent_array.
  - destruct Hnot. exact I.
Qed.

(** C2. [decodeCloudEvent] throws whenever the raw value is not a keyed
    structure or one of the five required metadata fields is absent; and
    for every keyed structure carrying all five fields whose payload lacks
    the nested protocol structures, it succeeds with
    [responseAttributes = null] and [transactionDetails = null]. *)
Theorem decodeCloudEvent_required_fields (rawPayload : value) :
  (~ keyedStructure rawPayload
   \/ (exists field, In field requiredFields /\ get rawPayload field = VUndefined)
   -> exists error, decodeCloudEvent rawPayload = inl error)
  /\
  (keyedStructure rawPayload ->
   (forall field, In field requiredFields -> get rawPayload field <> VUndefined) ->
   lacksProtocolStructures (get rawPayload "data") ->
   exists m,
     decodeCloudEvent rawPayload
     = inr {| meta := m; responseAttributes := None; transactionDetails := None |}).
Proof.
  split.
  - intros [Hnot | (field & Hin & Hget)].
    + apply decodeCloudEvent_not_keyed, Hnot.
    + eapply decodeCloudEvent_missing; eassumption.
  - intros Hkeyed Hall Hlacks.
    assert (notAnObject rawPayload = false) as Hobj
      by (destruct rawPayload; try destruct Hkeyed; reflexivity).
    destruct (decodeCloudEvent_present rawPayload Hobj Hall) as [m ->].
    rewrite (extractResponseAttributes_lacks _ Hlacks).
    rewrite (extractTransactionDetails_lacks _ Hlacks).
    eauto.
Qed.

Lemma decodeCloudEvent_required_fields_witness :
  (exists error, decodeCloudEvent (VStr "not an envelope") = inl error)
  /\
  (exists error,
     decodeCloudEvent (VObj [("specversion", VStr "1.0"); ("id", VStr "1")]) = inl error)
  /\
  (exists m,
     decodeCloudEvent (Scenario.envelope Scenario.billAddRq)
     = inr {| meta := m; responseAttributes := None; transactionDetails := None |}).
Proof.
  split; [| split].
  - apply (proj1 (decodeCloudEvent_required_fields (VStr "not an envelope"))).
    left. cbn. tauto.
  - apply (proj1 (decodeCloudEvent_required_fields
                    (VObj [("specversion", VStr "1.0"); ("id", VStr "1")]))).
    right. exists "source". split; [cbn; tauto | reflexivity].
  - apply (proj2 (decodeCloudEvent_required_fields
                    (Scenario.envelope Scenario.billAddRq))).
    + exact I.
    + intros field Hin. cbn in Hin.
      repeat (destruct Hin as [<- | Hin]; [cbn; discriminate |]).
      contradiction.
    + reflexivity.
Defined.

End Decode_properties.

(* ===================================================================== *)
(** ** Properties of the resilient request client *)
(* ===================================================================== *)

Module Network_properties.

Import CloudEvent Network Spec JS_properties.

Lemma retried_app (k : Z) (n : nat) :
  retried k (S n) = retried k n ++ [Fetch (k + Z.of_nat n); Sleep (2 ^ (k + Z.of_nat n - 1) * 1000)].
Proof.
  revert k. induction n as [| n IH]; intros k.
  - cbn [retried app]. replace (k + Z.of_nat 0) with k by lia. reflexivity.
  - change (retried k (S (S n)))
      with (Fetch k :: Sleep (2 ^ (k - 1) * 1000) :: retried (k + 1) (S n)).
    rewrite IH. cbn [retried app].
    replace (k + 1 + Z.of_nat n) with (k + Z.of_nat (S n)) by lia. reflexivity.
Qed.

Lemma fetchCount_app (l1 l2 : list Effect) :
  fetchCount (l1 ++ l2) = (fetchCount l1 + fetchCount l2)%nat.
Proof. unfold fetchCount. rewrite List.filter_app, List.length_app. reflexivity. Qed.

Lemma sleeps_app (l1 l2 : list Effect) : sleeps (l1 ++ l2) = sleeps l1 ++ sleeps l2.
Proof. unfold sleeps. apply List.flat_map_app. Qed.

Lemma fetchCount_retried (k : Z) (n : nat) : fetchCount (retried k n) = n.
Proof.
  revert k. induction n as [| n IH]; intros k; [reflexivity |].
  cbn [retried]. change (fetchCount (Fetch k :: Sleep (2 ^ (k - 1) * 1000) :: retried (k + 1) n))
    with (S (fetchCount (retried (k + 1) n))).
  rewrite IH. reflexivity.
Qed.

Lemma sleeps_retried (k : Z) (n : nat) :
  sleeps (retried k n)
  = map (fun i => calculateBackoff (k + Z.of_nat i)) (seq 0 n).
Proof.
  revert k. induction n as [| n IH]; intros k; [reflexivity |].
  cbn [retried seq map]. change (sleeps (Fetch k :: Sleep (2 ^ (k - 1) * 1000) :: retried (k + 1) n))
    with (2 ^ (k - 1) * 1000 :: sleeps (retried (k + 1) n)).
  rewrite IH. unfold calculateBackoff. f_equal.
  - replace (k + Z.of_nat 0) with k by lia. reflexivity.
  - rewrite <- List.seq_shift, List.map_map. apply List.map_ext.
    intros i. replace (k + 1 + Z.of_nat i) with (k + Z.of_nat (S i)) by lia. reflexivity.
Qed.

Lemma fetchCount_exhausted (n : nat) : fetchCount (exhausted n) = n.
Proof.
  destruct n as [| n]; [reflexivity |]. unfold exhausted.
  rewrite fetchCount_app, fetchCount_retried. cbn. lia.
Qed.

(** A run that gives up after [n] attempts has slept 1000, 2000, 4000, ...
    milliseconds: [2^(k-1) * 1000] after attempt [k], for [k < n]. *)
Lemma sleeps_exhausted (n : nat) :
  sleeps (exhausted n)
  = map (fun k => 2 ^ (Z.of_nat k - 1) * 1000) (seq 1 (n - 1)).
Proof.
  destruct n as [| n]; [reflexivity |]. unfold exhausted.
  rewrite sleeps_app, sleeps_retried. cbn [sleeps flat_map]. rewrite List.app_nil_r.
  replace (S n - 1)%nat with n by lia.
  rewrite <- List.seq_shift, List.map_map. apply List.map_ext.
  intros i. unfold calculateBackoff. f_equal. f_equal. lia.
Qed.

Section Loop.

Variable JSON_parse : string -> JsError + value.
Variable fetch : string -> CloudEvent -> Z -> JsError + Response.
Variable url : string.
Variable cloudEvent : CloudEvent.
Variable timeout : Z.

#[local] Abbreviation loop := (retryLoop JSON_parse fetch).
#[local] Abbreviation attemptOf k :=
  (attemptRequest JSON_parse timeout (fetch url cloudEvent k)).

(** One iteration of the loop, by cases on how the attempt ends. *)
Lemma retryLoop_step (fuel : nat) (a max : Z) (last : option JsError)
    (effects : list Effect) :
  a < max ->
  loop (S fuel) url cloudEvent timeout
       {| attempt := a; maxRetries := max; lastError := last |} effects
  = match attemptOf (a + 1) with
    | inr decoded => Some (inr decoded, effects ++ [Fetch (a + 1)])
    | inl error =>
        if negb (isRetryableError error) then Some (inl error, effects ++ [Fetch (a + 1)])
        else if max <=? a + 1 then Some (inl error, effects ++ [Fetch (a + 1)])
        else loop fuel url cloudEvent timeout
                  {| attempt := a + 1; maxRetries := max; lastError := Some error |}
                  ((effects ++ [Fetch (a + 1)]) ++ [Sleep (calculateBackoff (a + 1))])
    end.
Proof.
  intros Hlt. cbn [retryLoop attempt maxRetries].
  apply Z.ltb_lt in Hlt. rewrite Hlt. reflexivity.
Qed.

(** A rejected [fetch] is classified as Timeout or Network, both of which
    are retried. *)
Lemma attemptRequest_rejected (name message : string) :
  exists error,
    attemptRequest JSON_parse timeout (inl (NativeError name message)) = inl error
    /\ error = catchBlock timeout (NativeError name message)
    /\ isRetryableError error = true
    /\ networkOrTimeout error.
Proof.
  eexists. split; [reflexivity |]. split; [reflexivity |].
  unfold catchBlock. cbn [isAbortError].
  destruct (String.eqb name "AbortError"); cbn; auto.
Qed.

Lemma neverRetried_not_retryable (error : JsError) :
  neverRetried error -> isRetryableError error = false.
Proof. destruct error; cbn; intros H; try reflexivity; destruct H. Qed.

(** [m] attempts in a row that are rejected by the transport while
    attempts remain: the loop fetches and sleeps [m] times and goes on. *)
Lemma retryLoop_retries (m : nat) :
  forall (fuel : nat) (a max : Z) (last : option JsError) (effects : list Effect),
    (forall j, a < j <= a + Z.of_nat m ->
               exists name message, fetch url cloudEvent j = inl (NativeError name message)) ->
    a + Z.of_nat m < max ->
    exists last',
      loop (m + fuel) url cloudEvent timeout
           {| attempt := a; maxRetries := max; lastError := last |} effects
      = loop fuel url cloudEvent timeout
             {| attempt := a + Z.of_nat m; maxRetries := max; lastError := last' |}
             (effects ++ retried (a + 1) m).
Proof.
  induction m as [| m IH]; intros fuel a max last effects Hrej Hlt.
  - exists last. cbn [Nat.add retried]. rewrite List.app_nil_r.
    replace (a + Z.of_nat 0) with a by lia. reflexivity.
  - cbn [Nat.add]. rewrite retryLoop_step by lia.
    destruct (Hrej (a + 1)) as (name & message & ->); [lia |].
    destruct (attemptRequest_rejected name message) as (error & -> & _ & -> & _).
    cbn [negb]. replace (max <=? a + 1) with false by (symmetry; apply Z.leb_gt; lia).
    destruct (IH fuel (a + 1) max (Some error)
                 ((effects ++ [Fetch (a + 1)]) ++ [Sleep (calculateBackoff (a + 1))]))
      as [last' ->].
    + intros j Hj. apply Hrej. lia.
    + lia.
    + exists last'. f_equal.
      * f_equal. lia.
      * rewrite <- !List.app_assoc. reflexivity.
Qed.

(** [m] attempts in a row that end in a retryable error while attempts
    remain, whatever the transport did: the loop fetches and sleeps [m]
    times and goes on. *)
Lemma retryLoop_retryable (m : nat) :
  forall (fuel : nat) (a max : Z) (last : option JsError) (effects : list Effect),
    (forall j, a < j <= a + Z.of_nat m ->
               exists retryable,
                 attemptOf j = inl retryable /\ isRetryableError retryable = true) ->
    a + Z.of_nat m < max ->
    exists last',
      loop (m + fuel) url cloudEvent timeout
           {| attempt := a; maxRetries := max; lastError := last |} effects
      = loop fuel url cloudEvent timeout
             {| attempt := a + Z.of_nat m; maxRetries := max; lastError := last' |}
             (effects ++ retried (a + 1) m).
Proof.
  induction m as [| m IH]; intros fuel a max last effects Hretry Hlt.
  - exists last. cbn [Nat.add retried]. rewrite List.app_nil_r.
    replace (a + Z.of_nat 0) with a by lia. reflexivity.
  - cbn [Nat.add]. rewrite retryLoop_step by lia.
    destruct (Hretry (a + 1)) as (error & -> & ->); [lia |].
    cbn [negb]. replace (max <=? a + 1) with false by (symmetry; apply Z.leb_gt; lia).
    destruct (IH fuel (a + 1) max (Some error)
                 ((effects ++ [Fetch (a + 1)]) ++ [Sleep (calculateBackoff (a + 1))]))
      as [last' ->].
    + intros j Hj. apply Hretry. lia.
    + lia.
    + exists last'. f_equal.
      * f_equal. lia.
      * rewrite <- !List.app_assoc. reflexivity.
Qed.

(** The loop entered with [a < max] and [max - a] units of fuel never
    runs out of fuel. *)
Lemma retryLoop_terminates (fuel : nat) :
  forall (st : RetryState) (effects : list Effect),
    maxRetries st - attempt st <= Z.of_nat fuel ->
    exists result, loop fuel url cloudEvent timeout st effects = Some result.
Proof.
  induction fuel as [| fuel IH]; intros [a max last] effects Hfuel; cbn in Hfuel.
  - cbn. replace (a <? max) with false by (symmetry; apply Z.ltb_ge; lia). eauto.
  - destruct (Z.lt_ge_cases a max) as [Hlt | Hge].
    + rewrite retryLoop_step by assumption.
      destruct (attemptOf (a + 1)) as [error | decoded]; [| eauto].
      destruct (negb (isRetryableError error)); [eauto |].
      destruct (max <=? a + 1); [eauto |].
      apply IH. cbn. lia.
    + cbn. replace (a <? max) with false by (symmetry; apply Z.ltb_ge; lia). eauto.
Qed.

End Loop.

Section Client.

Variable JSON_parse : string -> JsError + value.
Variable fetch : string -> CloudEvent -> Z -> JsError + Response.
Variable url : string.
Variable cloudEvent : CloudEvent.

(** [postCloudEvent] always settles. *)
Lemma postCloudEvent_terminates (options : RequestOptions) :
  exists result, postCloudEvent JSON_parse fetch url cloudEvent options = Some result.
Proof.
  unfold postCloudEvent. apply retryLoop_terminates. cbn. lia.
Qed.

(** The run in which the transport rejects attempts [1 .. k-1] and attempt
    [k] ends in an error that is not retried: that error is thrown after
    [k] fetches. *)
Lemma postCloudEvent_stops_at (options : RequestOptions) (k : Z) (error : JsError) :
  1 <= k <= default 3 (retries options) ->
  (forall j, 1 <= j < k ->
             exists name message, fetch url cloudEvent j = inl (NativeError name message)) ->
  attemptRequest JSON_parse (default 5000 (Network.timeout options))
                 (fetch url cloudEvent k) = inl error ->
  isRetryableError error = false ->
  postCloudEvent JSON_parse fetch url cloudEvent options
  = Some (inl error, retried 1 (Z.to_nat (k - 1)) ++ [Fetch k]).
Proof.
  intros Hk Hrej Hattempt Hnot. unfold postCloudEvent.
  set (n := default 3 (retries options)) in *.
  set (t := default 5000 (Network.timeout options)) in *.
  replace (Z.to_nat n) with (Z.to_nat (k - 1) + S (Z.to_nat (n - k)))%nat by lia.
  destruct (retryLoop_retries JSON_parse fetch url cloudEvent t (Z.to_nat (k - 1))
              (S (Z.to_nat (n - k))) 0 n None []) as [last' ->].
  - intros j Hj. apply Hrej. lia.
  - lia.
  - rewrite retryLoop_step by lia.
    replace (0 + Z.of_nat (Z.to_nat (k - 1)) + 1) with k by lia.
    rewrite Hattempt, Hnot. reflexivity.
Qed.

(** C3. For every configured maximum [n >= 1], a call whose transport
    rejects every attempt performs exactly [n] transport attempts, sleeps
    [2^(k-1) * 1000] ms between attempt [k] and attempt [k+1] (1000, 2000,
    4000, ...), and ends by throwing the Network (or Timeout) error of the
    last attempt. *)
Theorem postCloudEvent_exhausts_attempts (options : RequestOptions) :
  let n := default 3 (retries options) in
  1 <= n ->
  (forall k, 1 <= k <= n ->
             exists name message, fetch url cloudEvent k = inl (NativeError name message)) ->
  exists name message error,
    fetch url cloudEvent n = inl (NativeError name message)
    /\ error = catchBlock (default 5000 (Network.timeout options)) (NativeError name message)
    /\ networkOrTimeout error
    /\ postCloudEvent JSON_parse fetch url cloudEvent options
       = Some (inl error, exhausted (Z.to_nat n))
    /\ fetchCount (exhausted (Z.to_nat n)) = Z.to_nat n
    /\ sleeps (exhausted (Z.to_nat n))
       = map (fun k => 2 ^ (Z.of_nat k - 1) * 1000) (seq 1 (Z.to_nat n - 1)).
Proof.
  intros n Hn Hrej.
  destruct (Hrej n) as (name & message & Hlast); [lia |].
  set (t := default 5000 (Network.timeout options)).
  destruct (attemptRequest_rejected JSON_parse t name message)
    as (error & Hattempt & Herr & Hretry & Hclass).
  exists name, message, error.
  split; [exact Hlast |]. split; [exact Herr |]. split; [exact Hclass |].
  split; [| split; [apply fetchCount_exhausted | apply sleeps_exhausted]].
  unfold postCloudEvent. fold n. fold t.
  replace (Z.to_nat n) with (Z.to_nat (n - 1) + 1)%nat by lia.
  destruct (retryLoop_retries JSON_parse fetch url cloudEvent t (Z.to_nat (n - 1))
              1%nat 0 n None []) as [last' ->].
  - intros j Hj. apply Hrej. lia.
  - lia.
  - rewrite retryLoop_step by lia.
    replace (0 + Z.of_nat (Z.to_nat (n - 1)) + 1) with n by lia.
    rewrite Hlast, Hattempt, Hretry. cbn [negb].
    replace (n <=? n) with true by (symmetry; apply Z.leb_le; lia).
    replace (Z.to_nat (n - 1) + 1)%nat with (S (Z.to_nat (n - 1))) by lia.
    unfold exhausted. change (0 + 1) with 1.
    replace (Z.of_nat (S (Z.to_nat (n - 1)))) with n by lia. reflexivity.
Qed.

(** A response outside 200-299 is classified as Transport-Status. *)
Lemma attemptRequest_http_error (timeout : Z) (response : Response) (body : string) :
  ok response = false ->
  text response = inr body ->
  attemptRequest JSON_parse timeout (inr response)
  = inl (HTTPError (status response) (statusText response) body).
Proof.
  intros Hok Htext. unfold attemptRequest, tryBlock. rewrite Hok, Htext. reflexivity.
Qed.

(** A decoded response with a status code other than "0" is classified
    as Protocol. *)
Lemma attemptRequest_qb_error (timeout : Z) (response : Response) (body : string)
    (rawPayload : value) (decoded : DecodedCloudEvent) (attrs : QbxmlResponseAttributes) :
  ok response = true ->
  text response = inr body ->
  JSON_parse body = inr rawPayload ->
  decodeCloudEvent rawPayload = inr decoded ->
  responseAttributes decoded = Some attrs ->
  statusCode attrs <> VStr "0" ->
  attemptRequest JSON_parse timeout (inr response)
  = inl (QBError (statusCode attrs) (statusSeverity attrs)).
Proof.
  intros Hok Htext Hparse Hdecode Hattrs Hcode.
  unfold attemptRequest, tryBlock.
  rewrite Hok, Htext, Hparse, Hdecode, Hattrs, (strictNotEqual_of_neq _ _ Hcode).
  reflexivity.
Qed.

(** The run in which attempts [1 .. k-1] end in retryable errors and
    attempt [k] ends in an error that is not retried: that error is thrown
    after [k] fetches. *)
Lemma postCloudEvent_throws_at (options : RequestOptions) (k : Z) (error : JsError) :
  1 <= k <= default 3 (retries options) ->
  (forall j, 1 <= j < k ->
             exists retryable,
               attemptRequest JSON_parse (default 5000 (Network.timeout options))
                              (fetch url cloudEvent j) = inl retryable
               /\ isRetryableError retryable = true) ->
  attemptRequest JSON_parse (default 5000 (Network.timeout options))
                 (fetch url cloudEvent k) = inl error ->
  isRetryableError error = false ->
  postCloudEvent JSON_parse fetch url cloudEvent options
  = Some (inl error, retried 1 (Z.to_nat (k - 1)) ++ [Fetch k]).
Proof.
  intros Hk Hretry Hattempt Hnot. unfold postCloudEvent.
  set (n := default 3 (retries options)) in *.
  set (t := default 5000 (Network.timeout options)) in *.
  replace (Z.to_nat n) with (Z.to_nat (k - 1) + S (Z.to_nat (n - k)))%nat by lia.
  destruct (retryLoop_retryable JSON_parse fetch url cloudEvent t (Z.to_nat (k - 1))
              (S (Z.to_nat (n - k))) 0 n None []) as [last' ->].
  - intros j Hj. apply Hretry. lia.
  - lia.
  - rewrite retryLoop_step by lia.
    replace (0 + Z.of_nat (Z.to_nat (k - 1)) + 1) with k by lia.
    rewrite Hattempt, Hnot. reflexivity.
Qed.

(** C4, as amended. Whenever an attempt ends in a Transport-Status
    classification (a non-2xx HTTP response whose body can be read), a
    Parse classification or a Protocol classification, no further attempt
    is made and that error is thrown at once, however many attempts remain;
    in particular a 404 response whose body can be read causes exactly one
    transport attempt and an [HTTPError] carrying status 404.  Attempt [k]
    takes place exactly when the attempts before it ended in retryable
    errors, which is the only condition on them. *)
Theorem postCloudEvent_never_retries_rejections (options : RequestOptions) :
  let n := default 3 (retries options) in
  let t := default 5000 (Network.timeout options) in
  (forall (k : Z) (error : JsError),
      1 <= k <= n ->
      (forall j, 1 <= j < k ->
                 exists retryable,
                   attemptRequest JSON_parse t (fetch url cloudEvent j) = inl retryable
                   /\ isRetryableError retryable = true) ->
      attemptRequest JSON_parse t (fetch url cloudEvent k) = inl error ->
      neverRetried error ->
      exists effects,
        postCloudEvent JSON_parse fetch url cloudEvent options = Some (inl error, effects)
        /\ fetchCount effects = Z.to_nat k
        /\ List.last effects (Sleep 0) = Fetch k)
  /\
  (forall (response : Response) (body : string),
      ok response = false ->
      text response = inr body ->
      attemptRequest JSON_parse t (inr response)
      = inl (HTTPError (status response) (statusText response) body)
      /\ neverRetried (HTTPError (status response) (statusText response) body))
  /\
  (forall (response : Response) (body : string),
      1 <= n ->
      fetch url cloudEvent 1 = inr response ->
      status response = 404 ->
      text response = inr body ->
      postCloudEvent JSON_parse fetch url cloudEvent options
      = Some (inl (HTTPError 404 (statusText response) body), [Fetch 1])).
Proof.
  intros n t. split; [| split].
  - intros k error Hk Hretry Hattempt Hnever.
    exists (retried 1 (Z.to_nat (k - 1)) ++ [Fetch k]). split; [| split].
    + apply postCloudEvent_throws_at; try assumption.
      apply neverRetried_not_retryable, Hnever.
    + rewrite fetchCount_app, fetchCount_retried. cbn. lia.
    + apply List.last_last.
  - intros response body Hok Htext. split; [| exact I].
    apply attemptRequest_http_error; assumption.
  - intros response body Hn Hfetch Hstatus Htext.
    rewrite (postCloudEvent_throws_at options 1
               (HTTPError 404 (statusText response) body)).
    + reflexivity.
    + fold n. lia.
    + intros j Hj. lia.
    + rewrite Hfetch, <- Hstatus. apply attemptRequest_http_error; [| exact Htext].
      unfold ok. rewrite Hstatus. reflexivity.
    + reflexivity.
Qed.

(** C5. If the first transport attempt returns a 2xx response whose body
    parses and decodes and whose response status is present with a status
    code other than "0", the call throws a [QBError] carrying that status
    code and severity after exactly one attempt, whatever the configured
    maximum. *)
Theorem postCloudEvent_qb_error_single_attempt (options : RequestOptions)
    (response : Response) (body : string) (rawPayload : value)
    (decoded : DecodedCloudEvent) (attrs : QbxmlResponseAttributes) :
  1 <= default 3 (retries options) ->
  fetch url cloudEvent 1 = inr response ->
  ok response = true ->
  text response = inr body ->
  JSON_parse body = inr rawPayload ->
  decodeCloudEvent rawPayload = inr decoded ->
  responseAttributes decoded = Some attrs ->
  statusCode attrs <> VStr "0" ->
  postCloudEvent JSON_parse fetch url cloudEvent options
  = Some (inl (QBError (statusCode attrs) (statusSeverity attrs)), [Fetch 1]).
Proof.
  intros Hn Hfetch Hok Htext Hparse Hdecode Hattrs Hcode.
  rewrite (postCloudEvent_stops_at options 1
             (QBError (statusCode attrs) (statusSeverity attrs))).
  - reflexivity.
  - lia.
  - intros j Hj. lia.
  - rewrite Hfetch. eapply attemptRequest_qb_error; eassumption.
  - reflexivity.
Qed.

(** The attributes extracted from a response container without
    ['@statusCode'] carry the status code 'N/A'. *)
Lemma extractResponseAttributes_default_statusCode (data qbxmlMsgsRs specificResponse : value) :
  findSpecificResponse data = Some (qbxmlMsgsRs, specificResponse) ->
  get specificResponse "@statusCode" = VUndefined ->
  exists attrs,
    extractResponseAttributes data = Some attrs
    /\ statusCode attrs = VStr "N/A"
    /\ statusSeverity attrs
       = JS.or (get specificResponse "@statusSeverity") (VStr "N/A").
Proof.
  intros Hfind Hcode. unfold extractResponseAttributes. rewrite Hfind.
  eexists. split; [reflexivity |]. cbn. rewrite Hcode. split; reflexivity.
Qed.

(** The decoded response carries the attributes of its payload. *)
Lemma decodeCloudEvent_responseAttributes (rawPayload : value) (decoded : DecodedCloudEvent) :
  decodeCloudEvent rawPayload = inr decoded ->
  responseAttributes decoded = extractResponseAttributes (get rawPayload "data").
Proof.
  unfold decodeCloudEvent. destruct (notAnObject rawPayload); [discriminate |].
  destruct (List.find _ requiredFields); [discriminate |].
  intros H. injection H as <-. reflexivity.
Qed.

(** C10. If a 2xx response decodes and the nested response container is
    present but has no ['@statusCode'], the extracted status code defaults
    to 'N/A', which differs from '0', so the call ends in a [QBError] with
    status code 'N/A' instead of returning the decoded response. *)
Theorem postCloudEvent_missing_statusCode (options : RequestOptions)
    (response : Response) (body : string) (rawPayload : value)
    (decoded : DecodedCloudEvent) (qbxmlMsgsRs specificResponse : value) :
  1 <= default 3 (retries options) ->
  fetch url cloudEvent 1 = inr response ->
  ok response = true ->
  text response = inr body ->
  JSON_parse body = inr rawPayload ->
  decodeCloudEvent rawPayload = inr decoded ->
  findSpecificResponse (get rawPayload "data") = Some (qbxmlMsgsRs, specificResponse) ->
  get specificResponse "@statusCode" = VUndefined ->
  (exists attrs, responseAttributes decoded = Some attrs
                 /\ statusCode attrs = VStr "N/A")
  /\ VStr "N/A" <> VStr "0"
  /\ postCloudEvent JSON_parse fetch url cloudEvent options
     = Some (inl (QBError (VStr "N/A")
                          (JS.or (get specificResponse "@statusSeverity") (VStr "N/A"))),
             [Fetch 1]).
Proof.
  intros Hn Hfetch Hok Htext Hparse Hdecode Hfind Hcode.
  destruct (extractResponseAttributes_default_statusCode _ _ _ Hfind Hcode)
    as (attrs & Hattrs & Hna & Hsev).
  rewrite <- (decodeCloudEvent_responseAttributes _ _ Hdecode) in Hattrs.
  split; [eauto |]. split; [discriminate |].
  rewrite (postCloudEvent_stops_at options 1
             (QBError (statusCode attrs) (statusSeverity attrs))).
  - rewrite Hna, Hsev. reflexivity.
  - lia.
  - intros j Hj. lia.
  - rewrite Hfetch. eapply attemptRequest_qb_error; try eassumption.
    rewrite Hna. discriminate.
  - reflexivity.
Qed.

End Client.

Lemma postCloudEvent_exhausts_attempts_witness :
  exists name message error,
    Scenario.refused Scenario.url Scenario.request 3 = inl (NativeError name message)
    /\ error = catchBlock 5000 (NativeError name message)
    /\ networkOrTimeout error
    /\ postCloudEvent (Scenario.parsesTo VNull) Scenario.refused
                      Scenario.url Scenario.request Scenario.defaults
       = Some (inl error, [Fetch 1; Sleep 1000; Fetch 2; Sleep 2000; Fetch 3])
    /\ fetchCount [Fetch 1; Sleep 1000; Fetch 2; Sleep 2000; Fetch 3] = 3%nat
    /\ sleeps [Fetch 1; Sleep 1000; Fetch 2; Sleep 2000; Fetch 3] = [1000; 2000].
Proof.
  apply (postCloudEvent_exhausts_attempts (Scenario.parsesTo VNull) Scenario.refused
           Scenario.url Scenario.request Scenario.defaults).
  - cbn. lia.
  - intros k Hk. eexists. eexists. reflexivity.
Defined.

Lemma postCloudEvent_never_retries_rejections_witness :
  (exists effects,
      postCloudEvent (Scenario.parsesTo VNull) Scenario_more.unreadableThenError
                     Scenario.url Scenario.request Scenario.fiveAttempts
      = Some (inl (HTTPError 500 "Internal Server Error" "boom"), effects)
      /\ fetchCount effects = 2%nat
      /\ List.last effects (Sleep 0) = Fetch 2)
  /\
  postCloudEvent (Scenario.parsesTo VNull) (Scenario.answers 404 "Not Found" "missing")
                 Scenario.url Scenario.request Scenario.fiveAttempts
  = Some (inl (HTTPError 404 "Not Found" "missing"), [Fetch 1]).
Proof.
  split.
  - apply (proj1 (postCloudEvent_never_retries_rejections
                    (Scenario.parsesTo VNull) Scenario_more.unreadableThenError
                    Scenario.url Scenario.request Scenario.fiveAttempts)
                 2 (HTTPError 500 "Internal Server Error" "boom")).
    + cbn. lia.
    + intros j Hj. assert (j = 1) as -> by lia.
      exists (NetworkError (Some (NativeError "TypeError" "body stream error"))).
      split; reflexivity.
    + reflexivity.
    + exact I.
  - apply (proj2 (proj2 (postCloudEvent_never_retries_rejections
                    (Scenario.parsesTo VNull)
                    (Scenario.answers 404 "Not Found" "missing")
                    Scenario.url Scenario.request Scenario.fiveAttempts))
                 {| status := 404; statusText := "Not Found"; text := inr "missing" |}
                 "missing").
    + cbn. lia.
    + reflexivity.
    + reflexivity.
    + reflexivity.
Defined.

(** C4, as stated, fails: a 404 response whose body cannot be read is not
    classified as Transport-Status; the attempt ends in a Network error, is
    retried, and the call gives up only after all five attempts. *)
Lemma postCloudEvent_retries_unreadable_404 :
  (forall k, exists response,
      Scenario_more.notFoundUnreadable Scenario.url Scenario.request k = inr response
      /\ status response = 404)
  /\ postCloudEvent (Scenario.parsesTo VNull) Scenario_more.notFoundUnreadable
                    Scenario.url Scenario.request Scenario.fiveAttempts
     = Some (inl (NetworkError (Some (NativeError "TypeError" "body stream error"))),
             [Fetch 1; Sleep 1000; Fetch 2; Sleep 2000; Fetch 3; Sleep 4000;
              Fetch 4; Sleep 8000; Fetch 5])
  /\ fetchCount [Fetch 1; Sleep 1000; Fetch 2; Sleep 2000; Fetch 3; Sleep 4000;
                 Fetch 4; Sleep 8000; Fetch 5] = 5%nat
  /\ ~ neverRetried (NetworkError (Some (NativeError "TypeError" "body stream error"))).
Proof.
  split; [| split; [| split]].
  - intros k. eexists. split; reflexivity.
  - reflexivity.
  - reflexivity.
  - intros H. exact H.
Qed.

Lemma postCloudEvent_qb_error_single_attempt_witness :
  postCloudEvent (Scenario.parsesTo Scenario.vendorError) (Scenario.answers 200 "OK" "{}")
                 Scenario.url Scenario.request Scenario.fiveAttempts
  = Some (inl (QBError (VStr "3100") (VStr "Error")), [Fetch 1]).
Proof.
  apply (postCloudEvent_qb_error_single_attempt
           (Scenario.parsesTo Scenario.vendorError) (Scenario.answers 200 "OK" "{}")
           Scenario.url Scenario.request Scenario.fiveAttempts
           {| status := 200; statusText := "OK"; text := inr "{}" |} "{}"
           Scenario.vendorError Scenario.vendorErrorDecoded Scenario.vendorErrorStatus).
  - cbn. lia.
  - reflexivity.
  - reflexivity.
  - reflexivity.
  - reflexivity.
  - reflexivity.
  - reflexivity.
  - cbn. discriminate.
Defined.

Lemma postCloudEvent_missing_statusCode_witness :
  (exists attrs, responseAttributes Scenario.noStatusCodeDecoded = Some attrs
                 /\ statusCode attrs = VStr "N/A")
  /\ VStr "N/A" <> VStr "0"
  /\ postCloudEvent (Scenario.parsesTo Scenario.noStatusCode)
                    (Scenario.answers 200 "OK" "{}")
                    Scenario.url Scenario.request Scenario.defaults
     = Some (inl (QBError (VStr "N/A") (VStr "Info")), [Fetch 1]).
Proof.
  apply (postCloudEvent_missing_statusCode
           (Scenario.parsesTo Scenario.noStatusCode) (Scenario.answers 200 "OK" "{}")
           Scenario.url Scenario.request Scenario.defaults
           {| status := 200; statusText := "OK"; text := inr "{}" |} "{}"
           Scenario.noStatusCode Scenario.noStatusCodeDecoded
           (Scenario.msgsRs Scenario.noStatusCodeAttributes)
           (VObj Scenario.noStatusCodeAttributes)).
  - cbn. lia.
  - reflexivity.
  - reflexivity.
  - reflexivity.
  - reflexivity.
  - reflexivity.
  - reflexivity.
  - reflexivity.
Defined.

End Network_properties.

(* ===================================================================== *)
(** ** Properties of the persistent reactive store *)
(* ===================================================================== *)

Module PersistentStore_properties.

Import PersistentStore JS_properties.

Lemma safe_not_equal_false (a b : value) : safe_not_equal a b = false -> a = b.
Proof.
  destruct a; cbn [safe_not_equal]; try discriminate; apply strictNotEqual_false.
Qed.

Lemma StorageType_eqb_refl (t : StorageType) : StorageType_eqb t t = true.
Proof. destruct t; reflexivity. Qed.

(** While [isInitializing] holds, [store.set] writes nothing outward and
    leaves the flag alone; afterwards the store holds the new value. *)
Lemma set_while_initializing (key : string) (storageType : StorageType)
    (v : value) (c : Cell) :
  isInitializing c = true ->
  set key storageType v c
  = {| current := v;
       isInitializing := true;
       pendingGet := pendingGet c;
       chrome := chrome c;
       setCalls := setCalls c |}.
Proof.
  intros Hinit. unfold set.
  destruct (safe_not_equal (current c) v) eqn:E.
  - unfold subscriber. cbn. rewrite Hinit. reflexivity.
  - apply safe_not_equal_false in E. destruct c; cbn in *. congruence.
Qed.

(** A notification for another storage area is ignored. *)
Lemma onChanged_other_area (key : string) (storageType areaName : StorageType)
    (changes : gmap string StorageChange) (c : Cell) :
  areaName <> storageType ->
  onChanged key storageType changes areaName c = c.
Proof.
  intros Hne. unfold onChanged.
  destruct areaName, storageType; cbn; congruence.
Qed.

(** C9. After an external change notification for the cell's key in its
    namespace, the cell's in-memory value is the notified new value, and
    the notification alone issues no write: the backing store and the list
    of [storage.set] calls are unchanged. *)
Theorem onChanged_updates_without_write (key : string) (storageType : StorageType)
    (changes : gmap string StorageChange) (change : StorageChange) (c : Cell) :
  changes !! key = Some change ->
  current (onChanged key storageType changes storageType c)
  = default VUndefined (newValue change)
  /\ chrome (onChanged key storageType changes storageType c) = chrome c
  /\ setCalls (onChanged key storageType changes storageType c) = setCalls c.
Proof.
  intros Hchange. unfold onChanged.
  rewrite StorageType_eqb_refl, Hchange. cbn [negb].
  rewrite set_while_initializing by reflexivity. cbn. auto.
Qed.

Lemma onChanged_updates_without_write_witness :
  let created :=
    persistentStore "backend-url" local (VStr "http://default:3000") Scenario.storedUrl in
  let hydrated := getResolved "backend-url" local created in
  let notified := onChanged "backend-url" local Scenario.urlChanged local hydrated in
  current notified = VStr "http://other:3000"
  /\ chrome notified = chrome hydrated
  /\ setCalls notified = setCalls hydrated.
Proof.
  apply (onChanged_updates_without_write "backend-url" local Scenario.urlChanged
           {| oldValue := Some (VStr "http://stored:3000");
              newValue := Some (VStr "http://other:3000") |}).
  reflexivity.
Defined.

(** After [store.set(v)] the cell holds [v], whatever it held before. *)
Lemma set_current (key : string) (storageType : StorageType) (v : value) (c : Cell) :
  current (set key storageType v c) = v.
Proof.
  unfold set. destruct (safe_not_equal (current c) v) eqn:E.
  - unfold subscriber. cbn [isInitializing]. destruct (isInitializing c); reflexivity.
  - apply safe_not_equal_false, E.
Qed.

(** [store.set] does not settle the hydration read. *)
Lemma set_keeps_pending (key : string) (storageType : StorageType) (v : value) (c : Cell) :
  pendingGet (set key storageType v c) = pendingGet c.
Proof.
  unfold set. destruct (safe_not_equal (current c) v); [| reflexivity].
  unfold subscriber. cbn [isInitializing]. destruct (isInitializing c); reflexivity.
Qed.

(** Only the continuation of [storage.get] settles the hydration read. *)
Lemma step_keeps_pending (key : string) (storageType : StorageType)
    (c : Cell) (e : PersistentStore_events.Event) :
  e <> PersistentStore_events.GetResolved ->
  pendingGet (PersistentStore_events.step key storageType c e) = pendingGet c.
Proof.
  intros He. destruct e as [v | fn | | changes areaName];
    cbn [PersistentStore_events.step].
  - apply set_keeps_pending.
  - apply set_keeps_pending.
  - destruct He. reflexivity.
  - unfold onChanged. destruct (negb _); [reflexivity |].
    destruct (changes !! key); [| reflexivity].
    cbn [pendingGet]. rewrite set_keeps_pending. reflexivity.
Qed.

Lemma run_keeps_pending (key : string) (storageType : StorageType)
    (events : list PersistentStore_events.Event) :
  Forall (fun e => e <> PersistentStore_events.GetResolved) events ->
  forall c, pendingGet (PersistentStore_events.run key storageType events c) = pendingGet c.
Proof.
  induction 1 as [| e events He _ IH]; intros c; [reflexivity |].
  cbn [PersistentStore_events.run fold_left].
  fold (PersistentStore_events.run key storageType events
          (PersistentStore_events.step key storageType c e)).
  rewrite IH. apply step_keeps_pending, He.
Qed.

(** When the hydration read resolves, the cell takes the record it read,
    if there was one, whatever the cell held. *)
Lemma getResolved_pending (key : string) (storageType : StorageType)
    (c : Cell) (result : option value) :
  pendingGet c = Some result ->
  current (getResolved key storageType c) = default (current c) result
  /\ isInitializing (getResolved key storageType c) = false
  /\ pendingGet (getResolved key storageType c) = None.
Proof.
  intros Hpending. unfold getResolved. rewrite Hpending.
  destruct result as [stored |]; cbn; [rewrite set_current |]; auto.
Qed.

(** C8, as amended. For every cell, whatever local writes and change
    notifications it goes through between its creation and the completion
    of the hydration read: if a local [set] occurs before the read
    completes, the hydration result is not discarded.  When the read
    completes, the in-memory value becomes the stored record if the store
    held one for the key, overwriting the locally written value; only if
    the store held no record does the in-memory value stay what it was
    just before the read completed, which is the locally written value
    when nothing has replaced it since. *)
Theorem hydration_after_local_set (key : string) (storageType : StorageType)
    (initialValue v : value) (storage : ChromeStorage)
    (before after : list PersistentStore_events.Event) :
  Forall (fun e => e <> PersistentStore_events.GetResolved) before ->
  Forall (fun e => e <> PersistentStore_events.GetResolved) after ->
  let created := persistentStore key storageType initialValue storage in
  let written :=
    set key storageType v (PersistentStore_events.run key storageType before created) in
  let latest := PersistentStore_events.run key storageType after written in
  let hydrated := getResolved key storageType latest in
  current written = v
  /\ pendingGet latest = Some (area storageType storage !! key)
  /\ current hydrated = default (current latest) (area storageType storage !! key)
  /\ (after = [] -> current hydrated = default v (area storageType storage !! key))
  /\ isInitializing hydrated = false
  /\ pendingGet hydrated = None.
Proof.
  intros Hbefore Hafter. cbn zeta.
  set (written := set key storageType v _).
  assert (Hcur : current written = v) by apply set_current.
  assert (Hpending :
            pendingGet (PersistentStore_events.run key storageType after written)
            = Some (area storageType storage !! key)).
  { rewrite (run_keeps_pending key storageType after Hafter). unfold written.
    rewrite set_keeps_pending, (run_keeps_pending key storageType before Hbefore).
    reflexivity. }
  destruct (getResolved_pending key storageType _ _ Hpending) as (Hhyd & Hinit & Hnone).
  split; [exact Hcur |]. split; [exact Hpending |]. split; [exact Hhyd |].
  split; [| auto].
  intros ->. cbn [PersistentStore_events.run fold_left] in Hhyd |- *.
  rewrite Hhyd, Hcur. reflexivity.
Qed.

(** A cell that has seen a change notification and then a local [set]
    while the read was pending: the stored record replaces the local
    value. *)
Lemma hydration_after_local_set_witness :
  let created :=
    persistentStore "backend-url" local (VStr "http://default:3000") Scenario.storedUrl in
  let notified := onChanged "backend-url" local Scenario.urlChanged local created in
  let written := set "backend-url" local (VStr "http://typed:3000") notified in
  let hydrated := getResolved "backend-url" local written in
  current written = VStr "http://typed:3000"
  /\ pendingGet written = Some (Some (VStr "http://stored:3000"))
  /\ current hydrated = VStr "http://stored:3000"
  /\ isInitializing hydrated = false
  /\ pendingGet hydrated = None.
Proof.
  destruct (hydration_after_local_set "backend-url" local (VStr "http://default:3000")
              (VStr "http://typed:3000") Scenario.storedUrl
              [PersistentStore_events.Changed Scenario.urlChanged local] [])
    as (Hwritten & Hpending & _ & Hhydrated & Hinit & Hnone).
  - apply List.Forall_cons; [discriminate | apply List.Forall_nil].
  - apply List.Forall_nil.
  - split; [exact Hwritten |]. split; [exact Hpending |].
    split; [exact (Hhydrated eq_refl) |]. split; [exact Hinit | exact Hnone].
Defined.

(** C8, as stated, fails: with a record in the store, the value written
    locally during hydration is replaced by the hydration result. *)
Lemma hydration_overwrites_local_set :
  let created :=
    persistentStore "backend-url" local (VStr "http://default:3000") Scenario.storedUrl in
  let written := set "backend-url" local (VStr "http://typed:3000") created in
  let hydrated := getResolved "backend-url" local written in
  current written = VStr "http://typed:3000"
  /\ current hydrated = VStr "http://stored:3000"
  /\ current hydrated <> VStr "http://typed:3000".
Proof.
  cbn zeta. split; [reflexivity |]. split; [reflexivity |].
  vm_compute. discriminate.
Qed.

End PersistentStore_properties.

(* ===================================================================== *)
(** ** Properties of the quota monitor *)
(* ===================================================================== *)

Module StorageMonitor_properties.

Import StorageMonitor.

(** The bands [checkStorageQuota] assigns: critical from 95 percent, warning
    from 90 percent, ok below 90 percent.  [THRESHOLDS.ok] is never read. *)
Lemma checkStorageQuota_bands (n : Z) :
  exists q,
    checkStorageQuota (BytesInUse n) = Some q
    /\ bytesInUse q = n
    /\ quota q = QUOTA_LIMITS_local
    /\ percentUsed q = (inject_Z n / inject_Z QUOTA_LIMITS_local * 100)%Q
    /\ (status q = critical <-> (95 <= percentUsed q)%Q)
    /\ (status q = warning <-> (90 <= percentUsed q)%Q /\ (percentUsed q < 95)%Q)
    /\ (status q = ok <-> (percentUsed q < 90)%Q).
Proof.
  eexists. split; [reflexivity |]. cbn [bytesInUse quota percentUsed status].
  set (p := (inject_Z n / inject_Z QUOTA_LIMITS_local * 100)%Q).
  split; [reflexivity |]. split; [reflexivity |]. split; [reflexivity |].
  unfold THRESHOLDS_critical, THRESHOLDS_warning.
  pose proof (Qle_bool_iff 95 p) as H95. pose proof (Qle_bool_iff 90 p) as H90.
  destruct (Qle_bool 95 p), (Qle_bool 90 p).
  - assert (95 <= p)%Q by (apply H95; reflexivity).
    repeat split; intros; try discriminate; try lra.
  - assert (95 <= p)%Q by (apply H95; reflexivity).
    repeat split; intros; try discriminate; try lra.
  - assert (90 <= p)%Q by (apply H90; reflexivity).
    assert (~ (95 <= p)%Q) by (intros Hc; apply H95 in Hc; discriminate).
    repeat split; intros; try discriminate; try lra.
  - assert (~ (90 <= p)%Q) by (intros Hc; apply H90 in Hc; discriminate).
    assert (~ (95 <= p)%Q) by (intros Hc; apply H95 in Hc; discriminate).
    repeat split; intros; try discriminate; try lra.
Qed.

(** C6 at 85 percent. With 4456448 of 5242880 bytes in use the percentage
    is 85, inside the documented warning band (80 and above), and the
    band [checkStorageQuota] reports is [ok]. *)
Theorem checkStorageQuota_85_percent :
  exists q,
    checkStorageQuota (BytesInUse 4456448) = Some q
    /\ (percentUsed q == 85)%Q
    /\ (THRESHOLDS_ok <= percentUsed q)%Q
    /\ (percentUsed q < THRESHOLDS_critical)%Q
    /\ status q = ok.
Proof.
  eexists. split; [reflexivity |]. cbn [percentUsed status].
  repeat split; vm_compute; congruence.
Qed.

Lemma insertByCreatedAt_length (b : Bill) (l : list Bill) :
  List.length (insertByCreatedAt b l) = S (List.length l).
Proof.
  induction l as [| b' l IH]; [reflexivity |]. cbn [insertByCreatedAt].
  destruct (createdAt b <=? createdAt b'); cbn [List.length]; [reflexivity |].
  rewrite IH. reflexivity.
Qed.

Lemma sortByCreatedAt_length (l : list Bill) :
  List.length (sortByCreatedAt l) = List.length l.
Proof.
  induction l as [| b l IH]; [reflexivity |].
  cbn [sortByCreatedAt fold_right]. rewrite insertByCreatedAt_length.
  cbn [List.length]. f_equal. exact IH.
Qed.

Lemma resolve_resolved (n : Z) (s : Cleanup) : resolved (resolve n s) <> None.
Proof. unfold resolve. cbn. destruct (resolved s); discriminate. Qed.

(** A delivered notification settles the promise and queues at most one
    further notification, of a shorter list. *)
Lemma subscriber_setQueued (q : StorageQuota) (bytesToFree : Q)
    (v : list Bill) (s : Cleanup) :
  exists s',
    subscriber q bytesToFree setQueued v s = Some s'
    /\ resolved s' <> None
    /\ (subscriber_queue s' = subscriber_queue s
        \/ exists w, subscriber_queue s' = subscriber_queue s ++ [w]
                     /\ (List.length w < List.length v)%nat).
Proof.
  unfold subscriber.
  set (sorted := sortByCreatedAt v).
  set (n := Z.min _ _).
  assert (Hlen : List.length sorted = List.length v) by apply sortByCreatedAt_length.
  destruct (0 <? n) eqn:Hpos.
  - cbn [setQueued]. eexists. split; [reflexivity |].
    split; [apply resolve_resolved |]. right. cbn.
    eexists. split; [reflexivity |].
    apply Z.ltb_lt in Hpos. rewrite List.length_skipn. subst n. lia.
  - eexists. split; [reflexivity |].
    split; [apply resolve_resolved |]. left. reflexivity.
Qed.

(** The delivery loop never runs out of fuel when the one queued list is
    shorter than the fuel. *)
Lemma deliver_total (q : StorageQuota) (bytesToFree : Q) (fuel : nat) :
  forall s,
    (subscriber_queue s = []
     \/ exists v, subscriber_queue s = [v] /\ (List.length v < fuel)%nat) ->
    exists s', deliver q bytesToFree fuel s = Some s'.
Proof.
  induction fuel as [| fuel IH]; intros s [Hq | (v & Hq & Hv)].
  - cbn. rewrite Hq. eauto.
  - lia.
  - cbn. rewrite Hq. eauto.
  - cbn [deliver]. rewrite Hq.
    destruct (subscriber_setQueued q bytesToFree v
                {| bills := bills s; subscriber_queue := [];
                   billsToRemove := billsToRemove s; resolved := resolved s |})
      as (s' & -> & _ & Hqueue).
    apply IH. cbn in Hqueue. destruct Hqueue as [-> | (w & -> & Hw)].
    + left. reflexivity.
    + right. exists w. split; [reflexivity | lia].
Qed.

(** [cleanupOldData] always settles. *)
Lemma cleanupOldData_total (host : Host) (targetPercentage : option Q)
    (billCache : list Bill) :
  exists result, cleanupOldData host targetPercentage billCache = Some result.
Proof.
  unfold cleanupOldData.
  destruct (checkStorageQuota host) as [q |]; [| eauto].
  destruct (Qle_bool _ _); [eauto |].
  set (bytesToFree := (_ - _)%Q).
  unfold subscriber.
  set (sorted := sortByCreatedAt billCache).
  set (n := Z.min _ _).
  destruct (0 <? n).
  - unfold setAndDeliver.
    destruct (deliver_total q bytesToFree (S (List.length (skipn (Z.to_nat n) sorted)))
                {| bills := skipn (Z.to_nat n) sorted;
                   subscriber_queue := [skipn (Z.to_nat n) sorted];
                   billsToRemove := n; resolved := None |}) as [s' Hs'].
    + right. eexists. split; [reflexivity | lia].
    + cbn [billsToRemove resolved] in *. rewrite Hs'.
      pose proof (resolve_resolved (billsToRemove s') s') as Hres.
      destruct (resolved (resolve (billsToRemove s') s')); [eauto | congruence].
  - cbn. eauto.
Qed.

(** Below or at the target nothing is removed and 0 is returned. *)
Lemma cleanupOldData_noop (host : Host) (targetPercentage : option Q)
    (billCache : list Bill) (q : StorageQuota) :
  checkStorageQuota host = Some q ->
  (percentUsed q <= default (70 : Q) targetPercentage)%Q ->
  cleanupOldData host targetPercentage billCache = Some (Resolved 0, billCache).
Proof.
  intros Hq Hle. unfold cleanupOldData. rewrite Hq.
  apply Qle_bool_iff in Hle. rewrite Hle. reflexivity.
Qed.

Lemma insertByCreatedAt_sorted (b : Bill) (l : list Bill) :
  Sorted Spec.olderOrEqual l -> Sorted Spec.olderOrEqual (insertByCreatedAt b l).
Proof.
  induction l as [| b' l IH]; intros Hs.
  - repeat constructor.
  - cbn [insertByCreatedAt]. destruct (createdAt b <=? createdAt b') eqn:E.
    + constructor; [exact Hs |]. constructor. apply Z.leb_le, E.
    + apply Z.leb_gt in E. inversion Hs as [| ? ? Hs' Hhd]; subst.
      constructor; [apply IH, Hs' |].
      destruct l as [| b'' l]; cbn [insertByCreatedAt].
      * constructor. unfold Spec.olderOrEqual. lia.
      * destruct (createdAt b <=? createdAt b'').
        -- constructor. unfold Spec.olderOrEqual. lia.
        -- inversion Hhd; subst. constructor. assumption.
Qed.

Lemma sortByCreatedAt_sorted (l : list Bill) :
  Sorted Spec.olderOrEqual (sortByCreatedAt l).
Proof.
  induction l as [| b l IH]; [constructor |].
  apply insertByCreatedAt_sorted, IH.
Qed.

(** Sorting a sorted list changes nothing. *)
Lemma sortByCreatedAt_id (l : list Bill) :
  Sorted Spec.olderOrEqual l -> sortByCreatedAt l = l.
Proof.
  induction l as [| b l IH]; intros Hs; [reflexivity |].
  inversion Hs as [| ? ? Hs' Hhd]; subst.
  cbn [sortByCreatedAt fold_right]. fold (sortByCreatedAt l). rewrite (IH Hs').
  destruct l as [| b' l]; [reflexivity |].
  inversion Hhd as [| ? ? Hle]; subst. cbn [insertByCreatedAt].
  apply Z.leb_le in Hle. rewrite Hle. reflexivity.
Qed.

Lemma skipn_sorted (n : nat) (l : list Bill) :
  Sorted Spec.olderOrEqual l -> Sorted Spec.olderOrEqual (skipn n l).
Proof.
  revert l. induction n as [| n IH]; intros l Hs; [exact Hs |].
  destruct l as [| b l]; [constructor |].
  inversion Hs; subst. cbn [skipn]. apply IH. assumption.
Qed.

Lemma inject_Z_pos (z : Z) : 0 < z -> (0 < inject_Z z)%Q.
Proof. intros H. unfold Qlt. cbn. lia. Qed.

Lemma inject_Z_nonneg (z : Z) : 0 <= z -> (0 <= inject_Z z)%Q.
Proof. intros H. unfold Qle. cbn. lia. Qed.

Lemma Qceiling_nonneg (x : Q) : (0 <= x)%Q -> 0 <= Qceiling x.
Proof.
  intros H. assert (0 <= inject_Z (Qceiling x))%Q as Hc.
  { eapply Qle_trans; [exact H | apply Qle_ceiling]. }
  unfold Qle in Hc. cbn in Hc. lia.
Qed.

Lemma Qceiling_pos (x : Q) : (0 < x)%Q -> 1 <= Qceiling x.
Proof.
  intros H. assert (0 < inject_Z (Qceiling x))%Q as Hc.
  { eapply Qlt_le_trans; [exact H | apply Qle_ceiling]. }
  unfold Qlt in Hc. cbn in Hc. lia.
Qed.

(** With bytes to free, every run over a non-empty list asks for at least
    one removal. *)
Lemma ceilDiv_pos (bytesInUse : Z) (bytesToFree : Q) (length : nat) :
  0 <= bytesInUse -> (0 < bytesToFree)%Q -> (0 < length)%nat ->
  1 <= ceilDiv bytesToFree (avgBytesPerBill bytesInUse length).
Proof.
  intros Hb Hf Hl. destruct length as [| m]; [lia |].
  unfold avgBytesPerBill.
  set (c := Qceiling (inject_Z bytesInUse / inject_Z (Z.of_nat (S m)))).
  assert (Hc : 0 <= c).
  { apply Qceiling_nonneg. apply Qle_shift_div_l.
    - apply inject_Z_pos. lia.
    - rewrite Qmult_0_l. apply inject_Z_nonneg, Hb. }
  destruct (c =? 0) eqn:E; cbn [ceilDiv]; apply Qceiling_pos, Qlt_shift_div_l.
  - reflexivity.
  - rewrite Qmult_0_l. exact Hf.
  - apply inject_Z_pos. apply Z.eqb_neq in E. lia.
  - rewrite Qmult_0_l. exact Hf.
Qed.

Section Trim.

Variable q : StorageQuota.
Variable bytesToFree : Q.
Hypothesis bytes_nonneg : 0 <= bytesInUse q.
Hypothesis something_to_free : (0 < bytesToFree)%Q.

(** Once the delivery loop holds a sorted list of more than ten bills it
    goes on until exactly the ten most recent are left. *)
Lemma deliver_trims_to_ten (fuel : nat) :
  forall (s : Cleanup) (v : list Bill),
    subscriber_queue s = [v] ->
    Sorted Spec.olderOrEqual v ->
    (10 <= List.length v < fuel)%nat ->
    exists s',
      deliver q bytesToFree fuel s = Some s'
      /\ (List.length v = 10%nat -> bills s' = bills s)
      /\ (10 < List.length v ->
          bills s' = skipn (List.length v - 10) v)%nat.
Proof.
  induction fuel as [| fuel IH]; intros s v Hq Hs Hlen; [lia |].
  cbn [deliver]. rewrite Hq. unfold subscriber.
  rewrite (sortByCreatedAt_id v Hs).
  set (n := Z.min _ _).
  destruct (0 <? n) eqn:Hpos.
  - apply Z.ltb_lt in Hpos. cbn [setQueued subscriber_queue app billsToRemove].
    assert (Hn : n <= Z.of_nat (List.length v) - 10) by (subst n; lia).
    destruct (IH (resolve n {| bills := skipn (Z.to_nat n) v;
                               subscriber_queue := [skipn (Z.to_nat n) v];
                               billsToRemove := n;
                               resolved := resolved s |})
                 (skipn (Z.to_nat n) v)) as (s' & Hd & H10 & Hgt).
    + reflexivity.
    + apply skipn_sorted, Hs.
    + rewrite List.length_skipn. lia.
    + exists s'. split; [exact Hd |]. split; [lia |]. intros Hv.
      rewrite List.length_skipn in H10, Hgt.
      destruct (Nat.eq_dec (List.length v - Z.to_nat n) 10)%nat as [E | E].
      * rewrite (H10 E). cbn. f_equal. lia.
      * rewrite Hgt by lia. rewrite List.skipn_skipn. f_equal. lia.
  - apply Z.ltb_ge in Hpos. cbn [subscriber_queue].
    assert (List.length v = 10%nat) as E.
    { pose proof (ceilDiv_pos (bytesInUse q) bytesToFree (List.length v)
                    bytes_nonneg something_to_free) as Hc.
      subst n. lia. }
    eexists. split; [destruct fuel; reflexivity |].
    split; [reflexivity |]. lia.
Qed.

End Trim.

(** What [cleanupOldData] does above the target: whatever the byte counts,
    a cache of more than ten bills is cut down to its ten most recent. *)
Lemma cleanupOldData_trims_to_ten (bytes : Z) (targetPercentage : option Q)
    (billCache : list Bill) :
  0 <= bytes ->
  (default (70 : Q) targetPercentage
   < inject_Z bytes / inject_Z QUOTA_LIMITS_local * 100)%Q ->
  (10 < List.length billCache)%nat ->
  exists n,
    cleanupOldData (BytesInUse bytes) targetPercentage billCache
    = Some (Resolved n,
            skipn (List.length billCache - 10) (sortByCreatedAt billCache)).
Proof.
  intros Hb Hpct Hlen. unfold cleanupOldData. cbn [checkStorageQuota].
  set (st := if Qle_bool THRESHOLDS_critical _ then critical else _).
  cbn [percentUsed quota bytesInUse].
  set (t := default (70 : Q) targetPercentage) in *.
  replace (Qle_bool (inject_Z bytes / inject_Z QUOTA_LIMITS_local * 100) t) with false.
  2:{ symmetry. apply not_true_is_false. intros H. apply Qle_bool_iff in H. lra. }
  set (quotaNow := {| bytesInUse := bytes; quota := QUOTA_LIMITS_local;
                      percentUsed := _; status := st |}).
  set (bytesToFree := (inject_Z bytes - t / 100 * inject_Z QUOTA_LIMITS_local)%Q).
  assert (Hfree : (0 < bytesToFree)%Q).
  { subst bytesToFree. unfold QUOTA_LIMITS_local in *.
    change (inject_Z 5242880) with 5242880%Q in *. clearbody t.
    assert (t / 100 * 5242880 < inject_Z bytes / 5242880 * 100 / 100 * 5242880)%Q.
    { apply Qmult_lt_compat_r; [reflexivity |].
      apply Qmult_lt_compat_r; [reflexivity | exact Hpct]. }
    assert (inject_Z bytes / 5242880 * 100 / 100 * 5242880 == inject_Z bytes)%Q
      by (field).
    lra. }
  unfold subscriber.
  pose proof (sortByCreatedAt_length billCache) as Hsl.
  pose proof (sortByCreatedAt_sorted billCache) as Hss.
  set (sorted := sortByCreatedAt billCache) in *.
  pose proof (ceilDiv_pos bytes bytesToFree (List.length sorted) Hb Hfree) as Hc.
  cbn [bytesInUse quotaNow].
  set (n := Z.min _ _).
  assert (Hn : 1 <= n <= Z.of_nat (List.length sorted) - 10) by (subst n; lia).
  replace (0 <? n) with true by (symmetry; apply Z.ltb_lt; lia).
  unfold setAndDeliver.
  destruct (deliver_trims_to_ten quotaNow bytesToFree Hb Hfree
              (S (List.length (skipn (Z.to_nat n) sorted)))
              {| bills := skipn (Z.to_nat n) sorted;
                 subscriber_queue := [skipn (Z.to_nat n) sorted];
                 billsToRemove := n; resolved := None |}
              (skipn (Z.to_nat n) sorted)) as (s' & Hd & H10 & Hgt).
  - reflexivity.
  - apply skipn_sorted, Hss.
  - rewrite List.length_skipn. lia.
  - cbn [billsToRemove resolved]. rewrite Hd.
    pose proof (resolve_resolved (billsToRemove s') s') as Hres.
    destruct (resolved (resolve (billsToRemove s') s')) as [r |] eqn:Er; [| congruence].
    exists r. f_equal. f_equal. cbn [bills resolve].
    rewrite List.length_skipn in H10, Hgt.
    destruct (Nat.eq_dec (List.length sorted - Z.to_nat n) 10)%nat as [E | E].
    + rewrite (H10 E). cbn. f_equal. lia.
    + rewrite Hgt by lia. rewrite List.skipn_skipn. f_equal. lia.
Qed.

(** C7 on the specification's own scenario. Twelve bills with 5000000 of
    5242880 bytes in use: the subscriber's first run decides to remove two
    entries, the two oldest are removed and ten remain, and the promise
    resolves with 0; with twenty bills the first run decides to remove six,
    ten are removed, and the promise resolves with 4. *)
Theorem cleanupOldData_reentrant_subscriber :
  (firstPassCount 5000000 70 12 = 2
   /\ cleanupOldData (BytesInUse 5000000) None Scenario.twelveBills
      = Some (Resolved 0, skipn 2 Scenario.twelveBills))
  /\
  (firstPassCount 5000000 70 20 = 6
   /\ cleanupOldData (BytesInUse 5000000) None Scenario.twentyBills
      = Some (Resolved 4, skipn 10 Scenario.twentyBills)).
Proof. repeat split; vm_compute; reflexivity. Qed.

End StorageMonitor_properties.

(* ===================================================================== *)
(** ** Further properties of the resilient request client *)
(* ===================================================================== *)

Module Network_more.

Import CloudEvent Network Spec Spec_more JS_properties Network_properties.

Lemma catchBlock_classified (timeout : Z) (error : JsError) :
  classified (catchBlock timeout error).
Proof.
  unfold catchBlock. destruct (isAbortError error); [exact I |].
  destruct error; exact I.
Qed.

Lemma exhausted_S (m : nat) :
  exhausted (S m) = retried 1 m ++ [Fetch (Z.of_nat (S m))].
Proof. reflexivity. Qed.

Lemma retried_split (k : Z) (m : nat) (rest : list Effect) :
  Fetch k :: Sleep (calculateBackoff k) :: retried (k + 1) m ++ rest
  = retried k (S m) ++ rest.
Proof. reflexivity. Qed.

Section Loop.

Variable JSON_parse : string -> JsError + value.
Variable fetch : string -> CloudEvent -> Z -> JsError + Response.
Variable url : string.
Variable cloudEvent : CloudEvent.
Variable timeout : Z.

(** Every error an attempt ends in belongs to one of the five classes. *)
Lemma attemptRequest_classified (settled : JsError + Response) (error : JsError) :
  attemptRequest JSON_parse timeout settled = inl error -> classified error.
Proof.
  unfold attemptRequest. destruct (tryBlock JSON_parse settled); [| discriminate].
  intros H. injection H as <-. apply catchBlock_classified.
Qed.

(** The loop entered with attempts left: it ends after [m + 1] further
    fetches for some [m], having slept after each of them but the last; an
    error it throws is classified, and a retryable one is thrown only when
    no attempt is left. *)
Lemma retryLoop_shape (fuel : nat) :
  forall (a max : Z) (last : option JsError) (effects : list Effect),
    a < max -> max - a <= Z.of_nat fuel ->
    exists result m,
      retryLoop JSON_parse fetch fuel url cloudEvent timeout
                {| attempt := a; maxRetries := max; lastError := last |} effects
      = Some (result, effects ++ retried (a + 1) m ++ [Fetch (a + 1 + Z.of_nat m)])
      /\ a + 1 + Z.of_nat m <= max
      /\ (forall j, a < j < a + 1 + Z.of_nat m ->
                    exists error,
                      attemptRequest JSON_parse timeout (fetch url cloudEvent j) = inl error
                      /\ isRetryableError error = true)
      /\ result = attemptRequest JSON_parse timeout
                                 (fetch url cloudEvent (a + 1 + Z.of_nat m))
      /\ (forall error, result = inl error ->
                        isRetryableError error = true -> a + 1 + Z.of_nat m = max).
Proof.
  induction fuel as [| fuel IH]; intros a max last effects Hlt Hfuel; [lia |].
  rewrite retryLoop_step by assumption.
  destruct (attemptRequest JSON_parse timeout (fetch url cloudEvent (a + 1)))
    as [error | decoded] eqn:Hattempt.
  - destruct (isRetryableError error) eqn:Hretry; cbn [negb].
    + destruct (max <=? a + 1) eqn:Hmax.
      * apply Z.leb_le in Hmax. exists (inl error), 0%nat.
        cbn [retried app]. replace (a + 1 + Z.of_nat 0) with (a + 1) by lia.
        split; [reflexivity |]. split; [lia |]. split; [intros j Hj; lia |].
        split; [symmetry; exact Hattempt |]. intros; lia.
      * apply Z.leb_gt in Hmax.
        destruct (IH (a + 1) max (Some error)
                     ((effects ++ [Fetch (a + 1)]) ++ [Sleep (calculateBackoff (a + 1))]))
          as (result & m & Hrun & Hle & Hprev & Hres & Hlast); [lia | lia |].
        exists result, (S m). rewrite Hrun.
        replace (a + 1 + Z.of_nat (S m)) with (a + 1 + 1 + Z.of_nat m) by lia.
        split.
        { f_equal. f_equal. rewrite <- !List.app_assoc. reflexivity. }
        split; [lia |]. split.
        { intros j Hj. destruct (Z.eq_dec j (a + 1)) as [-> | Hne].
          - exists error. split; assumption.
          - apply Hprev. lia. }
        split; [exact Hres |]. exact Hlast.
    + exists (inl error), 0%nat.
      cbn [retried app]. replace (a + 1 + Z.of_nat 0) with (a + 1) by lia.
      split; [reflexivity |]. split; [lia |]. split; [intros j Hj; lia |].
      split; [symmetry; exact Hattempt |].
      intros e He Hr. injection He as <-. congruence.
  - exists (inr decoded), 0%nat.
    cbn [retried app]. replace (a + 1 + Z.of_nat 0) with (a + 1) by lia.
    split; [reflexivity |]. split; [lia |]. split; [intros j Hj; lia |].
    split; [symmetry; exact Hattempt |]. intros e He. discriminate He.
Qed.

End Loop.

Lemma total_app (l1 l2 : list Z) : total (l1 ++ l2) = total l1 + total l2.
Proof.
  unfold total. induction l1 as [| x l1 IH]; cbn [app fold_right]; [lia |].
  rewrite IH. lia.
Qed.

(** The delays of [m] retries starting at attempt 1 add up to
    [(2^m - 1) * 1000]. *)
Lemma total_sleeps_retried (m : nat) :
  total (sleeps (retried 1 m)) = (2 ^ Z.of_nat m - 1) * 1000.
Proof.
  induction m as [| m IH]; [reflexivity |].
  rewrite retried_app, sleeps_app, total_app, IH.
  cbn [sleeps flat_map app total fold_right].
  replace (1 + Z.of_nat m - 1) with (Z.of_nat m) by lia.
  replace (Z.of_nat (S m)) with (Z.of_nat m + 1) by lia.
  rewrite Z.pow_add_r by lia. lia.
Qed.

Lemma total_sleeps_exhausted (k : nat) :
  (1 <= k)%nat ->
  total (sleeps (exhausted k)) = (2 ^ (Z.of_nat k - 1) - 1) * 1000.
Proof.
  intros Hk. destruct k as [| m]; [lia |].
  rewrite exhausted_S, sleeps_app, total_app, total_sleeps_retried.
  cbn [sleeps flat_map app total fold_right].
  replace (Z.of_nat (S m) - 1) with (Z.of_nat m) by lia. lia.
Qed.

Section Client.

Variable JSON_parse : string -> JsError + value.
Variable fetch : string -> CloudEvent -> Z -> JsError + Response.
Variable url : string.
Variable cloudEvent : CloudEvent.

(** What every call with at least one attempt allowed looks like. *)
Lemma postCloudEvent_shape (options : RequestOptions) :
  1 <= default 3 (retries options) ->
  exists result k,
    1 <= k <= default 3 (retries options)
    /\ postCloudEvent JSON_parse fetch url cloudEvent options
       = Some (result, exhausted (Z.to_nat k))
    /\ (forall j, 1 <= j < k ->
                  exists error,
                    attemptRequest JSON_parse (default 5000 (Network.timeout options))
                                   (fetch url cloudEvent j) = inl error
                    /\ isRetryableError error = true)
    /\ result = attemptRequest JSON_parse (default 5000 (Network.timeout options))
                               (fetch url cloudEvent k)
    /\ (forall error, result = inl error ->
                      isRetryableError error = true -> k = default 3 (retries options)).
Proof.
  intros Hn. unfold postCloudEvent.
  set (n := default 3 (retries options)) in *.
  set (t := default 5000 (Network.timeout options)).
  destruct (retryLoop_shape JSON_parse fetch url cloudEvent t (Z.to_nat n) 0 n None [])
    as (result & m & Hrun & Hle & Hprev & Hres & Hlast); [lia | lia |].
  exists result, (1 + Z.of_nat m). split; [lia |].
  replace (0 + 1 + Z.of_nat m) with (1 + Z.of_nat m) in * by lia.
  split.
  { rewrite Hrun. cbn [app]. f_equal. f_equal.
    replace (Z.to_nat (1 + Z.of_nat m)) with (S m) by lia.
    rewrite exhausted_S. do 3 f_equal. lia. }
  split; [intros j Hj; apply Hprev; lia |].
  split; [exact Hres | exact Hlast].
Qed.

(** X1. Whatever the transport does, a postCloudEvent call with at least one
    attempt allowed makes between 1 and retries fetches, sleeps after every
    fetch but the last and never otherwise, throws only errors of the five
    classes of network.ts (never a raw platform error), and throws a
    retryable error (Network or Timeout) only after all retries attempts
    have been made. *)
Theorem postCloudEvent_bounded_attempts (options : RequestOptions)
    (result : JsError + DecodedCloudEvent) (effects : list Effect) :
  1 <= default 3 (retries options) ->
  postCloudEvent JSON_parse fetch url cloudEvent options = Some (result, effects) ->
  (1 <= fetchCount effects)%nat
  /\ (fetchCount effects <= Z.to_nat (default 3%Z (retries options)))%nat
  /\ effects = exhausted (fetchCount effects)
  /\ (forall error, result = inl error ->
        classified error
        /\ (isRetryableError error = true ->
            fetchCount effects = Z.to_nat (default 3 (retries options)))).
Proof.
  intros Hn Hrun.
  destruct (postCloudEvent_shape options Hn) as (r & k & Hk & Hrun' & _ & Hres & Hlast).
  rewrite Hrun' in Hrun. injection Hrun as <- <-.
  rewrite fetchCount_exhausted.
  split; [lia |]. split; [lia |]. split; [reflexivity |].
  intros error He. split.
  - rewrite He in Hres. symmetry in Hres.
    eapply attemptRequest_classified, Hres.
  - intros Hr. rewrite (Hlast error He Hr). reflexivity.
Qed.

(** X2. Whatever the transport does, a postCloudEvent call that made k
    fetches has slept (2^(k-1) - 1) * 1000 ms in total, which is at most
    (2^(retries-1) - 1) * 1000 ms (3000 ms with the default of 3 attempts). *)
Theorem postCloudEvent_total_backoff (options : RequestOptions)
    (result : JsError + DecodedCloudEvent) (effects : list Effect) :
  1 <= default 3 (retries options) ->
  postCloudEvent JSON_parse fetch url cloudEvent options = Some (result, effects) ->
  total (sleeps effects) = (2 ^ (Z.of_nat (fetchCount effects) - 1) - 1) * 1000
  /\ total (sleeps effects) <= (2 ^ (default 3 (retries options) - 1) - 1) * 1000.
Proof.
  intros Hn Hrun.
  destruct (postCloudEvent_shape options Hn) as (r & k & Hk & Hrun' & _).
  rewrite Hrun' in Hrun. injection Hrun as <- <-.
  rewrite fetchCount_exhausted, total_sleeps_exhausted by lia.
  split; [reflexivity |].
  assert (2 ^ (Z.of_nat (Z.to_nat k) - 1) <= 2 ^ (default 3 (retries options) - 1)).
  { apply Z.pow_le_mono_r; lia. }
  lia.
Qed.

(** X3. With retries <= 0 postCloudEvent never calls fetch and never sleeps:
    the loop is skipped and the final throw raises a NetworkError without
    cause. *)
Theorem postCloudEvent_no_attempts (options : RequestOptions) :
  default 3 (retries options) <= 0 ->
  postCloudEvent JSON_parse fetch url cloudEvent options
  = Some (inl (NetworkError None), []).
Proof.
  intros Hn. unfold postCloudEvent.
  set (n := default 3 (retries options)) in *.
  destruct (Z.to_nat n); cbn [retryLoop attempt maxRetries lastError];
    replace (0 <? n) with false by (symmetry; apply Z.ltb_ge; exact Hn);
    reflexivity.
Qed.

(** The run in which the transport rejects attempts [1 .. k-1] and attempt
    [k] ends well. *)
Lemma postCloudEvent_returns_at (options : RequestOptions) (k : Z)
    (decoded : DecodedCloudEvent) :
  1 <= k <= default 3 (retries options) ->
  (forall j, 1 <= j < k ->
             exists name message, fetch url cloudEvent j = inl (NativeError name message)) ->
  attemptRequest JSON_parse (default 5000 (Network.timeout options))
                 (fetch url cloudEvent k) = inr decoded ->
  postCloudEvent JSON_parse fetch url cloudEvent options
  = Some (inr decoded, exhausted (Z.to_nat k)).
Proof.
  intros Hk Hrej Hattempt. unfold postCloudEvent.
  set (n := default 3 (retries options)) in *.
  set (t := default 5000 (Network.timeout options)) in *.
  replace (Z.to_nat n) with (Z.to_nat (k - 1) + S (Z.to_nat (n - k)))%nat by lia.
  destruct (retryLoop_retries JSON_parse fetch url cloudEvent t (Z.to_nat (k - 1))
              (S (Z.to_nat (n - k))) 0 n None []) as [last' ->].
  - intros j Hj. apply Hrej. lia.
  - lia.
  - rewrite retryLoop_step by lia.
    replace (0 + Z.of_nat (Z.to_nat (k - 1)) + 1) with k by lia.
    rewrite Hattempt. cbn [app]. do 2 f_equal.
    replace (Z.to_nat k) with (S (Z.to_nat (k - 1))) by lia.
    rewrite exhausted_S. change (0 + 1) with 1. do 3 f_equal. lia.
Qed.

(** An attempt ends well when the response is 2xx, its body parses and
    decodes, and the response status is absent or carries code "0". *)
Lemma attemptRequest_success (timeout : Z) (response : Response) (body : string)
    (rawPayload : value) (decoded : DecodedCloudEvent) :
  ok response = true ->
  text response = inr body ->
  JSON_parse body = inr rawPayload ->
  decodeCloudEvent rawPayload = inr decoded ->
  (responseAttributes decoded = None
   \/ exists attrs, responseAttributes decoded = Some attrs
                    /\ statusCode attrs = VStr "0") ->
  attemptRequest JSON_parse timeout (inr response) = inr decoded.
Proof.
  intros Hok Htext Hparse Hdecode Hstatus.
  unfold attemptRequest, tryBlock. rewrite Hok, Htext, Hparse, Hdecode.
  destruct Hstatus as [-> | (attrs & -> & ->)]; reflexivity.
Qed.

(** X4. If every attempt is aborted (fetch rejects with an AbortError),
    postCloudEvent makes all retries attempts with the usual backoff and
    throws a TimeoutError carrying the configured timeout (5000 ms by
    default). *)
Theorem postCloudEvent_all_timeouts (options : RequestOptions) :
  1 <= default 3 (retries options) ->
  (forall k, 1 <= k <= default 3 (retries options) ->
             exists message,
               fetch url cloudEvent k = inl (NativeError "AbortError" message)) ->
  postCloudEvent JSON_parse fetch url cloudEvent options
  = Some (inl (TimeoutError (default 5000 (Network.timeout options))),
          exhausted (Z.to_nat (default 3 (retries options)))).
Proof.
  intros Hn Habort.
  destruct (postCloudEvent_shape options Hn) as (r & k & Hk & Hrun & _ & Hres & Hlast).
  destruct (Habort k Hk) as [message Hfetch].
  rewrite Hfetch in Hres. cbn in Hres. subst r.
  rewrite Hrun. rewrite (Hlast _ eq_refl eq_refl). reflexivity.
Qed.

(** X5. A response whose body cannot be read (response.text() rejects) is
    classified as a Network or Timeout error whatever its HTTP status, so it
    is retried: if that happens at every attempt, all retries attempts are
    made before the error is thrown. *)
Theorem postCloudEvent_unreadable_body_retried (options : RequestOptions) :
  1 <= default 3 (retries options) ->
  (forall k, 1 <= k <= default 3 (retries options) ->
             exists response name message,
               fetch url cloudEvent k = inr response
               /\ text response = inl (NativeError name message)) ->
  exists error,
    postCloudEvent JSON_parse fetch url cloudEvent options
    = Some (inl error, exhausted (Z.to_nat (default 3 (retries options))))
    /\ networkOrTimeout error.
Proof.
  intros Hn Hbody.
  destruct (postCloudEvent_shape options Hn) as (r & k & Hk & Hrun & _ & Hres & Hlast).
  destruct (Hbody k Hk) as (response & name & message & Hfetch & Htext).
  assert (exists error, r = inl error /\ isRetryableError error = true
                        /\ networkOrTimeout error) as (error & -> & Hretry & Hclass).
  { rewrite Hfetch in Hres. unfold attemptRequest, tryBlock in Hres.
    rewrite Htext in Hres.
    destruct (attemptRequest_rejected JSON_parse (default 5000 (Network.timeout options))
                name message) as (error & Hat & _ & Hretry & Hclass).
    unfold attemptRequest, tryBlock in Hat. injection Hat as Hat.
    exists error. destruct (negb (ok response)); rewrite Hat in Hres; auto. }
  exists error. rewrite Hrun, (Hlast error eq_refl Hretry). auto.
Qed.

(** X6. If the first response is 2xx and its body does not parse as JSON, or
    parses but is refused by decodeCloudEvent, postCloudEvent throws a
    ParseError after that single fetch; in the second case the cause is the
    Error thrown by decodeCloudEvent with its message. *)
Theorem postCloudEvent_parse_error (options : RequestOptions)
    (response : Response) (body : string) :
  1 <= default 3 (retries options) ->
  fetch url cloudEvent 1 = inr response ->
  ok response = true ->
  text response = inr body ->
  (exists cause, JSON_parse body = inl cause)
  \/ (exists rawPayload message,
        JSON_parse body = inr rawPayload
        /\ decodeCloudEvent rawPayload = inl (MkError message)) ->
  exists cause,
    postCloudEvent JSON_parse fetch url cloudEvent options
    = Some (inl (ParseError cause), [Fetch 1])
    /\ (forall rawPayload message,
          JSON_parse body = inr rawPayload ->
          decodeCloudEvent rawPayload = inl (MkError message) ->
          cause = NativeError "Error" message).
Proof.
  intros Hn Hfetch Hok Htext Hbad.
  assert (exists cause,
            attemptRequest JSON_parse (default 5000 (Network.timeout options))
                           (fetch url cloudEvent 1) = inl (ParseError cause)
            /\ (forall rawPayload message,
                  JSON_parse body = inr rawPayload ->
                  decodeCloudEvent rawPayload = inl (MkError message) ->
                  cause = NativeError "Error" message)) as (cause & Hattempt & Hcause).
  { rewrite Hfetch. unfold attemptRequest, tryBlock. rewrite Hok, Htext. cbn [negb].
    destruct Hbad as [[cause Hp] | (raw & message & Hp & Hd)].
    - exists cause. rewrite Hp. split; [reflexivity |]. intros ? ? Hp'. congruence.
    - exists (NativeError "Error" message). rewrite Hp, Hd. split; [reflexivity |].
      intros raw' message' Hp' Hd'. congruence. }
  exists cause. split; [| exact Hcause].
  rewrite (postCloudEvent_stops_at JSON_parse fetch url cloudEvent options 1
             (ParseError cause)); try reflexivity; try lia; try assumption.
Qed.

End Client.

(** X7. sendCloudEventToBackend sends the envelope encodeCloudEvent builds
    from its arguments; if the transport rejects attempts 1..k-1 and attempt
    k (k <= retries) returns a 2xx body that parses and decodes with no
    response status or status code '0', the call returns that decoded
    response after exactly k fetches, having slept 1000, 2000, ... ms
    between them. *)
Theorem sendCloudEventToBackend_succeeds_after_retries
    (JSON_parse : string -> JsError + value)
    (fetch : string -> CloudEvent -> Z -> JsError + Response)
    (g : Globals) (url type source : string) (data : value) (options : RequestOptions)
    (k : Z) (response : Response) (body : string) (rawPayload : value)
    (decoded : DecodedCloudEvent) :
  let sent := encodeCloudEvent g type source data in
  1 <= k <= default 3 (retries options) ->
  (forall j, 1 <= j < k ->
             exists name message, fetch url sent j = inl (NativeError name message)) ->
  fetch url sent k = inr response ->
  ok response = true ->
  text response = inr body ->
  JSON_parse body = inr rawPayload ->
  decodeCloudEvent rawPayload = inr decoded ->
  (responseAttributes decoded = None
   \/ exists attrs, responseAttributes decoded = Some attrs
                    /\ statusCode attrs = VStr "0") ->
  sendCloudEventToBackend JSON_parse fetch g url type source data options
  = Some (inr decoded, exhausted (Z.to_nat k))
  /\ fetchCount (exhausted (Z.to_nat k)) = Z.to_nat k
  /\ sleeps (exhausted (Z.to_nat k))
     = map (fun i => 2 ^ (Z.of_nat i - 1) * 1000) (seq 1 (Z.to_nat k - 1)).
Proof.
  intros sent Hk Hrej Hfetch Hok Htext Hparse Hdecode Hstatus.
  split; [| split; [apply fetchCount_exhausted | apply sleeps_exhausted]].
  unfold sendCloudEventToBackend. fold sent.
  apply postCloudEvent_returns_at; try assumption.
  rewrite Hfetch. eapply attemptRequest_success; eassumption.
Qed.

Lemma postCloudEvent_bounded_attempts_witness :
  (1 <= fetchCount [Fetch 1; Sleep 1000; Fetch 2; Sleep 2000; Fetch 3])%nat
  /\ (fetchCount [Fetch 1; Sleep 1000; Fetch 2; Sleep 2000; Fetch 3] <= 3)%nat
  /\ [Fetch 1; Sleep 1000; Fetch 2; Sleep 2000; Fetch 3]
     = exhausted (fetchCount [Fetch 1; Sleep 1000; Fetch 2; Sleep 2000; Fetch 3])
  /\ (forall error,
        @inl JsError DecodedCloudEvent
             (NetworkError (Some (NativeError "TypeError" "Failed to fetch"))) = inl error ->
        classified error
        /\ (isRetryableError error = true ->
            fetchCount [Fetch 1; Sleep 1000; Fetch 2; Sleep 2000; Fetch 3] = 3%nat)).
Proof.
  apply (postCloudEvent_bounded_attempts (Scenario.parsesTo VNull) Scenario.refused
           Scenario.url Scenario.request Scenario.defaults
           (inl (NetworkError (Some (NativeError "TypeError" "Failed to fetch"))))
           [Fetch 1; Sleep 1000; Fetch 2; Sleep 2000; Fetch 3]).
  - cbn. lia.
  - reflexivity.
Defined.

Lemma postCloudEvent_total_backoff_witness :
  total (sleeps [Fetch 1; Sleep 1000; Fetch 2; Sleep 2000; Fetch 3]) = 3000
  /\ total (sleeps [Fetch 1; Sleep 1000; Fetch 2; Sleep 2000; Fetch 3]) <= 3000.
Proof.
  apply (postCloudEvent_total_backoff (Scenario.parsesTo VNull) Scenario.refused
           Scenario.url Scenario.request Scenario.defaults
           (inl (NetworkError (Some (NativeError "TypeError" "Failed to fetch"))))
           [Fetch 1; Sleep 1000; Fetch 2; Sleep 2000; Fetch 3]).
  - cbn. lia.
  - reflexivity.
Defined.

Lemma postCloudEvent_no_attempts_witness :
  postCloudEvent (Scenario.parsesTo VNull) Scenario.refused
                 Scenario.url Scenario.request Scenario_more.noAttempts
  = Some (inl (NetworkError None), []).
Proof.
  apply (postCloudEvent_no_attempts (Scenario.parsesTo VNull) Scenario.refused
           Scenario.url Scenario.request Scenario_more.noAttempts).
  cbn. lia.
Defined.

Lemma postCloudEvent_all_timeouts_witness :
  postCloudEvent (Scenario.parsesTo VNull) Scenario_more.aborted
                 Scenario.url Scenario.request Scenario.defaults
  = Some (inl (TimeoutError 5000), [Fetch 1; Sleep 1000; Fetch 2; Sleep 2000; Fetch 3]).
Proof.
  apply (postCloudEvent_all_timeouts (Scenario.parsesTo VNull) Scenario_more.aborted
           Scenario.url Scenario.request Scenario.defaults).
  - cbn. lia.
  - intros k Hk. eexists. reflexivity.
Defined.

Lemma postCloudEvent_unreadable_body_retried_witness :
  exists error,
    postCloudEvent (Scenario.parsesTo VNull) Scenario_more.unreadable
                   Scenario.url Scenario.request Scenario.defaults
    = Some (inl error, [Fetch 1; Sleep 1000; Fetch 2; Sleep 2000; Fetch 3])
    /\ networkOrTimeout error.
Proof.
  apply (postCloudEvent_unreadable_body_retried (Scenario.parsesTo VNull)
           Scenario_more.unreadable Scenario.url Scenario.request Scenario.defaults).
  - cbn. lia.
  - intros k Hk. eexists. eexists. eexists. split; reflexivity.
Defined.

Lemma postCloudEvent_parse_error_witness :
  exists cause,
    postCloudEvent Scenario_more.unparsable (Scenario.answers 200 "OK" "<html>")
                   Scenario.url Scenario.request Scenario.fiveAttempts
    = Some (inl (ParseError cause), [Fetch 1])
    /\ (forall rawPayload message,
          Scenario_more.unparsable "<html>" = inr rawPayload ->
          decodeCloudEvent rawPayload = inl (MkError message) ->
          cause = NativeError "Error" message).
Proof.
  apply (postCloudEvent_parse_error Scenario_more.unparsable
           (Scenario.answers 200 "OK" "<html>")
           Scenario.url Scenario.request Scenario.fiveAttempts
           {| status := 200; statusText := "OK"; text := inr "<html>" |} "<html>").
  - cbn. lia.
  - reflexivity.
  - reflexivity.
  - reflexivity.
  - left. eexists. reflexivity.
Defined.

Lemma sendCloudEventToBackend_succeeds_after_retries_witness :
  sendCloudEventToBackend (Scenario.parsesTo Scenario_more.billAdded)
                          Scenario_more.failsOnce Scenario.noCrypto Scenario.url
                          "com.quickbooks.bill.add" "qb-chrome-extension"
                          Scenario.billAddRq Scenario.defaults
  = Some (inr Scenario_more.billAddedDecoded, [Fetch 1; Sleep 1000; Fetch 2])
  /\ fetchCount [Fetch 1; Sleep 1000; Fetch 2] = 2%nat
  /\ sleeps [Fetch 1; Sleep 1000; Fetch 2] = [1000].
Proof.
  apply (sendCloudEventToBackend_succeeds_after_retries
           (Scenario.parsesTo Scenario_more.billAdded) Scenario_more.failsOnce
           Scenario.noCrypto Scenario.url "com.quickbooks.bill.add" "qb-chrome-extension"
           Scenario.billAddRq Scenario.defaults 2
           {| status := 200; statusText := "OK"; text := inr "{}" |} "{}"
           Scenario_more.billAdded Scenario_more.billAddedDecoded).
  - cbn. lia.
  - intros j Hj. assert (j = 1) as -> by lia. eexists. eexists. reflexivity.
  - reflexivity.
  - reflexivity.
  - reflexivity.
  - reflexivity.
  - reflexivity.
  - right. eexists. split; reflexivity.
Defined.

End Network_more.

(* ===================================================================== *)
(** ** Further properties of the envelope codec *)
(* ===================================================================== *)

Module CloudEvent_more.

Import CloudEvent Spec Spec_more Decode_properties.

Lemma truthy_or (a b : value) : truthy b = true -> truthy (JS.or a b) = true.
Proof. intros Hb. unfold JS.or. destruct (truthy a) eqn:E; assumption. Qed.

Lemma or_truthy_or_default (a b : value) : truthy (JS.or a b) = true \/ JS.or a b = b.
Proof. unfold JS.or. destruct (truthy a) eqn:E; auto. Qed.

(** X8. When decodeCloudEvent succeeds, the input is an object, the five
    required metadata fields of the result are exactly the input's
    properties and none of them is undefined, and datacontenttype /
    dataschema are present in the result exactly when the input has them
    defined, with the same value. *)
Theorem decodeCloudEvent_meta (rawPayload : value) (decoded : DecodedCloudEvent) :
  decodeCloudEvent rawPayload = inr decoded ->
  notAnObject rawPayload = false
  /\ specversion (meta decoded) = get rawPayload "specversion"
  /\ id (meta decoded) = get rawPayload "id"
  /\ source (meta decoded) = get rawPayload "source"
  /\ type (meta decoded) = get rawPayload "type"
  /\ time (meta decoded) = get rawPayload "time"
  /\ (forall field, In field requiredFields -> get rawPayload field <> VUndefined)
  /\ (forall v, datacontenttype (meta decoded) = Some v
                <-> v = get rawPayload "datacontenttype" /\ v <> VUndefined)
  /\ (forall v, dataschema (meta decoded) = Some v
                <-> v = get rawPayload "dataschema" /\ v <> VUndefined).
Proof.
  unfold decodeCloudEvent.
  destruct (notAnObject rawPayload); [discriminate |].
  destruct (List.find _ requiredFields) eqn:Hfind; [discriminate |].
  intros H. injection H as <-. cbn [meta specversion id source type time
                                     datacontenttype dataschema].
  repeat (split; [reflexivity |]).
  split.
  { intros field Hin Hund.
    pose proof (List.find_none _ _ Hfind field Hin) as Hn. cbn in Hn.
    rewrite Hund in Hn. discriminate Hn. }
  unfold optionalField.
  split; intros v.
  - destruct (get rawPayload "datacontenttype") eqn:E; cbn [isUndefined];
      split; intros H; try discriminate; try (injection H as <-; split; congruence);
      destruct H as [-> H']; congruence.
  - destruct (get rawPayload "dataschema") eqn:E; cbn [isUndefined];
      split; intros H; try discriminate; try (injection H as <-; split; congruence);
      destruct H as [-> H']; congruence.
Qed.

Lemma decodeCloudEvent_meta_witness :
  notAnObject Scenario.vendorError = false
  /\ specversion (meta Scenario.vendorErrorDecoded) = get Scenario.vendorError "specversion"
  /\ id (meta Scenario.vendorErrorDecoded) = get Scenario.vendorError "id"
  /\ source (meta Scenario.vendorErrorDecoded) = get Scenario.vendorError "source"
  /\ type (meta Scenario.vendorErrorDecoded) = get Scenario.vendorError "type"
  /\ time (meta Scenario.vendorErrorDecoded) = get Scenario.vendorError "time"
  /\ (forall field, In field requiredFields ->
                    get Scenario.vendorError field <> VUndefined)
  /\ (forall v, datacontenttype (meta Scenario.vendorErrorDecoded) = Some v
                <-> v = get Scenario.vendorError "datacontenttype" /\ v <> VUndefined)
  /\ (forall v, dataschema (meta Scenario.vendorErrorDecoded) = Some v
                <-> v = get Scenario.vendorError "dataschema" /\ v <> VUndefined).
Proof.
  apply (decodeCloudEvent_meta Scenario.vendorError Scenario.vendorErrorDecoded).
  reflexivity.
Defined.

(** X9. For an object input, the error of decodeCloudEvent names the first
    required field that is missing, in the order specversion, id, source,
    type, time: its message is Invalid CloudEvent: missing required field
    '<field>'. *)
Theorem decodeCloudEvent_first_missing_field (rawPayload : value)
    (before after : list string) (field : string) :
  notAnObject rawPayload = false ->
  requiredFields = before ++ field :: after ->
  (forall f, In f before -> get rawPayload f <> VUndefined) ->
  get rawPayload field = VUndefined ->
  decodeCloudEvent rawPayload
  = inl (MkError (String.append "Invalid CloudEvent: missing required field '"
                                (String.append field "'"))).
Proof.
  intros Hobj Hsplit Hbefore Hmissing. unfold decodeCloudEvent. rewrite Hobj, Hsplit.
  assert (List.find (fun f => isUndefined (get rawPayload f)) (before ++ field :: after)
          = Some field) as ->; [| reflexivity].
  clear Hsplit. induction before as [| f before IH]; cbn [app List.find].
  - rewrite Hmissing. reflexivity.
  - destruct (isUndefined (get rawPayload f)) eqn:E.
    + apply isUndefined_true in E. destruct (Hbefore f (or_introl eq_refl) E).
    + apply IH. intros f' Hin. apply Hbefore. right. exact Hin.
Qed.

Lemma decodeCloudEvent_first_missing_field_witness :
  decodeCloudEvent (VObj [("specversion", VStr "1.0"); ("id", VStr "1");
                          ("time", VStr "2025-11-08T10:30:00.000Z")])
  = inl (MkError "Invalid CloudEvent: missing required field 'source'").
Proof.
  apply (decodeCloudEvent_first_missing_field
           (VObj [("specversion", VStr "1.0"); ("id", VStr "1");
                  ("time", VStr "2025-11-08T10:30:00.000Z")])
           ["specversion"; "id"] ["type"; "time"] "source").
  - reflexivity.
  - reflexivity.
  - intros f Hin. cbn in Hin.
    repeat (destruct Hin as [<- | Hin]; [cbn; discriminate |]). contradiction.
  - reflexivity.
Defined.

(** X10. Whenever extractResponseAttributes returns a record, none of
    requestID, statusCode, statusMessage and statusSeverity is falsy
    (undefined, null, empty, 0 or false): a missing or falsy attribute is
    replaced by 'N/A'. *)
Theorem responseAttributes_never_falsy (data : value) (attrs : QbxmlResponseAttributes) :
  extractResponseAttributes data = Some attrs ->
  truthy (requestID attrs) = true
  /\ truthy (statusCode attrs) = true
  /\ truthy (statusMessage attrs) = true
  /\ truthy (statusSeverity attrs) = true.
Proof.
  unfold extractResponseAttributes.
  destruct (findSpecificResponse data) as [[m s] |]; [| discriminate].
  intros H. injection H as <-. cbn.
  repeat split; repeat apply truthy_or; reflexivity.
Qed.

Lemma responseAttributes_never_falsy_witness :
  truthy (VStr "1") = true
  /\ truthy (VStr "N/A") = true
  /\ truthy (VStr "Success") = true
  /\ truthy (VStr "Info") = true.
Proof.
  apply (responseAttributes_never_falsy
           (Scenario.billAddRs Scenario.noStatusCodeAttributes)
           {| requestID := VStr "1"; statusCode := VStr "N/A";
              statusMessage := VStr "Success"; statusSeverity := VStr "Info" |}).
  reflexivity.
Defined.

(** X11. Whenever extractTransactionDetails returns a record, IsPaid and
    OpenAmount are never falsy, and each of the other fields (RefNumber,
    TimeCreated, TimeModified, TxnDate, TxnID, TxnNumber and the FullName /
    ListID of TermsRef and VendorRef) is either truthy or the empty string. *)
Theorem transactionDetails_defaults (data : value) (details : TransactionDetails) :
  extractTransactionDetails data = Some details ->
  truthy (IsPaid details) = true
  /\ truthy (OpenAmount details) = true
  /\ Forall (fun v => truthy v = true \/ v = VStr "")
            [RefNumber details; TimeCreated details; TimeModified details;
             TxnDate details; TxnID details; TxnNumber details;
             FullName (TermsRef details); ListID (TermsRef details);
             FullName (VendorRef details); ListID (VendorRef details)].
Proof.
  unfold extractTransactionDetails.
  destruct (notAnObject data); [discriminate |].
  destruct (notAnObject (get data "QBXML")); [discriminate |].
  destruct (notAnObject (get (get data "QBXML") "QBXMLMsgsRs")); [discriminate |].
  destruct (List.find _ _) as [rk |]; [| discriminate].
  destruct (negb (truthy (VStr rk))); [discriminate |].
  destruct (notAnObject _); [discriminate |].
  destruct (List.find _ _) as [tk |]; [| discriminate].
  destruct (_ || _); [discriminate |].
  intros H. injection H as <-. cbn.
  split; [apply truthy_or; reflexivity |].
  split; [apply truthy_or; reflexivity |].
  repeat (apply List.Forall_cons; [apply or_truthy_or_default |]).
  apply List.Forall_nil.
Qed.

Lemma transactionDetails_defaults_witness :
  truthy (VStr "false") = true
  /\ truthy (VStr "0.00") = true
  /\ Forall (fun v => truthy v = true \/ v = VStr "")
            [VStr ""; VStr ""; VStr ""; VStr ""; VStr "ABC-123"; VStr "";
             VStr ""; VStr ""; VStr ""; VStr ""].
Proof.
  apply (transactionDetails_defaults
           (Scenario.billAddRs Scenario_more.billAddedAttributes)
           {| IsPaid := VStr "false"; OpenAmount := VStr "0.00"; RefNumber := VStr "";
              TimeCreated := VStr ""; TimeModified := VStr ""; TxnDate := VStr "";
              TxnID := VStr "ABC-123"; TxnNumber := VStr "";
              TermsRef := {| FullName := VStr ""; ListID := VStr "" |};
              VendorRef := {| FullName := VStr ""; ListID := VStr "" |} |}).
  reflexivity.
Defined.

Lemma find_and {A : Type} (P Q : A -> bool) (l : list A) (x : A) :
  List.find P l = Some x -> Q x = true ->
  List.find (fun a => P a && Q a) l = Some x.
Proof.
  induction l as [| a l IH]; cbn [List.find]; [discriminate |].
  destruct (P a) eqn:Pa; cbn [andb].
  - intros H Hq. injection H as ->. rewrite Hq. reflexivity.
  - exact IH.
Qed.

Lemma find_all_false {A : Type} (P : A -> bool) (l : list A) :
  (forall a, In a l -> P a = false) -> List.find P l = None.
Proof.
  induction l as [| a l IH]; intros H; [reflexivity |]. cbn [List.find].
  rewrite (H a (or_introl eq_refl)). apply IH. intros b Hb. apply H. right. exact Hb.
Qed.

Lemma notAnObject_typeof (v : value) :
  notAnObject v = false -> String.eqb (typeof v) "object" = true.
Proof.
  unfold notAnObject. intros H. apply orb_false_elim in H as [_ H].
  apply negb_false_iff in H. exact H.
Qed.

(** X12. If the response container that extractResponseAttributes reads has
    no child whose key ends in 'Ret' (and does not start with '@'),
    extractTransactionDetails returns null while extractResponseAttributes
    still returns the status: both functions pick the same container. *)
Theorem transactionDetails_absent_without_Ret (data qbxmlMsgsRs specificResponse : value) :
  findSpecificResponse data = Some (qbxmlMsgsRs, specificResponse) ->
  (forall key, In key (keys specificResponse) ->
               negb (startsWith key "@") && endsWith key "Ret" = false) ->
  extractTransactionDetails data = None
  /\ exists attrs, extractResponseAttributes data = Some attrs.
Proof.
  intros Hfind Hkeys. split.
  2:{ unfold extractResponseAttributes. rewrite Hfind. eauto. }
  revert Hfind. unfold findSpecificResponse, extractTransactionDetails.
  destruct (notAnObject data); [discriminate |].
  destruct (notAnObject (get data "QBXML")); [discriminate |].
  set (m := get (get data "QBXML") "QBXMLMsgsRs").
  destruct (notAnObject m); [discriminate |].
  destruct (List.find (fun key => negb (startsWith key "@")) (keys m))
    as [rk |] eqn:Hrk; [| discriminate].
  destruct (negb (truthy (VStr rk))) eqn:Hempty; [discriminate |].
  destruct (notAnObject (get m rk)) eqn:Hobj; [discriminate |].
  intros H. injection H as <- <-.
  rewrite (find_and _ (fun key => String.eqb (typeof (get m key)) "object") _ rk Hrk)
    by (apply notAnObject_typeof, Hobj).
  rewrite Hempty, Hobj.
  rewrite (find_all_false _ _ Hkeys). reflexivity.
Qed.

Lemma transactionDetails_absent_without_Ret_witness :
  extractTransactionDetails (Scenario.billAddRs Scenario.vendorErrorAttributes) = None
  /\ exists attrs,
       extractResponseAttributes (Scenario.billAddRs Scenario.vendorErrorAttributes)
       = Some attrs.
Proof.
  apply (transactionDetails_absent_without_Ret
           (Scenario.billAddRs Scenario.vendorErrorAttributes)
           (Scenario.msgsRs Scenario.vendorErrorAttributes)
           (VObj Scenario.vendorErrorAttributes)).
  - reflexivity.
  - intros key Hin. cbn in Hin.
    repeat (destruct Hin as [<- | Hin]; [reflexivity |]). contradiction.
Defined.

Lemma startsWith_differs (k rk : string) :
  startsWith k "@" = true -> startsWith rk "@" = false -> String.eqb k rk = false.
Proof.
  intros Hk Hrk. destruct (String.eqb k rk) eqn:E; [| reflexivity].
  apply String.eqb_eq in E. congruence.
Qed.

(** Reading the one child that follows the attributes. *)
Lemma get_after_attributes (attrs : list (string * value)) (k : string) (v : value) :
  attributeKeys attrs -> startsWith k "@" = false ->
  get (VObj (attrs ++ [(k, v)])) k = v.
Proof.
  intros Hattrs Hk. unfold get. cbn [entries].
  induction Hattrs as [| [k' v'] attrs Hk' _ IH]; cbn [app List.find fst snd].
  - rewrite String.eqb_refl. reflexivity.
  - cbn [fst] in Hk'. rewrite (startsWith_differs k' k Hk' Hk). exact IH.
Qed.

(** Finding the key of the one child that follows the attributes. *)
Lemma find_after_attributes (P : string -> bool) (attrs : list (string * value))
    (k : string) (v : value) :
  attributeKeys attrs ->
  (forall key, startsWith key "@" = true -> P key = false) ->
  P k = true ->
  List.find P (keys (VObj (attrs ++ [(k, v)]))) = Some k.
Proof.
  intros Hattrs Hskip Hk. unfold keys. cbn [entries].
  induction Hattrs as [| [k' v'] attrs Hk' _ IH]; cbn [app map List.find fst].
  - rewrite Hk. reflexivity.
  - cbn [fst] in Hk'. rewrite (Hskip k' Hk'). exact IH.
Qed.

(** X13. For a payload with attributes, one response container and one
    return object: when the return object is a non-empty list whose first
    element is not itself a list, extractTransactionDetails gives the same
    result as for that first element alone; when it is an empty list the
    result is null. *)
Theorem transactionDetails_first_of_list
    (envelopeAttrs responseAttrs : list (string * value)) (responseKey retKey : string)
    (first : value) (rest : list value) :
  attributeKeys envelopeAttrs ->
  attributeKeys responseAttrs ->
  startsWith responseKey "@" = false ->
  responseKey <> "" ->
  startsWith retKey "@" = false ->
  endsWith retKey "Ret" = true ->
  isArray first = false ->
  extractTransactionDetails
    (qbResponse envelopeAttrs responseKey responseAttrs retKey (VArr (first :: rest)))
  = extractTransactionDetails
      (qbResponse envelopeAttrs responseKey responseAttrs retKey first)
  /\ extractTransactionDetails
       (qbResponse envelopeAttrs responseKey responseAttrs retKey (VArr []))
     = None.
Proof.
  intros Hea Hra Hrk Hne Htk Hret Hfirst.
  assert (Hnonempty : negb (truthy (VStr responseKey)) = false).
  { cbn. rewrite negb_involutive. apply String.eqb_neq. exact Hne. }
  assert (Hwalk : forall ret,
             extractTransactionDetails
               (qbResponse envelopeAttrs responseKey responseAttrs retKey ret)
             = let txnDetails := match ret with
                                 | VArr (x :: _) => x
                                 | _ => ret
                                 end in
               if notAnObject txnDetails || isArray txnDetails then None
               else Some {| IsPaid := JS.or (get txnDetails "IsPaid") (VStr "false");
                            OpenAmount := JS.or (get txnDetails "OpenAmount") (VStr "0.00");
                            RefNumber := JS.or (get txnDetails "RefNumber") (VStr "");
                            TimeCreated := JS.or (get txnDetails "TimeCreated") (VStr "");
                            TimeModified := JS.or (get txnDetails "TimeModified") (VStr "");
                            TxnDate := JS.or (get txnDetails "TxnDate") (VStr "");
                            TxnID := JS.or (get txnDetails "TxnID") (VStr "");
                            TxnNumber := JS.or (get txnDetails "TxnNumber") (VStr "");
                            TermsRef := extractRef txnDetails "TermsRef";
                            VendorRef := extractRef txnDetails "VendorRef" |}).
  { intros ret. unfold extractTransactionDetails, qbResponse.
    change (notAnObject (VObj ?l)) with false. cbv iota.
    change (get (VObj [("QBXML", ?q)]) "QBXML") with q.
    change (notAnObject (VObj ?l)) with false. cbv iota.
    change (get (VObj [("QBXMLMsgsRs", ?m)]) "QBXMLMsgsRs") with m.
    change (notAnObject (VObj ?l)) with false. cbv iota.
    rewrite (find_after_attributes _ envelopeAttrs responseKey _ Hea).
    2:{ intros key Hkey. rewrite Hkey. reflexivity. }
    2:{ rewrite Hrk, (get_after_attributes envelopeAttrs responseKey _ Hea Hrk).
        reflexivity. }
    rewrite Hnonempty, (get_after_attributes envelopeAttrs responseKey _ Hea Hrk).
    change (notAnObject (VObj ?l)) with false. cbv iota.
    rewrite (find_after_attributes _ responseAttrs retKey _ Hra).
    2:{ intros key Hkey. rewrite Hkey. reflexivity. }
    2:{ rewrite Htk, Hret. reflexivity. }
    rewrite (get_after_attributes responseAttrs retKey _ Hra Htk). reflexivity. }
  split.
  - rewrite !Hwalk. cbv zeta. destruct first; try reflexivity. discriminate Hfirst.
  - rewrite Hwalk. reflexivity.
Qed.

Lemma transactionDetails_first_of_list_witness :
  extractTransactionDetails
    (qbResponse [("@requestID", VStr "1")] "BillQueryRs" [("@statusCode", VStr "0")]
                "BillRet" (VArr [VObj [("TxnID", VStr "A")]; VObj [("TxnID", VStr "B")]]))
  = extractTransactionDetails
      (qbResponse [("@requestID", VStr "1")] "BillQueryRs" [("@statusCode", VStr "0")]
                  "BillRet" (VObj [("TxnID", VStr "A")]))
  /\ extractTransactionDetails
       (qbResponse [("@requestID", VStr "1")] "BillQueryRs" [("@statusCode", VStr "0")]
                   "BillRet" (VArr []))
     = None.
Proof.
  apply (transactionDetails_first_of_list
           [("@requestID", VStr "1")] [("@statusCode", VStr "0")]
           "BillQueryRs" "BillRet" (VObj [("TxnID", VStr "A")])
           [VObj [("TxnID", VStr "B")]]).
  - repeat constructor.
  - repeat constructor.
  - reflexivity.
  - discriminate.
  - reflexivity.
  - reflexivity.
  - reflexivity.
Defined.

End CloudEvent_more.

(* ===================================================================== *)
(** ** Further properties of the persistent reactive store *)
(* ===================================================================== *)

Module PersistentStore_more.

Import PersistentStore PersistentStore_events PersistentStore_properties.

Lemma area_areaSet_same (t : StorageType) (k : string) (v : value) (s : ChromeStorage) :
  area t (areaSet t k v s) = <[k := v]> (area t s).
Proof. destruct t; reflexivity. Qed.

Lemma area_areaSet_other (t t' : StorageType) (k : string) (v : value) (s : ChromeStorage) :
  t' <> t -> area t' (areaSet t k v s) = area t' s.
Proof. destruct t, t'; try reflexivity; intros H; destruct H; reflexivity. Qed.

(** What one [store.set] can do: nothing outward, or one write of the new
    value under the cell's key. *)
Lemma set_effect (key : string) (storageType : StorageType) (v : value) (c : Cell) :
  (chrome (set key storageType v c) = chrome c
   /\ setCalls (set key storageType v c) = setCalls c)
  \/ (chrome (set key storageType v c) = areaSet storageType key v (chrome c)
      /\ setCalls (set key storageType v c) = setCalls c ++ [(storageType, key, v)]).
Proof.
  unfold set. destruct (safe_not_equal (current c) v); [| left; auto].
  unfold subscriber. cbn [isInitializing].
  destruct (isInitializing c); [left | right]; cbn; auto.
Qed.

Lemma set_pendingGet (key : string) (storageType : StorageType) (v : value) (c : Cell) :
  pendingGet (set key storageType v c) = pendingGet c.
Proof.
  unfold set. destruct (safe_not_equal (current c) v); [| reflexivity].
  unfold subscriber. cbn [isInitializing]. destruct (isInitializing c); reflexivity.
Qed.

(** The outward effect of one event. *)
Lemma step_effect (key : string) (storageType : StorageType) (c : Cell) (e : Event) :
  (chrome (step key storageType c e) = chrome c
   /\ setCalls (step key storageType c e) = setCalls c)
  \/ exists v,
       chrome (step key storageType c e) = areaSet storageType key v (chrome c)
       /\ setCalls (step key storageType c e) = setCalls c ++ [(storageType, key, v)].
Proof.
  destruct e as [v | fn | | changes areaName]; cbn [step].
  - destruct (set_effect key storageType v c) as [H | H]; [left | right]; eauto.
  - unfold update.
    destruct (set_effect key storageType (fn (current c)) c) as [H | H];
      [left | right]; eauto.
  - unfold getResolved. destruct (pendingGet c) as [[stored |] |]; cbn; auto.
    destruct (set_effect key storageType stored c) as [H | H]; [left | right]; eauto.
  - unfold onChanged. destruct (negb _); [left; auto |].
    destruct (changes !! key) as [change |]; [| left; auto]. cbn.
    rewrite set_while_initializing by reflexivity. cbn. left. auto.
Qed.

(** X14. Whatever sequence of local set / update calls, hydration and change
    notifications a cell goes through, every storage.set it issues is for
    its own key in its own area: all other records of that area and the
    whole other area are unchanged. *)
Theorem cell_writes_only_its_record (key : string) (storageType : StorageType)
    (events : list Event) (c : Cell) :
  (forall k, k <> key ->
             area storageType (chrome (run key storageType events c)) !! k
             = area storageType (chrome c) !! k)
  /\ (forall t, t <> storageType ->
                area t (chrome (run key storageType events c)) = area t (chrome c))
  /\ exists written,
       setCalls (run key storageType events c)
       = setCalls c ++ map (fun v => (storageType, key, v)) written.
Proof.
  revert c. induction events as [| e events IH]; intros c.
  - cbn. repeat split. exists []. cbn. rewrite List.app_nil_r. reflexivity.
  - cbn [run fold_left]. fold (run key storageType events (step key storageType c e)).
    destruct (IH (step key storageType c e)) as (Hk & Ht & written & Hw).
    destruct (step_effect key storageType c e) as [[Hc Hs] | (v & Hc & Hs)].
    + rewrite Hc in Hk, Ht. rewrite Hs in Hw. repeat split; eauto.
    + rewrite Hc in Hk, Ht. rewrite Hs in Hw. split; [| split].
      * intros k Hne. rewrite (Hk k Hne), area_areaSet_same.
        apply lookup_insert_ne. congruence.
      * intros t Hne. rewrite (Ht t Hne). apply area_areaSet_other, Hne.
      * exists (v :: written). rewrite Hw, <- List.app_assoc. reflexivity.
Qed.

(** The cell right after [persistentStore] has returned. *)
Lemma persistentStore_created (key : string) (storageType : StorageType)
    (initialValue : value) (storage : ChromeStorage) :
  persistentStore key storageType initialValue storage
  = {| current := initialValue; isInitializing := true;
       pendingGet := Some (area storageType storage !! key);
       chrome := storage; setCalls := [] |}.
Proof. reflexivity. Qed.

(** The cell once the hydration read has resolved. *)
Lemma hydrated_cell (key : string) (storageType : StorageType)
    (initialValue : value) (storage : ChromeStorage) :
  getResolved key storageType (persistentStore key storageType initialValue storage)
  = {| current := default initialValue (area storageType storage !! key);
       isInitializing := false; pendingGet := None;
       chrome := storage; setCalls := [] |}.
Proof.
  rewrite persistentStore_created. unfold getResolved. cbn [pendingGet].
  destruct (area storageType storage !! key) as [stored |].
  - rewrite set_while_initializing by reflexivity. reflexivity.
  - reflexivity.
Qed.

(** X15. When the hydration read resolves with no local write before it, the
    cell holds the stored record if there is one and the initial value
    otherwise, nothing has been written to storage, isInitializing is
    cleared, and the read is not applied a second time. *)
Theorem hydration_reads_once (key : string) (storageType : StorageType)
    (initialValue : value) (storage : ChromeStorage) :
  let hydrated := getResolved key storageType
                    (persistentStore key storageType initialValue storage) in
  current hydrated = default initialValue (area storageType storage !! key)
  /\ chrome hydrated = storage
  /\ setCalls hydrated = []
  /\ isInitializing hydrated = false
  /\ getResolved key storageType hydrated = hydrated.
Proof.
  cbn zeta.
  assert (persistentStore key storageType initialValue storage
          = {| current := initialValue; isInitializing := true;
               pendingGet := Some (area storageType storage !! key);
               chrome := storage; setCalls := [] |}) as -> by reflexivity.
  unfold getResolved at 1 2 3 4 5. cbn [pendingGet].
  destruct (area storageType storage !! key) as [stored |].
  - rewrite set_while_initializing by reflexivity. cbn. auto.
  - cbn. auto.
Qed.

(** X16. After hydration, set(v) makes v the in-memory value; if v differs
    from the current value (an object always does) exactly one storage.set
    is issued and the record under the cell's key becomes v; if v is the
    same primitive, nothing is written. *)
Theorem set_after_hydration (key : string) (storageType : StorageType)
    (initialValue v : value) (storage : ChromeStorage) :
  let hydrated := getResolved key storageType
                    (persistentStore key storageType initialValue storage) in
  let written := set key storageType v hydrated in
  current written = v
  /\ (safe_not_equal (current hydrated) v = true ->
      area storageType (chrome written) !! key = Some v
      /\ setCalls written = [(storageType, key, v)])
  /\ (safe_not_equal (current hydrated) v = false ->
      chrome written = storage /\ setCalls written = []).
Proof.
  cbn zeta.
  assert (chrome (getResolved key storageType
                    (persistentStore key storageType initialValue storage)) = storage
          /\ setCalls (getResolved key storageType
                         (persistentStore key storageType initialValue storage)) = []
          /\ isInitializing (getResolved key storageType
                               (persistentStore key storageType initialValue storage))
             = false) as (Hchrome & Hcalls & Hinit)
    by (rewrite hydrated_cell; auto).
  remember (getResolved key storageType _) as hydrated eqn:Hh. clear Hh.
  unfold set. destruct (safe_not_equal (current hydrated) v) eqn:E.
  - unfold subscriber. cbn [isInitializing]. rewrite Hinit.
    unfold storageSet. cbn [current chrome setCalls].
    split; [reflexivity |]. split; [| discriminate]. intros _.
    rewrite area_areaSet_same, Hcalls. split; [apply lookup_insert_eq | reflexivity].
  - apply safe_not_equal_false in E.
    split; [exact E |]. split; [discriminate | auto].
Qed.

Lemma set_after_hydration_witness :
  let hydrated := getResolved "backend-url" local
                    (persistentStore "backend-url" local (VStr "") Scenario.storedUrl) in
  let written := set "backend-url" local (VStr "http://typed:3000") hydrated in
  current written = VStr "http://typed:3000"
  /\ area local (chrome written) !! "backend-url" = Some (VStr "http://typed:3000")
  /\ setCalls written = [(local, "backend-url", VStr "http://typed:3000")].
Proof.
  destruct (set_after_hydration "backend-url" local (VStr "") (VStr "http://typed:3000")
              Scenario.storedUrl) as (Hcur & Hdiff & _).
  split; [exact Hcur |]. apply Hdiff. reflexivity.
Defined.

(** X17. If a change notification for the cell's key is processed before the
    hydration read resolves, the listener clears isInitializing; when the
    read then resolves with a different, older record, that record replaces
    the notified value in memory and is written back to storage. *)
Theorem stale_hydration_after_notification (key : string) (storageType : StorageType)
    (initialValue stale fresh : value) (storage : ChromeStorage)
    (changes : gmap string StorageChange) (change : StorageChange) :
  area storageType storage !! key = Some stale ->
  changes !! key = Some change ->
  newValue change = Some fresh ->
  safe_not_equal fresh stale = true ->
  let created := persistentStore key storageType initialValue storage in
  let notified := onChanged key storageType changes storageType created in
  let hydrated := getResolved key storageType notified in
  current notified = fresh
  /\ isInitializing notified = false
  /\ current hydrated = stale
  /\ area storageType (chrome hydrated) !! key = Some stale
  /\ setCalls hydrated = [(storageType, key, stale)].
Proof.
  intros Hstored Hchange Hnew Hdiff. cbn zeta.
  assert (persistentStore key storageType initialValue storage
          = {| current := initialValue; isInitializing := true;
               pendingGet := Some (area storageType storage !! key);
               chrome := storage; setCalls := [] |}) as -> by reflexivity.
  unfold onChanged. rewrite StorageType_eqb_refl, Hchange, Hnew. cbn [negb].
  change (default VUndefined (Some fresh)) with fresh.
  rewrite set_while_initializing by reflexivity.
  cbn [current isInitializing pendingGet chrome setCalls].
  split; [reflexivity |]. split; [reflexivity |].
  unfold getResolved. cbn [pendingGet]. rewrite Hstored.
  unfold set. cbn [current]. rewrite Hdiff. unfold subscriber. cbn.
  rewrite area_areaSet_same. split; [reflexivity |].
  split; [apply lookup_insert_eq | reflexivity].
Qed.

Lemma stale_hydration_after_notification_witness :
  let created :=
    persistentStore "backend-url" local (VStr "http://default:3000") Scenario.storedUrl in
  let notified := onChanged "backend-url" local Scenario.urlChanged local created in
  let hydrated := getResolved "backend-url" local notified in
  current notified = VStr "http://other:3000"
  /\ isInitializing notified = false
  /\ current hydrated = VStr "http://stored:3000"
  /\ area local (chrome hydrated) !! "backend-url" = Some (VStr "http://stored:3000")
  /\ setCalls hydrated = [(local, "backend-url", VStr "http://stored:3000")].
Proof.
  apply (stale_hydration_after_notification "backend-url" local
           (VStr "http://default:3000") (VStr "http://stored:3000")
           (VStr "http://other:3000") Scenario.storedUrl Scenario.urlChanged
           {| oldValue := Some (VStr "http://stored:3000");
              newValue := Some (VStr "http://other:3000") |}).
  - reflexivity.
  - reflexivity.
  - reflexivity.
  - reflexivity.
Defined.

(** X18. A change notification for another storage area, or one that does
    not mention the cell's key, leaves the cell exactly as it was (value,
    flag and storage). *)
Theorem onChanged_ignores_other_records (key : string) (storageType areaName : StorageType)
    (changes : gmap string StorageChange) (c : Cell) :
  areaName <> storageType \/ changes !! key = None ->
  onChanged key storageType changes areaName c = c.
Proof.
  intros [Harea | Hkey].
  - apply onChanged_other_area, Harea.
  - unfold onChanged. rewrite Hkey. destruct (negb _); reflexivity.
Qed.

Lemma onChanged_ignores_other_records_witness :
  let c := persistentStore "current-route" local (VStr "/") Scenario.storedUrl in
  onChanged "current-route" local Scenario.urlChanged local c = c.
Proof.
  apply (onChanged_ignores_other_records "current-route" local local Scenario.urlChanged).
  right. reflexivity.
Defined.

End PersistentStore_more.

(* ===================================================================== *)
(** ** Further properties of the quota monitor *)
(* ===================================================================== *)

Module StorageMonitor_more_properties.

Import StorageMonitor StorageMonitor_more StorageMonitor_properties.

(** The first check is critical exactly from 95 percent. *)
Lemma checkStorageQuota_critical (n : Z) :
  exists q,
    checkStorageQuota (BytesInUse n) = Some q
    /\ (status q = critical <-> 95 * 5242880 <= n * 100).
Proof.
  destruct (checkStorageQuota_bands n) as (q & Hq & _ & _ & Hp & Hc & _).
  exists q. split; [exact Hq |]. rewrite Hc, Hp.
  unfold QUOTA_LIMITS_local, Qle, Qdiv, Qmult, Qinv, inject_Z. cbn. lia.
Qed.

(** X19. For n bytes in use checkStorageQuota reports bytesInUse n, quota
    5242880, and a status fixed by the byte count alone: ok exactly when
    n * 100 < 90 * 5242880 (below 4718592 bytes), warning exactly when
    90 * 5242880 <= n * 100 < 95 * 5242880 (from 4718592 to 4980735 bytes),
    critical exactly when 95 * 5242880 <= n * 100 (from 4980736 bytes); the
    ok threshold of 80 plays no part. *)
Theorem checkStorageQuota_status (n : Z) :
  exists q,
    checkStorageQuota (BytesInUse n) = Some q
    /\ bytesInUse q = n
    /\ quota q = 5242880
    /\ (status q = ok <-> n * 100 < 90 * 5242880)
    /\ (status q = warning <-> 90 * 5242880 <= n * 100 < 95 * 5242880)
    /\ (status q = critical <-> 95 * 5242880 <= n * 100).
Proof.
  destruct (checkStorageQuota_bands n) as (q & Hq & Hb & Hquota & Hp & Hc & Hw & Ho).
  exists q. split; [exact Hq |]. split; [exact Hb |]. split; [exact Hquota |].
  assert (Hpct : (percentUsed q == inject_Z n * 100 / 5242880)%Q).
  { rewrite Hp. unfold QUOTA_LIMITS_local. change (inject_Z 5242880) with 5242880%Q.
    field. }
  assert (Hlt : forall t : Z, (percentUsed q < inject_Z t)%Q <-> n * 100 < t * 5242880).
  { intros t. rewrite Hpct. unfold Qlt, Qdiv, Qmult, Qinv, inject_Z. cbn. lia. }
  assert (Hle : forall t : Z, (inject_Z t <= percentUsed q)%Q <-> t * 5242880 <= n * 100).
  { intros t. rewrite Hpct. unfold Qle, Qdiv, Qmult, Qinv, inject_Z. cbn. lia. }
  split; [rewrite Ho; apply (Hlt 90) |].
  split; [rewrite Hw, (Hle 90), (Hlt 95); lia |].
  rewrite Hc. apply (Hle 95).
Qed.

Lemma insertByCreatedAt_perm (b : Bill) (l : list Bill) :
  Permutation (insertByCreatedAt b l) (b :: l).
Proof.
  induction l as [| b' l IH]; [reflexivity |]. cbn [insertByCreatedAt].
  destruct (createdAt b <=? createdAt b'); [reflexivity |].
  rewrite IH. apply perm_swap.
Qed.

Lemma sortByCreatedAt_perm (l : list Bill) : Permutation (sortByCreatedAt l) l.
Proof.
  induction l as [| b l IH]; [reflexivity |].
  cbn [sortByCreatedAt fold_right]. fold (sortByCreatedAt l).
  rewrite insertByCreatedAt_perm, IH. reflexivity.
Qed.

Lemma in_skipn_in (n : nat) (l : list Bill) (b : Bill) : In b (skipn n l) -> In b l.
Proof.
  revert l. induction n as [| n IH]; intros l H; [exact H |].
  destruct l as [| b' l]; [exact H |]. right. apply IH. exact H.
Qed.

(** In a sorted list nothing before a cut is newer than anything after. *)
Lemma sorted_cut (n : nat) (l : list Bill) :
  Sorted Spec.olderOrEqual l ->
  forall old new, In old (firstn n l) -> In new (skipn n l) ->
                  createdAt old <= createdAt new.
Proof.
  intros Hs. apply Sorted_StronglySorted in Hs.
  2:{ intros x y z Hxy Hyz. unfold Spec.olderOrEqual in *. lia. }
  revert n. induction Hs as [| b l Hs IH Hall]; intros n old new Hold Hnew.
  - destruct n; cbn in Hold; contradiction.
  - destruct n as [| n]; [cbn in Hold; contradiction |].
    cbn [firstn skipn] in Hold, Hnew. destruct Hold as [<- | Hold].
    + rewrite List.Forall_forall in Hall. apply Hall.
      eapply in_skipn_in. exact Hnew.
    + eapply IH; eassumption.
Qed.

(** X20. When usage is above the target and the cache holds more than ten
    bills, cleanupOldData leaves exactly ten bills: the cache is split into
    removed and kept bills, the kept ones are sorted by createdAt, and no
    removed bill is newer than a kept one. *)
Theorem cleanupOldData_keeps_ten_most_recent (bytes : Z) (targetPercentage : option Q)
    (billCache : list Bill) :
  0 <= bytes ->
  (default (70 : Q) targetPercentage
   < inject_Z bytes / inject_Z QUOTA_LIMITS_local * 100)%Q ->
  (10 < List.length billCache)%nat ->
  exists n removed kept,
    cleanupOldData (BytesInUse bytes) targetPercentage billCache
    = Some (Resolved n, kept)
    /\ List.length kept = 10%nat
    /\ Permutation billCache (removed ++ kept)
    /\ Sorted Spec.olderOrEqual kept
    /\ (forall old new, In old removed -> In new kept ->
                        createdAt old <= createdAt new).
Proof.
  intros Hb Hpct Hlen.
  destruct (cleanupOldData_trims_to_ten bytes targetPercentage billCache Hb Hpct Hlen)
    as [n Hrun].
  pose proof (sortByCreatedAt_length billCache) as Hsl.
  pose proof (sortByCreatedAt_sorted billCache) as Hss.
  pose proof (sortByCreatedAt_perm billCache) as Hsp.
  set (sorted := sortByCreatedAt billCache) in *.
  set (cut := (List.length billCache - 10)%nat) in *.
  exists n, (firstn cut sorted), (skipn cut sorted).
  split; [exact Hrun |].
  split; [rewrite List.length_skipn; lia |].
  split; [rewrite List.firstn_skipn; symmetry; exact Hsp |].
  split; [apply skipn_sorted, Hss |].
  apply sorted_cut, Hss.
Qed.

Lemma cleanupOldData_keeps_ten_most_recent_witness :
  exists n removed kept,
    cleanupOldData (BytesInUse 5000000) None Scenario.twentyBills
    = Some (Resolved n, kept)
    /\ List.length kept = 10%nat
    /\ Permutation Scenario.twentyBills (removed ++ kept)
    /\ Sorted Spec.olderOrEqual kept
    /\ (forall old new, In old removed -> In new kept ->
                        createdAt old <= createdAt new).
Proof.
  apply (cleanupOldData_keeps_ten_most_recent 5000000 None Scenario.twentyBills).
  - lia.
  - vm_compute. reflexivity.
  - cbn. lia.
Defined.

(** Above the target there is something to free. *)
Lemma bytesToFree_pos (host : Host) (q : StorageQuota) (target : Q) :
  checkStorageQuota host = Some q ->
  Qle_bool (percentUsed q) target = false ->
  (0 < inject_Z (bytesInUse q) - target / 100 * inject_Z (quota q))%Q.
Proof.
  intros Hq Hle.
  assert (Hgt : (target < percentUsed q)%Q).
  { apply Qnot_le_lt. intros H. apply Qle_bool_iff in H. congruence. }
  assert (Hpct : (percentUsed q == inject_Z (bytesInUse q) / 5242880 * 100)%Q
                 /\ quota q = 5242880).
  { destruct host; cbn in Hq; try discriminate; injection Hq as <-; cbn;
      split; reflexivity. }
  destruct Hpct as [Hpct ->]. rewrite Hpct in Hgt. clear Hpct Hq Hle.
  change (inject_Z 5242880) with 5242880%Q.
  set (b := inject_Z (bytesInUse q)) in *. clearbody b.
  assert (target / 100 * 5242880 < b / 5242880 * 100 / 100 * 5242880)%Q.
  { apply Qmult_lt_compat_r; [reflexivity |].
    apply Qmult_lt_compat_r; [reflexivity | exact Hgt]. }
  assert (b / 5242880 * 100 / 100 * 5242880 == b)%Q by field.
  lra.
Qed.

Lemma ceilDiv_nonneg (bytesInUse : Z) (bytesToFree : Q) (length : nat) :
  0 <= bytesInUse -> (0 < bytesToFree)%Q ->
  0 <= ceilDiv bytesToFree (avgBytesPerBill bytesInUse length).
Proof.
  intros Hb Hf. destruct length as [| m].
  - cbn [avgBytesPerBill]. destruct (bytesInUse =? 0); cbn [ceilDiv]; [| lia].
    apply Qceiling_nonneg. apply Qle_shift_div_l; [reflexivity |].
    rewrite Qmult_0_l. apply Qlt_le_weak, Hf.
  - pose proof (ceilDiv_pos bytesInUse bytesToFree (S m) Hb Hf). lia.
Qed.

(** A cache of at most ten bills is never touched. *)
Lemma cleanupOldData_small_cache (host : Host) (q : StorageQuota)
    (targetPercentage : option Q) (billCache : list Bill) :
  checkStorageQuota host = Some q ->
  0 <= bytesInUse q ->
  (List.length billCache <= 10)%nat ->
  cleanupOldData host targetPercentage billCache = Some (Resolved 0, billCache).
Proof.
  intros Hq Hb Hsmall. unfold cleanupOldData. rewrite Hq.
  destruct (Qle_bool _ _) eqn:Hle; [reflexivity |].
  pose proof (bytesToFree_pos host q _ Hq Hle) as Hfree.
  unfold subscriber.
  pose proof (sortByCreatedAt_length billCache) as Hsl.
  set (sorted := sortByCreatedAt billCache) in *.
  pose proof (ceilDiv_nonneg (bytesInUse q) _ (List.length sorted) Hb Hfree) as Hc.
  set (n := Z.min _ _).
  assert (n = 0) as -> by (subst n; lia).
  reflexivity.
Qed.

(** X21. When the quota check succeeds and usage is at or below the target,
    or the cache holds at most ten bills, cleanupOldData resolves with 0 and
    leaves the cache untouched (not even re-sorted). *)
Theorem cleanupOldData_leaves_cache_alone (host : Host) (q : StorageQuota)
    (targetPercentage : option Q) (billCache : list Bill) :
  checkStorageQuota host = Some q ->
  0 <= bytesInUse q ->
  (percentUsed q <= default (70 : Q) targetPercentage)%Q
  \/ (List.length billCache <= 10)%nat ->
  cleanupOldData host targetPercentage billCache = Some (Resolved 0, billCache).
Proof.
  intros Hq Hb [Hle | Hsmall].
  - eapply cleanupOldData_noop; eassumption.
  - eapply cleanupOldData_small_cache; eassumption.
Qed.

Lemma cleanupOldData_leaves_cache_alone_witness :
  cleanupOldData NoChrome None Scenario.twentyBills
  = Some (Resolved 0, Scenario.twentyBills).
Proof.
  apply (cleanupOldData_leaves_cache_alone NoChrome
           {| bytesInUse := 0; quota := QUOTA_LIMITS_local; percentUsed := 0; status := ok |}
           None Scenario.twentyBills).
  - reflexivity.
  - cbn. lia.
  - left. cbn. unfold Qle. cbn. lia.
Defined.

(** X22. monitorAndCleanup leaves the cache untouched when chrome.storage is
    missing or the first check is below 95 percent (warning included); when
    the first check is at 95 percent or more, the check inside
    cleanupOldData is above 70 percent and the cache holds more than ten
    bills, it cuts the cache to its ten most recent bills. *)
Theorem monitorAndCleanup_evicts_only_when_critical
    (first second third : Host) (billCache : list Bill) :
  (first = NoChrome \/ (exists n, first = BytesInUse n /\ n * 100 < 95 * 5242880) ->
   monitorAndCleanup first second third billCache = Some (Resolved tt, billCache))
  /\
  (forall n1 n2,
      first = BytesInUse n1 -> 95 * 5242880 <= n1 * 100 ->
      second = BytesInUse n2 -> 70 * 5242880 < n2 * 100 ->
      third <> GetBytesInUseRejects ->
      (10 < List.length billCache)%nat ->
      monitorAndCleanup first second third billCache
      = Some (Resolved tt,
              skipn (List.length billCache - 10) (sortByCreatedAt billCache))).
Proof.
  split.
  - intros [-> | (n & -> & Hn)]; [reflexivity |].
    unfold monitorAndCleanup.
    destruct (checkStorageQuota_critical n) as (q & -> & Hc).
    destruct (status q); try reflexivity.
    assert (95 * 5242880 <= n * 100) by (apply Hc; reflexivity). lia.
  - intros n1 n2 -> H1 -> H2 H3 Hlen. unfold monitorAndCleanup.
    destruct (checkStorageQuota_critical n1) as (q & -> & Hc).
    rewrite (proj2 Hc H1).
    destruct (cleanupOldData_trims_to_ten n2 (Some (70 : Q)) billCache) as [n ->].
    + lia.
    + change (default (70 : Q) (Some (70 : Q))) with (70 : Q).
      unfold QUOTA_LIMITS_local, Qlt, Qdiv, Qmult, Qinv, inject_Z. cbn. lia.
    + exact Hlen.
    + destruct third; try reflexivity. destruct H3. reflexivity.
Qed.

Lemma monitorAndCleanup_evicts_only_when_critical_witness :
  monitorAndCleanup (BytesInUse 4456448) (BytesInUse 4456448) (BytesInUse 4456448)
                    Scenario.twentyBills
  = Some (Resolved tt, Scenario.twentyBills)
  /\ monitorAndCleanup (BytesInUse 5000000) (BytesInUse 5000000) (BytesInUse 3000000)
                       Scenario.twentyBills
     = Some (Resolved tt, skipn 10 Scenario.twentyBills).
Proof.
  split.
  - apply (proj1 (monitorAndCleanup_evicts_only_when_critical
                    (BytesInUse 4456448) (BytesInUse 4456448) (BytesInUse 4456448)
                    Scenario.twentyBills)).
    right. exists 4456448. split; [reflexivity | lia].
  - apply (proj2 (monitorAndCleanup_evicts_only_when_critical
                    (BytesInUse 5000000) (BytesInUse 5000000) (BytesInUse 3000000)
                    Scenario.twentyBills) 5000000 5000000).
    + reflexivity.
    + lia.
    + reflexivity.
    + lia.
    + discriminate.
    + cbn. lia.
Defined.

End StorageMonitor_more_properties.

(* ===================================================================== *)
(** ** Properties of the bill cache helpers *)
(* ===================================================================== *)

Module Bills_properties.

Import StorageMonitor Bills StorageMonitor_properties StorageMonitor_more_properties.

Lemma deleteBill_absent (billId : string) (bills : list Bill) :
  (forall b, In b bills -> id b <> billId) -> deleteBill billId bills = bills.
Proof.
  induction bills as [| b bills IH]; intros Hall; [reflexivity |].
  unfold deleteBill. cbn [List.filter].
  assert (String.eqb (id b) billId = false) as ->
    by (apply String.eqb_neq, Hall; left; reflexivity).
  cbn [negb]. f_equal. apply IH. intros b' Hin. apply Hall. right. exact Hin.
Qed.

(** X23. If no cached bill has the id addBill draws, deleteBill of that id
    after addBill gives back the original cache. *)
Theorem deleteBill_addBill (randomUUID : string) (now : Z) (bill : BillInput)
    (bills : list Bill) :
  (forall b, In b bills -> id b <> randomUUID) ->
  deleteBill randomUUID (addBill randomUUID now bill bills) = bills.
Proof.
  intros Hfresh. unfold addBill, deleteBill. rewrite List.filter_app.
  fold (deleteBill randomUUID bills). rewrite (deleteBill_absent _ _ Hfresh).
  cbn [List.filter newBill id]. rewrite String.eqb_refl. cbn [negb].
  apply List.app_nil_r.
Qed.

Lemma deleteBill_addBill_witness :
  deleteBill "m" (addBill "m" 13 Scenario_stores.electricity Scenario_stores.ledger)
  = Scenario_stores.ledger.
Proof.
  apply (deleteBill_addBill "m" 13 Scenario_stores.electricity Scenario_stores.ledger).
  intros b Hin. cbn in Hin.
  repeat (destruct Hin as [<- | Hin]; [cbn; discriminate |]). contradiction.
Defined.

(** [deleteBill] removes every bill with the id and nothing else. *)
Lemma deleteBill_removes_exactly (billId : string) (bills : list Bill) (b : Bill) :
  In b (deleteBill billId bills) <-> In b bills /\ id b <> billId.
Proof.
  unfold deleteBill. rewrite List.filter_In, negb_true_iff, String.eqb_neq. reflexivity.
Qed.

(** X24. updateBill keeps the ids and the order of the cache, stamps
    updatedAt with the time of the call on every bill with the given id
    (also over an updatedAt passed in updates), leaves the bills with other
    ids as they are, and changes nothing when no bill has the id. *)
Theorem updateBill_effect (billId : string) (updates : BillUpdates) (now : Z)
    (bills : list Bill) :
  map id (updateBill billId updates now bills) = map id bills
  /\ (forall b, In b (updateBill billId updates now bills) ->
                id b = billId -> updatedAt b = now)
  /\ (forall b, id b <> billId ->
                (In b (updateBill billId updates now bills) <-> In b bills))
  /\ ((forall b, In b bills -> id b <> billId) ->
      updateBill billId updates now bills = bills).
Proof.
  unfold updateBill. split; [| split; [| split]].
  - rewrite List.map_map. apply List.map_ext. intros b.
    destruct (String.eqb (id b) billId); reflexivity.
  - intros b Hin Hid. apply List.in_map_iff in Hin as (b0 & <- & _).
    destruct (String.eqb (id b0) billId) eqn:E; [reflexivity |].
    apply String.eqb_neq in E. contradiction.
  - intros b Hne. rewrite List.in_map_iff. split.
    + intros (b0 & <- & Hin). destruct (String.eqb (id b0) billId) eqn:E.
      * apply String.eqb_eq in E. cbn in Hne. contradiction.
      * exact Hin.
    + intros Hin. exists b. split; [| exact Hin].
      apply String.eqb_neq in Hne. rewrite Hne. reflexivity.
  - intros Hall. rewrite <- (List.map_id bills) at 2. apply List.map_ext_in.
    intros b Hin. apply Hall, String.eqb_neq in Hin. rewrite Hin. reflexivity.
Qed.

Section Derived.

Variable getTime : string -> option Z.

(** X25. At one instant no bill is both in overdueBills and in
    upcomingReminders, and both lists contain only bills of the cache whose
    status is 'pending'. *)
Theorem overdue_and_upcoming_disjoint (now reminderLeadDays : Z) (bills : list Bill)
    (b : Bill) :
  (In b (overdueBills getTime now bills) ->
   In b bills /\ billStatus b = "pending"
   /\ ~ In b (upcomingReminders getTime now reminderLeadDays bills))
  /\ (In b (upcomingReminders getTime now reminderLeadDays bills) ->
      In b bills /\ billStatus b = "pending").
Proof.
  unfold overdueBills, upcomingReminders. rewrite !List.filter_In.
  destruct (String.eqb (billStatus b) "pending") eqn:Hs; cbn [negb].
  - apply String.eqb_eq in Hs. split.
    + intros [Hin Hdue]. split; [exact Hin |]. split; [exact Hs |].
      intros [_ Hup]. destruct (getTime (dueDate b)) as [due |]; [| discriminate].
      apply Z.ltb_lt in Hdue. apply andb_true_iff in Hup as [Hpos _].
      apply Z.ltb_lt in Hpos. lia.
    + intros [Hin _]. auto.
  - split; intros [_ H]; discriminate H.
Qed.

(** X26. After markBillPaid(id), no bill with that id is in overdueBills, in
    upcomingReminders or in filteredBillsByStatus('pending'), and every
    cached bill with that id is in filteredBillsByStatus('paid'). *)
Theorem markBillPaid_clears_reminders (billId : string) (paidAt now reminderLeadDays : Z)
    (bills : list Bill) (b : Bill) :
  id b = billId ->
  ~ In b (overdueBills getTime now (markBillPaid billId paidAt bills))
  /\ ~ In b (upcomingReminders getTime now reminderLeadDays
                               (markBillPaid billId paidAt bills))
  /\ ~ In b (filteredBillsByStatus (Some "pending") (markBillPaid billId paidAt bills))
  /\ (In b (markBillPaid billId paidAt bills) ->
      In b (filteredBillsByStatus (Some "paid") (markBillPaid billId paidAt bills))).
Proof.
  intros Hid.
  assert (Hpaid : In b (markBillPaid billId paidAt bills) -> billStatus b = "paid").
  { unfold markBillPaid, updateBill. intros Hin.
    apply List.in_map_iff in Hin as (b0 & <- & _).
    destruct (String.eqb (id b0) billId) eqn:E; [reflexivity |].
    apply String.eqb_neq in E. cbn in Hid. contradiction. }
  unfold overdueBills, upcomingReminders, filteredBillsByStatus.
  cbn [truthy negb String.eqb Ascii.eqb Bool.eqb].
  repeat split.
  - intros Hin. apply List.filter_In in Hin as [Hin Hf].
    rewrite (Hpaid Hin) in Hf. discriminate Hf.
  - intros Hin. apply List.filter_In in Hin as [Hin Hf].
    rewrite (Hpaid Hin) in Hf. discriminate Hf.
  - intros Hin. apply List.filter_In in Hin as [Hin Hf].
    rewrite (Hpaid Hin) in Hf. discriminate Hf.
  - intros Hin. apply List.filter_In. split; [exact Hin |].
    rewrite (Hpaid Hin). reflexivity.
Qed.

End Derived.

Lemma markBillPaid_clears_reminders_witness :
  let b := Bills.merge (Scenario_stores.numbered 3 "c") Bills.paid 200 in
  ~ In b (overdueBills Scenario_stores.dueAt100 150
                       (markBillPaid "c" 200 Scenario_stores.ledger))
  /\ ~ In b (upcomingReminders Scenario_stores.dueAt100 150 3
                               (markBillPaid "c" 200 Scenario_stores.ledger))
  /\ ~ In b (filteredBillsByStatus (Some "pending")
                                   (markBillPaid "c" 200 Scenario_stores.ledger))
  /\ (In b (markBillPaid "c" 200 Scenario_stores.ledger) ->
      In b (filteredBillsByStatus (Some "paid")
                                  (markBillPaid "c" 200 Scenario_stores.ledger))).
Proof.
  apply (markBillPaid_clears_reminders Scenario_stores.dueAt100 "c" 200 150 3
           Scenario_stores.ledger).
  reflexivity.
Defined.

Lemma insertByCreatedAt_last (b new : Bill) (l : list Bill) :
  createdAt b <= createdAt new ->
  insertByCreatedAt b (l ++ [new]) = insertByCreatedAt b l ++ [new].
Proof.
  intros Hle. induction l as [| b' l IH]; cbn [app insertByCreatedAt].
  - apply Z.leb_le in Hle. rewrite Hle. reflexivity.
  - destruct (createdAt b <=? createdAt b'); [reflexivity |].
    rewrite IH. reflexivity.
Qed.

(** The newest bill sorts last, also among bills of the same age. *)
Lemma sortByCreatedAt_last (new : Bill) (l : list Bill) :
  (forall b, In b l -> createdAt b <= createdAt new) ->
  sortByCreatedAt (l ++ [new]) = sortByCreatedAt l ++ [new].
Proof.
  induction l as [| b l IH]; intros Hall; [reflexivity |].
  cbn [app sortByCreatedAt fold_right].
  fold (sortByCreatedAt (l ++ [new])). fold (sortByCreatedAt l).
  rewrite IH by (intros b' Hin; apply Hall; right; exact Hin).
  apply insertByCreatedAt_last, Hall. left. reflexivity.
Qed.

Lemma in_skipn_last (n : nat) (l : list Bill) (new : Bill) :
  (n <= List.length l)%nat -> In new (skipn n (l ++ [new])).
Proof.
  intros Hn. rewrite List.skipn_app.
  replace (n - List.length l)%nat with 0%nat by lia.
  apply List.in_or_app. right. left. reflexivity.
Qed.

(** X27. If no cached bill was created after the time addBill stamps on the
    new bill, a cleanupOldData run right after addBill never evicts the new
    bill, also when older bills carry the same creation time. *)
Theorem cleanupOldData_keeps_new_bill (bytes : Z) (targetPercentage : option Q)
    (randomUUID : string) (now : Z) (bill : BillInput) (bills : list Bill)
    (result : Outcome Z) (kept : list Bill) :
  0 <= bytes ->
  (forall b, In b bills -> createdAt b <= now) ->
  cleanupOldData (BytesInUse bytes) targetPercentage (addBill randomUUID now bill bills)
  = Some (result, kept) ->
  In (newBill randomUUID now bill) kept.
Proof.
  intros Hb Hall Hrun. unfold addBill in *.
  set (new := newBill randomUUID now bill) in *.
  destruct (checkStorageQuota_bands bytes) as (q & Hq & Hbytes & _ & Hp & _).
  destruct (Qlt_le_dec (default (70 : Q) targetPercentage)
                       (inject_Z bytes / inject_Z QUOTA_LIMITS_local * 100)) as [Hgt | Hle].
  - destruct (Nat.le_gt_cases (List.length (bills ++ [new])) 10) as [Hsmall | Hbig].
    + rewrite (cleanupOldData_small_cache _ q _ _ Hq) in Hrun.
      * injection Hrun as _ <-. apply List.in_or_app. right. left. reflexivity.
      * rewrite Hbytes. exact Hb.
      * exact Hsmall.
    + destruct (cleanupOldData_trims_to_ten bytes targetPercentage (bills ++ [new])
                  Hb Hgt Hbig) as [n Hn].
      rewrite Hn in Hrun. injection Hrun as _ <-.
      rewrite sortByCreatedAt_last by exact Hall.
      apply in_skipn_last. rewrite sortByCreatedAt_length, List.length_app. cbn. lia.
  - rewrite (cleanupOldData_noop _ _ _ q Hq) in Hrun.
    + injection Hrun as _ <-. apply List.in_or_app. right. left. reflexivity.
    + rewrite Hp. exact Hle.
Qed.

Lemma cleanupOldData_keeps_new_bill_witness :
  In (newBill "m" 13 Scenario_stores.electricity)
     (skipn 3 (addBill "m" 13 Scenario_stores.electricity Scenario_stores.ledger)).
Proof.
  apply (cleanupOldData_keeps_new_bill 5000000 None "m" 13 Scenario_stores.electricity
           Scenario_stores.ledger (Resolved 0)).
  - lia.
  - intros b Hin. cbn in Hin.
    repeat (destruct Hin as [<- | Hin]; [cbn; lia |]). contradiction.
  - vm_compute. reflexivity.
Defined.

End Bills_properties.

(* ===================================================================== *)
(** ** Properties of the vendor helpers *)
(* ===================================================================== *)

Module Vendors_properties.

Import Vendors.

(** The active vendors after a deletion. *)
Lemma activeVendors_deleteVendor (vendorId : string) (vendors : list Vendor) :
  activeVendors (deleteVendor vendorId vendors)
  = List.filter (fun v => negb (String.eqb (id v) vendorId)) (activeVendors vendors).
Proof.
  unfold deleteVendor, activeVendors.
  induction vendors as [| v vendors IH]; [reflexivity |].
  cbn [map List.filter]. destruct (String.eqb (id v) vendorId) eqn:E; cbn [active].
  - rewrite IH. destruct (active v); [| reflexivity].
    cbn [List.filter]. rewrite E. reflexivity.
  - rewrite IH. destruct (active v); [| reflexivity].
    cbn [List.filter]. rewrite E. reflexivity.
Qed.

(** X28. deleteVendor keeps every vendor record with its id and name,
    removes the vendor from activeVendors and nothing else from it, is
    idempotent, and equals updateVendor(id, { active: false }). *)
Theorem deleteVendor_is_soft (vendorId : string) (vendors : list Vendor) :
  map id (deleteVendor vendorId vendors) = map id vendors
  /\ map name (deleteVendor vendorId vendors) = map name vendors
  /\ activeVendors (deleteVendor vendorId vendors)
     = List.filter (fun v => negb (String.eqb (id v) vendorId)) (activeVendors vendors)
  /\ deleteVendor vendorId (deleteVendor vendorId vendors) = deleteVendor vendorId vendors
  /\ deleteVendor vendorId vendors
     = updateVendor vendorId
         {| up_name := None; up_defaultAccount := None;
            up_active := Some false; up_createdAt := None |}
         vendors.
Proof.
  unfold deleteVendor, updateVendor, activeVendors. repeat split.
  - rewrite List.map_map. apply List.map_ext. intros v.
    destruct (String.eqb (id v) vendorId); reflexivity.
  - rewrite List.map_map. apply List.map_ext. intros v.
    destruct (String.eqb (id v) vendorId); reflexivity.
  - apply (activeVendors_deleteVendor vendorId vendors).
  - rewrite List.map_map. apply List.map_ext. intros v.
    destruct (String.eqb (id v) vendorId) eqn:E; cbn [id]; rewrite E; reflexivity.
Qed.

(** X29. addVendor appends one vendor with the drawn id, the given name and
    active = true, so activeVendors grows by exactly that vendor at its end;
    if the id is new, deleteVendor of it restores activeVendors. *)
Theorem addVendor_is_active (randomUUID : string) (now : Z) (name : string)
    (defaultAccount : option string) (vendors : list Vendor) :
  exists v,
    addVendor randomUUID now name defaultAccount vendors = vendors ++ [v]
    /\ activeVendors (addVendor randomUUID now name defaultAccount vendors)
       = activeVendors vendors ++ [v]
    /\ id v = randomUUID /\ Vendors.name v = name /\ active v = true
    /\ ((forall v', In v' vendors -> id v' <> randomUUID) ->
        activeVendors (deleteVendor randomUUID
                         (addVendor randomUUID now name defaultAccount vendors))
        = activeVendors vendors).
Proof.
  eexists. split; [reflexivity |].
  split; [unfold activeVendors, addVendor; rewrite List.filter_app; reflexivity |].
  split; [reflexivity |]. split; [reflexivity |]. split; [reflexivity |].
  intros Hfresh. rewrite activeVendors_deleteVendor.
  unfold activeVendors, addVendor. rewrite !List.filter_app.
  cbn [List.filter active id]. rewrite String.eqb_refl. cbn [negb].
  rewrite List.app_nil_r.
  induction vendors as [| v vendors IH]; [reflexivity |].
  cbn [List.filter]. destruct (active v) eqn:Ha.
  - cbn [List.filter].
    assert (String.eqb (id v) randomUUID = false) as ->
      by (apply String.eqb_neq, Hfresh; left; reflexivity).
    cbn [negb]. f_equal. apply IH. intros v' Hin. apply Hfresh. right. exact Hin.
  - apply IH. intros v' Hin. apply Hfresh. right. exact Hin.
Qed.

End Vendors_properties.

(* ===================================================================== *)
(** ** Properties of the UI state helpers *)
(* ===================================================================== *)

Module UI_properties.

Import UI PersistentStore_properties.

(** X30. setBackendURL stores the URL in the backend-url cell before testing
    it (after hydration a changed URL is written to chrome.storage.local
    whatever the test gives); for the empty URL it sends no request, returns
    false and sets connectionStatus to 'disconnected'; otherwise it fetches
    <url>/health once, returns true exactly when the answer is 2xx, and sets
    connectionStatus to 'connected' then and to 'error' otherwise. *)
Theorem setBackendURL_stores_then_tests
    (fetch : string -> Network.JsError + Network.Response) (url : string) (s : State) :
  let after := snd (setBackendURL fetch url s) in
  let result := fst (setBackendURL fetch url s) in
  PersistentStore.current (backendURL after) = VStr url
  /\ (PersistentStore.isInitializing (backendURL s) = false ->
      PersistentStore.safe_not_equal (PersistentStore.current (backendURL s)) (VStr url)
      = true ->
      PersistentStore.localArea (PersistentStore.chrome (backendURL after)) !! "backend-url"
      = Some (VStr url))
  /\ (url = "" ->
      result = false /\ connectionStatus after = disconnected
      /\ requests after = requests s)
  /\ (url <> "" ->
      requests after = requests s ++ [String.append url "/health"]
      /\ (result = true <->
          exists response, fetch (String.append url "/health") = inr response
                           /\ Network.ok response = true)
      /\ connectionStatus after = (if result then connected else error)).
Proof.
  cbn zeta. unfold setBackendURL.
  assert (Hcur : PersistentStore.current
                   (PersistentStore.set "backend-url" PersistentStore.local (VStr url)
                                        (backendURL s)) = VStr url).
  { unfold PersistentStore.set.
    destruct (PersistentStore.safe_not_equal _ _) eqn:E.
    - unfold PersistentStore.subscriber. cbn.
      destruct (PersistentStore.isInitializing (backendURL s)); reflexivity.
    - apply safe_not_equal_false in E. exact E. }
  assert (Hstore : PersistentStore.isInitializing (backendURL s) = false ->
                   PersistentStore.safe_not_equal
                     (PersistentStore.current (backendURL s)) (VStr url) = true ->
                   PersistentStore.localArea
                     (PersistentStore.chrome
                        (PersistentStore.set "backend-url" PersistentStore.local (VStr url)
                                             (backendURL s))) !! "backend-url"
                   = Some (VStr url)).
  { intros Hinit Hdiff. unfold PersistentStore.set. rewrite Hdiff.
    unfold PersistentStore.subscriber. cbn. rewrite Hinit. cbn.
    apply lookup_insert_eq. }
  cbn [truthy]. destruct (String.eqb url "") eqn:Hempty; cbn [negb].
  - apply String.eqb_eq in Hempty. cbn [fst snd backendURL connectionStatus requests].
    split; [exact Hcur |]. split; [exact Hstore |].
    split; [auto |]. intros Hne. contradiction.
  - apply String.eqb_neq in Hempty. unfold testConnection.
    cbn [backendURL connectionStatus requests].
    destruct (fetch (String.append url "/health")) as [e | response];
      cbn [fst snd backendURL connectionStatus requests].
    + split; [exact Hcur |]. split; [exact Hstore |].
      split; [intros He; contradiction |]. intros _.
      split; [reflexivity |]. split; [| reflexivity].
      split; [discriminate | intros (r & Hr & _); discriminate Hr].
    + split; [exact Hcur |]. split; [exact Hstore |].
      split; [intros He; contradiction |]. intros _.
      split; [reflexivity |]. split; [| reflexivity].
      split; [intros Hok; eauto | intros (r & Hr & Hok); congruence].
Qed.

End UI_properties.
